(* ===== verification/_CoqProject ===== *)
-Q . S2P
Prelude.v
JsString.v
CodePoints.v
Loop.v
Tables.v
Normalize.v
Rfc3454.v
SaslPrep.v
Spec.v
Rfc4013.v
Surrogates.v
Output.v
Representation.v
SortedRanges.v
Idempotence.v
Profile.v
Hangul.v
Engine.v
Exports.v
