(* ===== verification/Prelude.v ===== *)
(** * SASLprep (packages/saslprep): a verification development

    The program is [src/packages/saslprep/src/index.ts]: the SASLprep
    profile of stringprep (RFC 4013 over RFC 3454).  It has two functions
    and three one-line helpers:

    - [toCodePoints] (lines 13-34) decodes a JavaScript string, a sequence
      of UTF-16 code units, into an array of code points, joining
      surrogate pairs;
    - [saslprep] (lines 39-151) maps, normalises (NFKC) and checks a string
      against the prohibited, unassigned and bidirectional tables, and
      returns the normalised string or throws;
    - [getCodePoint], [first], [last] (lines 4-6) read the first code
      point of a string and the first and last element of a string.

    It calls three things that are not in the sources: the six code point
    tables (built by [createMemoryCodePoints], each answering [get]), the
    built-in [String.prototype.normalize('NFKC')], and the string
    built-ins [charCodeAt], [codePointAt], [String.fromCodePoint],
    indexing, [length] and [typeof].

    ** How the program is modelled

    A string is the list of its code units, integers in [Z]; a string of
    the language satisfies [wf_string] (every unit below 2^16).  A code
    point is an integer in [Z].  [undefined] and NaN are [None].  A
    [throw] is the value [Err e] of the type [result], where [e] carries
    the constructor and the message of the exception; statements that may
    throw are sequenced with the bind of [result], in the order of the
    source.  The [for] loop of [toCodePoints] is a body function iterated
    on fuel, and the same body is the rule of a step relation.  The tables
    and the normaliser are parameters: a type class [BitField] with the
    one operation [get], and a type class [Normalizer] with the laws
    [NormalizerLaws] of NFKC that the theorems name when they need them.

    ** Files

    - [Prelude] (this file): the type [result] and its monad instances,
      the tactics and the hint database of the development, and lemmas on
      the array methods [some], [filter] and [map].
    - [JsString]: strings, values and exceptions of the language and the
      built-ins the program calls, after ECMA-262: [js_typeof],
      [charCodeAt], [js_index], [codePointAt], [UTF16EncodeCodePoint],
      [fromCodePoint] with its RangeError.  The array methods [push],
      [map], [filter] and [some] are the list functions [app], [map],
      [filter] and [existsb].
    - [CodePoints]: [getCodePoint], [first], [last] and [toCodePoints].
      One iteration of the loop is [toCodePoints_body], the loop is
      [toCodePoints_loop], and [decode] is the decoder of the
      specification (section 4.1) by structural recursion.  Theorems:
      [toCodePoints] equals [decode]; the loop exits within
      [input.length] iterations; no iteration reads outside the string;
      the decoded values are code points; the two round trips with
      [String.fromCodePoint], and what decoding an encoded sequence does
      in general; agreement with [codePointAt]; injectivity; the strings
      on which decoding is the identity.
    - [Loop]: the loop as a transition system ([loop_step],
      [loop_reachable]) with its invariant [loop_invariant], proved by
      induction on the rules; a reachable state in which the loop has
      exited holds the result ([loop_exit_result]); the run from the
      initial state has exactly as many steps as [toCodePoints] returns
      values, and the fuel of [toCodePoints_loop] counts them.
    - [Tables]: the class [BitField], its instances (predicates, finite
      sets, lists of ranges), the record [MemoryCodePoints] of the six
      tables, and the equivalence [tables_equiv] of records that answer
      [get] alike.
    - [Normalize]: the class [Normalizer], the laws [NormalizerLaws], and
      two instances: the identity and a normaliser given by a finite table
      of compatibility mappings.
    - [Rfc3454]: the tables of RFC 3454 as lists of ranges (appendices
      B.1, C.1.2, C.2.1 to C.9 in full, rows of A.1, D.1 and D.2) and a
      normaliser that is a table of four compatibility mappings.  They
      are the concrete input of the witnesses and of the tests; no
      theorem is about them except those that name them.
    - [SaslPrep]: [saslprep], one definition per [const] of the source
      ([mapped_input], [normalized_input], [hasProhibited], ...,
      [isLastBidiRAL]) and [saslprep_checks] for lines 85-150.  Theorems:
      the function as a decision list over the normal form
      ([saslprep_decision_list]); for each exception, exactly when it is
      thrown; what holds of a returned string ([saslprep_output_safe]);
      the types of the intermediate values ([saslprep_type]); the map
      step element by element; the option [allowUnassigned]; the empty
      string is returned for the empty input only
      ([saslprep_empty_iff]).
    - [Rfc4013]: the seven examples of RFC 4013 section 3 and the examples
      of the specification, evaluated as tests of the model.
    - [Surrogates]: [normalized_map] (line 85) against [mapped_input]:
      building a string from code points and decoding it joins surrogates
      that stand side by side ([toCodePoints_join] in [CodePoints]), so
      the checks may run on another sequence than the one mapped: the two
      are the same exactly when [mapped_input] is well paired
      ([normalized_map_mapped_input]).
    - [Output]: what holds of a returned string beyond the checks: it is
      well-formed UTF-16, the encoding of Unicode scalar values, when
      the prohibited table holds the surrogates
      ([saslprep_well_formed]); it holds no code point of the
      mapped-to-nothing table when that table lies in the Basic
      Multilingual Plane and the normaliser creates none of its code
      points ([saslprep_drops_nothing]).
    - [Hangul]: the part of NFKC that is arithmetic (Unicode Standard,
      section 3.12): decomposition of the syllables U+AC00..U+D7A3 and
      composition of conjoining jamo, an instance of [Normalizer] that
      is not a map over the units of a string, with [NormalizerLaws]
      proved for it.
    - [Representation]: the relation [tables_agree] of tables that
      answer [get] alike, whatever their type, and the congruence lemmas
      that carry results from one representation to another.  They
      follow from the interface [BitField] alone and are no property of
      the program.
    - [SortedRanges]: a second representation the specification names
      for the tables (design notes): a sorted array of disjoint ranges,
      built from rows in any order by [createSortedTable] and searched
      by bisection ([bsearch], defined by well-founded recursion on the
      width of the interval).  Bisection on a sorted array is the linear
      scan, and it reads at most one range more than the binary logarithm
      of the length of the array ([bsearch_logarithmic]).  The search is
      the specification's, no code of the repository.
    - [Idempotence]: [saslprep] applied to its result returns it exactly
      when the map step and the normaliser leave the result unchanged
      ([saslprep_idempotent_iff]), which two conditions on the tables
      ensure ([saslprep_idempotent]); two tables without them, as
      examples.
    - [Spec]: [prepare], the pipeline of the specification (section 4.2)
      with its five error kinds (section 7), and the refinement:
      [saslprep_refines_prepare] (the two agree, exceptions read as error
      kinds, when the RandALCat table lies in the Basic Multilingual
      Plane and the normal form is not empty), [saslprep_sound] (what
      [saslprep] returns, [prepare] returns), the two inputs on which
      they differ, and the bidirectional requirement of RFC 3454 on the
      code points of a returned string.
    - [Profile]: the class [Profile] of the conditions that the tables
      and the normaliser of the SASLprep profile meet, and the contract
      of [saslprep] under them in one theorem
      ([saslprep_meets_contract], and [saslprep_on_meets_contract] in
      [Engine] for an engine with a bound): what is returned is what [prepare]
      returns, is well-formed, free of prohibited and mapped-to-nothing
      code points and returned again; what is thrown is the error kind
      of [prepare], but for the TypeError of an empty normal form.  The
      tables of RFC 3454 meet the profile as rows, as sorted arrays
      ([saslprep_rfc_contract]) and with the normaliser of [Hangul].
    - [Engine]: [saslprep_on], the function on an engine that bounds the
      number of arguments of [String.fromCodePoint.apply] (lines 81-82).
      The bound is an assumption about the engine; the file shows that
      it changes nothing on inputs within it
      ([saslprep_on_within_limit]), so that the contract holds there
      ([saslprep_on_meets_contract]), and that a result within the bound
      is returned again ([saslprep_on_idempotent]).
    - [Exports]: the module object of lines 153-155, the function that
      carries itself as its properties [saslprep] and [default].

    ** What the theorems found

    - A non-empty input of which the map step leaves nothing (the one
      character U+00AD) makes [saslprep] throw a TypeError: lines 136-141
      index the empty normal form before line 143 asks whether the string
      holds a RandALCat character ([saslprep_undefined]).
    - The edge test of lines 136-141 reads the first and the last code
      unit, the specification the first and the last code point; they
      differ on a supplementary RandALCat character at an edge
      ([saslprep_rejects_surrogate_edge]).
    - Idempotence, which the specification states for all tables, needs a
      relation between the tables and the normaliser
      ([saslprep_idempotent], [saslprep_idempotent_iff]; the example
      [saslprep_not_idempotent] has tables without it).
    - The checks read the code points decoded from the normalised
      string, which are those of [mapped_input] only when it is well
      paired ([normalized_map_mapped_input]): two unpaired surrogates
      that the map step brings together pass the prohibited check as one
      supplementary character (the example
      [saslprep_joins_lone_surrogates]).
    - [String.fromCodePoint.apply] passes one argument for each code
      point, and engines bound the arguments of a call: beyond the bound
      the call throws a RangeError, which is none of the error kinds of
      the specification.  The bound is no code of the repository, and
      the development proves nothing of it beyond
      [saslprep_on_within_limit].
    - The map step runs before the normaliser, so a code point that is
      mapped to nothing is absent from the result only if the normaliser
      creates none ([saslprep_drops_nothing], [saslprep_keeps_created]).

    ** Bounds and fuel

    No arithmetic of the program leaves the range in which a number of
    the language is an exact integer: units are below 2^16 and every
    decoded value is at most 0x10FFFF ([toCodePoints_range]).  The
    executable loop is given [input.length] units of fuel; every iteration
    advances the index by one or two ([toCodePoints_body_progress]), so
    the loop exits within that bound ([toCodePoints_loop_fuel]); the number
    of iterations is the length of the result
    ([toCodePoints_loop_iterations]), at most [input.length] and at least
    half of it ([toCodePoints_length]).  No other definition uses fuel:
    [bsearch] recurses on an interval that each probe at least halves,
    and [bsearch_probes] counts the probes: one more than the binary
    logarithm of the number of ranges is enough.

    ** Not modelled

    Every statement of index.ts is modelled.  Of what it calls, two
    things are interfaces only, because their code is not in the
    sources: the construction of the tables from the compressed data
    (the module [memory-code-points]; [saslprep] receives the tables and
    calls [get] on them, which is [BitField]), and the NFKC algorithm (a
    built-in of the engine, specified by Unicode Standard Annex 15; the
    program relies on it through the laws [NormalizerLaws], which the
    table-driven normaliser of [Normalize] and the Hangul normaliser of
    [Hangul] satisfy; the part of the algorithm that reads the Unicode
    character database, that is decomposition mappings, combining
    classes and composition pairs, has no data in the repository to be
    checked against).  Also left out:
    values that the type annotations of the source exclude (tables or
    options that are not objects), and the properties every function
    object has besides the two the module assigns. *)

From stdpp Require Export base list numbers strings.
From Stdlib Require Export ZArith Lia Bool.

#[global] Open Scope Z_scope.

(** stdpp's solvers clear hypotheses that may be gone already. *)
#[export] Set Warnings "-clear-no-such-hyp".

(** ** Results: the model of [throw] *)

(** A computation that may throw returns [Err e]; one that returns [v]
    returns [Ok v]. *)
Inductive result (E A : Type) : Type :=
| Ok (a : A)
| Err (e : E).

Arguments Ok {E A} a.
Arguments Err {E A} e.

#[global] Instance result_ret {E} : MRet (result E) := fun _ a => Ok a.

#[global] Instance result_bind {E} : MBind (result E) := fun _ _ f r =>
  match r with
  | Ok a => f a
  | Err e => Err e
  end.

#[global] Instance result_fmap {E} : FMap (result E) := fun _ _ f r =>
  match r with
  | Ok a => Ok (f a)
  | Err e => Err e
  end.

Definition is_Ok {E A} (r : result E A) : bool :=
  match r with Ok _ => true | Err _ => false end.

Definition result_to_option {E A} (r : result E A) : option A :=
  match r with Ok a => Some a | Err _ => None end.

#[global] Instance result_eq_dec {E A} `{EqDecision E, EqDecision A} :
  EqDecision (result E A).
Proof. solve_decision. Defined.

Lemma option_bind_Some {A B} (f : A -> option B) (x : A) : (Some x ≫= f) = f x.
Proof. done. Qed.

Lemma result_bind_Ok {E A B} (f : A -> result E B) (x : A) : (Ok x ≫= f) = f x.
Proof. done. Qed.

Lemma result_bind_Err {E A B} (f : A -> result E B) (e : E) : (Err e ≫= f) = Err e.
Proof. done. Qed.

(** ** Tactics *)

Create HintDb saslprep discriminated.
Create Rewrite HintDb saslprep.

(** Turn the boolean tests of the program into propositions [lia] reads. *)
Ltac bool_prop :=
  repeat match goal with
  | H : _ && _ = true |- _ => apply andb_true_iff in H; destruct H
  | H : _ && _ = false |- _ => apply andb_false_iff in H
  | H : _ || _ = true |- _ => apply orb_true_iff in H
  | H : _ || _ = false |- _ => apply orb_false_iff in H; destruct H
  | H : negb _ = true |- _ => apply negb_true_iff in H
  | H : negb _ = false |- _ => apply negb_false_iff in H
  | H : Is_true _ |- _ => apply Is_true_true in H
  end.

(** Case analysis on the boolean a definition branches on, keeping the
    equation. *)
Ltac case_bool b :=
  let E := fresh "E" in destruct b eqn:E.

(** Split on the first [if] or [match] on a boolean in the goal. *)
Ltac case_if :=
  match goal with
  | |- context [if ?b then _ else _] => case_bool b
  end.

(** Close a goal about integer ranges given as boolean comparisons,
    divisions and remainders by constants included. *)
Ltac range_solver :=
  intros; bool_prop; first [lia | Z.div_mod_to_equations; lia].

(** ** Lists: the array methods the program uses *)

Section some.
Context {A : Type}.
Implicit Types (f g : A -> bool) (l : list A).

(** [Array.prototype.some] is [existsb]. *)
Lemma some_true f l : existsb f l = true <-> exists x, x ∈ l /\ f x = true.
Proof.
  rewrite existsb_exists. by setoid_rewrite list_elem_of_In.
Qed.

Lemma some_false f l : existsb f l = false <-> forall x, x ∈ l -> f x = false.
Proof.
  rewrite <- not_true_iff_false, some_true. split.
  - intros H x Hx. destruct (f x) eqn:E; [|done]. destruct H; eauto.
  - intros H (x & Hx & Hf). rewrite (H x Hx) in Hf. done.
Qed.

Lemma some_ext f g l :
  (forall x, x ∈ l -> f x = g x) -> existsb f l = existsb g l.
Proof.
  induction l as [|a l IH]; intros H; [done|]. simpl.
  rewrite (H a) by constructor. rewrite IH; [done|].
  intros x Hx. apply H. by constructor.
Qed.

(** [Array.prototype.filter] is [List.filter]. *)
Lemma filter_elem f l x : x ∈ List.filter f l <-> x ∈ l /\ f x = true.
Proof. rewrite !list_elem_of_In. apply filter_In. Qed.

Lemma filter_id f l : (forall x, x ∈ l -> f x = true) -> List.filter f l = l.
Proof.
  induction l as [|a l IH]; intros H; [done|]. simpl.
  rewrite (H a) by constructor. f_equal. apply IH.
  intros x Hx. apply H. by constructor.
Qed.

Lemma filter_length_le f l : (length (List.filter f l) <= length l)%nat.
Proof. induction l as [|a l IH]; simpl; [lia|]. destruct (f a); simpl; lia. Qed.

End some.

Lemma map_id_on {A} (f : A -> A) (l : list A) :
  (forall x, x ∈ l -> f x = x) -> map f l = l.
Proof.
  induction l as [|a l IH]; intros H; [done|]. simpl.
  rewrite (H a) by constructor. f_equal. apply IH.
  intros x Hx. apply H. by constructor.
Qed.

Lemma bind_fixed {A} (f : A -> list A) (l : list A) :
  (forall x, x ∈ l -> f x = [x]) -> l ≫= f = l.
Proof.
  induction l as [|a l IH]; intros H; [done|].
  rewrite bind_cons, (H a) by constructor. simpl. f_equal. apply IH.
  intros x Hx. apply H. by constructor.
Qed.

Lemma elem_of_map_iff {A B} (f : A -> B) (l : list A) (y : B) :
  y ∈ map f l <-> exists x, x ∈ l /\ y = f x.
Proof.
  rewrite list_elem_of_In, in_map_iff. split.
  - intros (x & <- & Hx). exists x. by rewrite list_elem_of_In.
  - intros (x & Hx & ->). exists x. by rewrite <- list_elem_of_In.
Qed.

#[export] Hint Rewrite @existsb_app @length_app @length_map : saslprep.
