(* ===== verification/JsString.v ===== *)
(** * JsString: JavaScript strings and the built-ins the program calls

    A JavaScript string is a finite sequence of 16-bit code units.  The
    model is a list of integers with the predicate [wf_string] for the
    width; the built-ins follow ECMA-262 (String.prototype.charCodeAt,
    String.prototype.codePointAt, String.fromCodePoint, the abstract
    operations CodePointAt, UTF16EncodeCodePoint and
    UTF16SurrogatePairToCodePoint, and the [typeof] operator).  None of
    this is code of the repository: the definitions are what
    [index.ts] relies on when it calls them. *)

From S2P Require Import Prelude.

(** ** Strings *)

(** A string is a list of code units; a code point sequence (a [number[]]
    of the source) is a list of integers too. *)
Abbreviation js_string := (list Z) (only parsing).

Definition code_unit_ok (u : Z) : bool := (0 <=? u) && (u <? 0x10000).

Definition wf_string (s : js_string) : Prop := Forall (fun u => 0 <= u < 0x10000) s.

Definition wf_stringb (s : js_string) : bool := forallb code_unit_ok s.

(** A code point as [String.fromCodePoint] accepts it. *)
Definition code_point_ok (cp : Z) : bool := (0 <=? cp) && (cp <=? 0x10FFFF).

Definition wf_code_points (cps : list Z) : Prop := Forall (fun cp => 0 <= cp <= 0x10FFFF) cps.

(** ** Errors *)

(** The exceptions that occur: [TypeError] and [RangeError] of the
    language, and the plain [Error] the program throws, each with its
    message. *)
Inductive js_error : Type :=
| TypeError (msg : string)
| RangeError (msg : string)
| Error (msg : string).

#[global] Instance js_error_eq_dec : EqDecision js_error.
Proof. solve_decision. Defined.

(** ** Values and [typeof] *)

(** The values a caller may pass where the signature says [string]. *)
Inductive js_value : Type :=
| JsUndefined
| JsNull
| JsBoolean (b : bool)
| JsNumber (n : Z)
| JsString (s : js_string)
| JsObject.

Definition js_typeof (v : js_value) : string :=
  match v with
  | JsUndefined => "undefined"
  | JsNull => "object"
  | JsBoolean _ => "boolean"
  | JsNumber _ => "number"
  | JsString _ => "string"
  | JsObject => "object"
  end.

(** The code units of a value whose [typeof] is ["string"]. *)
Definition js_string_value (v : js_value) : js_string :=
  match v with
  | JsString s => s
  | _ => []
  end.

(** A value whose string, if it is one, is a sequence of 16-bit units. *)
Definition wf_value (v : js_value) : Prop :=
  match v with
  | JsString s => wf_string s
  | _ => True
  end.

Lemma js_typeof_string v : js_typeof v = "string" <-> exists s, v = JsString s.
Proof. destruct v; simpl; split; try done; try (by intros [? ?]); eauto. Qed.

(** ** Reading a string *)

(** [s.charCodeAt(pos)]: the code unit at [pos]; [None] stands for NaN,
    the result when [pos] is not an index of [s]. *)
Definition charCodeAt (s : js_string) (pos : nat) : option Z := s !! pos.

(** [s[i]] for an integer [i]: the string of the one code unit at [i];
    [None] stands for [undefined], the value at a negative index or at one
    past the end. *)
Definition js_index (s : js_string) (i : Z) : option js_string :=
  if bool_decide (0 <= i) then (fun u => [u]) <$> s !! Z.to_nat i else None.

Definition is_leading_surrogate (u : Z) : bool := (0xD800 <=? u) && (u <=? 0xDBFF).

Definition is_trailing_surrogate (u : Z) : bool := (0xDC00 <=? u) && (u <=? 0xDFFF).

Definition UTF16SurrogatePairToCodePoint (lead trail : Z) : Z :=
  (lead - 0xD800) * 0x400 + (trail - 0xDC00) + 0x10000.

(** The abstract operation CodePointAt(string, position), for a position
    that is an index of the string. *)
Definition CodePointAt (s : js_string) (position : nat) : option Z :=
  match s !! position with
  | None => None
  | Some first =>
      if negb (is_leading_surrogate first) then Some first
      else
        match s !! (position + 1)%nat with
        | None => Some first
        | Some second =>
            if is_trailing_surrogate second
            then Some (UTF16SurrogatePairToCodePoint first second)
            else Some first
        end
  end.

(** [s.codePointAt(pos)]: [None] stands for [undefined]. *)
Definition codePointAt (s : js_string) (pos : nat) : option Z :=
  if bool_decide (pos < length s)%nat then CodePointAt s pos else None.

(** ** Building a string *)

Definition UTF16EncodeCodePoint (cp : Z) : js_string :=
  if cp <=? 0xFFFF then [cp]
  else [(cp - 0x10000) / 0x400 + 0xD800; (cp - 0x10000) mod 0x400 + 0xDC00].

(** [String.fromCodePoint(...cps)]: the first argument outside
    [0 .. 0x10FFFF] raises a RangeError. *)
Fixpoint fromCodePoint (cps : list Z) : result js_error js_string :=
  match cps with
  | [] => Ok []
  | cp :: rest =>
      if code_point_ok cp
      then r ← fromCodePoint rest; Ok (UTF16EncodeCodePoint cp ++ r)
      else Err (RangeError "Invalid code point")
  end.

(** The string [fromCodePoint] builds when it does not throw. *)
Definition utf16_encode (cps : list Z) : js_string :=
  concat (map UTF16EncodeCodePoint cps).

(** ** Lemmas *)

Lemma wf_stringb_spec s : wf_stringb s = true <-> wf_string s.
Proof.
  unfold wf_stringb, wf_string, code_unit_ok.
  rewrite forallb_forall, Forall_forall. setoid_rewrite <- list_elem_of_In.
  split; intros H u Hu; specialize (H u Hu); lia.
Qed.

#[global] Instance wf_string_dec s : Decision (wf_string s).
Proof.
  destruct (wf_stringb s) eqn:E; [left|right].
  - by apply wf_stringb_spec.
  - rewrite <- wf_stringb_spec. congruence.
Defined.

Lemma wf_string_nil : wf_string [].
Proof. constructor. Qed.

Lemma wf_string_cons u s : wf_string (u :: s) <-> (0 <= u < 0x10000) /\ wf_string s.
Proof. exact (Forall_cons _ u s). Qed.

Lemma wf_string_single u : 0 <= u < 0x10000 -> wf_string [u].
Proof. intros H. apply wf_string_cons. split; [done|constructor]. Qed.

Lemma wf_string_app s1 s2 : wf_string (s1 ++ s2) <-> wf_string s1 /\ wf_string s2.
Proof. exact (Forall_app _ s1 s2). Qed.

Lemma wf_string_lookup s i u : wf_string s -> s !! i = Some u -> 0 <= u < 0x10000.
Proof. intros H Hi. exact (proj1 (Forall_lookup _ _) H i u Hi). Qed.

Lemma wf_string_drop s n : wf_string s -> wf_string (drop n s).
Proof. exact (Forall_drop _ n s). Qed.

Lemma wf_string_code_points s : wf_string s -> wf_code_points s.
Proof. intros H. eapply Forall_impl; [exact H|]. simpl. lia. Qed.

Lemma surrogates_disjoint u :
  is_leading_surrogate u = true -> is_trailing_surrogate u = false.
Proof. unfold is_leading_surrogate, is_trailing_surrogate. lia. Qed.

Lemma surrogates_disjoint_r u :
  is_trailing_surrogate u = true -> is_leading_surrogate u = false.
Proof. unfold is_leading_surrogate, is_trailing_surrogate. lia. Qed.

Lemma pair_range lead trail :
  is_leading_surrogate lead = true -> is_trailing_surrogate trail = true ->
  0x10000 <= UTF16SurrogatePairToCodePoint lead trail <= 0x10FFFF.
Proof.
  unfold is_leading_surrogate, is_trailing_surrogate, UTF16SurrogatePairToCodePoint.
  lia.
Qed.

Lemma encode_bmp cp : cp <= 0xFFFF -> UTF16EncodeCodePoint cp = [cp].
Proof. intros H. unfold UTF16EncodeCodePoint. by rewrite (proj2 (Z.leb_le _ _) H). Qed.

Lemma encode_pair lead trail :
  is_leading_surrogate lead = true -> is_trailing_surrogate trail = true ->
  UTF16EncodeCodePoint (UTF16SurrogatePairToCodePoint lead trail) = [lead; trail].
Proof.
  intros Hl Ht. pose proof (pair_range _ _ Hl Ht) as Hr.
  unfold UTF16EncodeCodePoint. rewrite (proj2 (Z.leb_gt _ _)) by lia.
  unfold is_leading_surrogate, is_trailing_surrogate,
    UTF16SurrogatePairToCodePoint in *.
  f_equal; [|f_equal]; range_solver.
Qed.

Lemma encode_supplementary cp :
  0xFFFF < cp <= 0x10FFFF ->
  exists lead trail,
    UTF16EncodeCodePoint cp = [lead; trail] /\
    is_leading_surrogate lead = true /\ is_trailing_surrogate trail = true /\
    UTF16SurrogatePairToCodePoint lead trail = cp.
Proof.
  intros H. unfold UTF16EncodeCodePoint. rewrite (proj2 (Z.leb_gt _ _)) by lia.
  eexists _, _. split; [done|].
  unfold is_leading_surrogate, is_trailing_surrogate, UTF16SurrogatePairToCodePoint.
  range_solver.
Qed.

Lemma encode_wf cp : 0 <= cp <= 0x10FFFF -> wf_string (UTF16EncodeCodePoint cp).
Proof.
  intros H. unfold UTF16EncodeCodePoint, wf_string. case_if.
  - repeat constructor; lia.
  - repeat constructor; range_solver.
Qed.

Lemma encode_nonempty cp : UTF16EncodeCodePoint cp <> [].
Proof. unfold UTF16EncodeCodePoint. by case_if. Qed.

Lemma utf16_encode_cons cp cps :
  utf16_encode (cp :: cps) = UTF16EncodeCodePoint cp ++ utf16_encode cps.
Proof. done. Qed.

Lemma utf16_encode_app cps1 cps2 :
  utf16_encode (cps1 ++ cps2) = utf16_encode cps1 ++ utf16_encode cps2.
Proof. unfold utf16_encode. by rewrite map_app, concat_app. Qed.

Lemma utf16_encode_wf cps : wf_code_points cps -> wf_string (utf16_encode cps).
Proof.
  induction 1 as [|cp cps Hcp _ IH]; [constructor|].
  rewrite utf16_encode_cons. apply wf_string_app. split; [by apply encode_wf|done].
Qed.

Lemma utf16_encode_nil_inv cps : utf16_encode cps = [] -> cps = [].
Proof.
  destruct cps as [|cp cps]; [done|]. rewrite utf16_encode_cons.
  intros H. apply app_eq_nil in H as [H _]. by apply encode_nonempty in H.
Qed.

(** [fromCodePoint] returns exactly when every argument is a code point,
    and then returns their UTF-16 encoding. *)
Lemma fromCodePoint_Ok cps :
  wf_code_points cps -> fromCodePoint cps = Ok (utf16_encode cps).
Proof.
  induction 1 as [|cp cps Hcp _ IH]; [done|]. simpl.
  unfold code_point_ok. rewrite (proj2 (andb_true_iff _ _)) by lia.
  by rewrite IH.
Qed.

Lemma fromCodePoint_Ok_inv cps s :
  fromCodePoint cps = Ok s -> wf_code_points cps /\ s = utf16_encode cps.
Proof.
  revert s. induction cps as [|cp cps IH]; intros s; simpl.
  - intros [= <-]. split; [constructor|done].
  - unfold code_point_ok. case_if; [|done].
    destruct (fromCodePoint cps) as [r|e]; simpl; [|done].
    intros [= <-]. destruct (IH r eq_refl) as [Hwf ->].
    split; [constructor; [lia|done]|done].
Qed.

Lemma fromCodePoint_Err cps e :
  fromCodePoint cps = Err e -> e = RangeError "Invalid code point" /\ ~ wf_code_points cps.
Proof.
  intros H. split.
  - induction cps as [|cp cps IH]; simpl in H; [done|].
    destruct (code_point_ok cp); [|congruence].
    destruct (fromCodePoint cps); simpl in H; [done|]. apply IH. congruence.
  - intros Hwf. rewrite (fromCodePoint_Ok _ Hwf) in H. done.
Qed.

Lemma codePointAt_single u : codePointAt [u] 0 = Some u.
Proof.
  unfold codePointAt, CodePointAt. simpl. by destruct (is_leading_surrogate u).
Qed.

Lemma js_index_nat s (i : nat) : js_index s (Z.of_nat i) = (fun u => [u]) <$> s !! i.
Proof.
  unfold js_index. rewrite bool_decide_eq_true_2 by lia. by rewrite Nat2Z.id.
Qed.

Lemma js_index_neg s i : i < 0 -> js_index s i = None.
Proof. intros H. unfold js_index. by rewrite bool_decide_eq_false_2 by lia. Qed.

Lemma js_index_ge s i : Z.of_nat (length s) <= i -> js_index s i = None.
Proof.
  intros H. unfold js_index. case_bool_decide; [|done].
  by rewrite lookup_ge_None_2 by lia.
Qed.

Lemma js_index_Some s i c :
  js_index s i = Some c <-> 0 <= i /\ exists u, s !! Z.to_nat i = Some u /\ c = [u].
Proof.
  unfold js_index. case_bool_decide as Hi.
  - destruct (s !! Z.to_nat i) as [u|]; simpl; split.
    + intros [= <-]. eauto.
    + intros (_ & u' & [= ->] & ->). done.
    + done.
    + intros (_ & u' & ? & _). done.
  - split; [done|]. intros [? _]. lia.
Qed.

#[export] Hint Resolve wf_string_nil wf_string_drop wf_string_code_points
  utf16_encode_wf encode_wf : saslprep.
#[export] Hint Rewrite utf16_encode_cons utf16_encode_app : saslprep.
