(* ===== verification/CodePoints.v ===== *)
(** * CodePoints: the helpers and [toCodePoints] of index.ts

    [getCodePoint], [first] and [last] are lines 4-6; [toCodePoints] is
    lines 13-34.  The [for] loop is modelled by its body
    ([toCodePoints_body], one iteration with both of its exits) and by the
    iteration of the body while [i < size] ([toCodePoints_loop], on fuel).
    [decode] is the decoder as the specification words it, by recursion on
    the string; the theorems of this file relate the two and state what a
    decoded sequence satisfies. *)

From S2P Require Import Prelude JsString.

(** ** utils (lines 4-6) *)

(** The exception of a property access on [undefined] (the message is the
    engine's). *)
Definition undefined_codePointAt : js_error :=
  TypeError "Cannot read properties of undefined (reading 'codePointAt')".

(** [character.codePointAt(0)].  The argument is [None] when the caller
    passes [undefined], and the property access then throws. *)
Definition getCodePoint (character : option js_string) : result js_error (option Z) :=
  match character with
  | Some c => Ok (codePointAt c 0)
  | None => Err undefined_codePointAt
  end.

(** [x[0]], at a string. *)
Definition first (x : js_string) : option js_string := js_index x 0.

(** [x[x.length - 1]], at a string. *)
Definition last (x : js_string) : option js_string :=
  js_index x (Z.of_nat (length x) - 1).

(** ** toCodePoints (lines 13-34) *)

(** The variables the loop updates: the index [i] and the array
    [codepoints]. *)
Record loop_state : Type := LoopState {
  loop_i : nat;
  loop_codepoints : list Z;
}.

(** The value pushed for a surrogate pair (line 24). *)
Definition surrogate_pair_value (before next : Z) : Z :=
  (before - 0xd800) * 0x400 + next - 0xdc00 + 0x10000.

(** One iteration of the loop at a state with [i < size], followed by the
    increment [i += 1] of the loop header (lines 18-30); [size > i + 1] is
    written [i + 1 < size].  [None] means that [charCodeAt] returned NaN,
    which [toCodePoints_body_progress] excludes. *)
Definition toCodePoints_body (input : js_string) (size : nat) (st : loop_state)
    : option loop_state :=
  let i := loop_i st in
  let codepoints := loop_codepoints st in
  before ← charCodeAt input i;
  if (before >=? 0xd800) && (before <=? 0xdbff) && bool_decide (i + 1 < size)%nat then
    next ← charCodeAt input (i + 1);
    if (next >=? 0xdc00) && (next <=? 0xdfff) then
      Some (LoopState (i + 1 + 1) (codepoints ++ [surrogate_pair_value before next]))
    else
      Some (LoopState (i + 1) (codepoints ++ [before]))
  else
    Some (LoopState (i + 1) (codepoints ++ [before])).

(** The loop: while [i < size] run the body.  [None] when the fuel runs
    out before the loop exits. *)
Fixpoint toCodePoints_loop (fuel : nat) (input : js_string) (size : nat)
    (st : loop_state) : option (list Z) :=
  if bool_decide (loop_i st < size)%nat then
    match fuel with
    | O => None
    | S fuel' =>
        st' ← toCodePoints_body input size st;
        toCodePoints_loop fuel' input size st'
    end
  else Some (loop_codepoints st).

(** [toCodePoints(input)].  The loop runs on [input.length] units of fuel,
    which [toCodePoints_loop_fuel] shows to be enough: the default is
    never taken. *)
Definition toCodePoints (input : js_string) : list Z :=
  let size := length input in
  default [] (toCodePoints_loop size input size (LoopState 0 [])).

(** ** The decoder of the specification *)

(** Scan left to right; a high surrogate followed by a low one gives one
    scalar value, any other unit is emitted unchanged. *)
Fixpoint decode (s : js_string) : list Z :=
  match s with
  | [] => []
  | u :: rest =>
      match rest with
      | v :: rest' =>
          if is_leading_surrogate u && is_trailing_surrogate v
          then UTF16SurrogatePairToCodePoint u v :: decode rest'
          else u :: decode rest
      | [] => [u]
      end
  end.

(** A sequence of code points in which no high surrogate is directly
    followed by a low surrogate: re-encoding and decoding it changes
    nothing. *)
Fixpoint well_paired (cps : list Z) : bool :=
  match cps with
  | [] => true
  | c :: rest =>
      match rest with
      | d :: _ => negb (is_leading_surrogate c && is_trailing_surrogate d) && well_paired rest
      | [] => true
      end
  end.

(** ** The tests and the arithmetic of the source *)

Lemma source_high_test before :
  (before >=? 0xd800) && (before <=? 0xdbff) = is_leading_surrogate before.
Proof. unfold is_leading_surrogate. by rewrite Z.geb_leb. Qed.

Lemma source_low_test next :
  (next >=? 0xdc00) && (next <=? 0xdfff) = is_trailing_surrogate next.
Proof. unfold is_trailing_surrogate. by rewrite Z.geb_leb. Qed.

Lemma surrogate_pair_value_spec before next :
  surrogate_pair_value before next = UTF16SurrogatePairToCodePoint before next.
Proof. unfold surrogate_pair_value, UTF16SurrogatePairToCodePoint. lia. Qed.

(** ** Unfolding [decode] *)

Lemma decode_nil : decode [] = [].
Proof. done. Qed.

Lemma decode_single u : decode [u] = [u].
Proof. done. Qed.

Lemma decode_pair u v rest :
  is_leading_surrogate u = true -> is_trailing_surrogate v = true ->
  decode (u :: v :: rest) = UTF16SurrogatePairToCodePoint u v :: decode rest.
Proof. intros Hu Hv. simpl. by rewrite Hu, Hv. Qed.

Lemma decode_unit u rest :
  is_leading_surrogate u && from_option is_trailing_surrogate false (head rest) = false ->
  decode (u :: rest) = u :: decode rest.
Proof. destruct rest as [|v rest]; simpl; [done|]. by intros ->. Qed.

Lemma decode_not_high u rest :
  is_leading_surrogate u = false -> decode (u :: rest) = u :: decode rest.
Proof. intros H. apply decode_unit. by rewrite H. Qed.

#[global] Arguments decode : simpl never.

(** ** The body in terms of the rest of the string *)

Section body.
Context (input : js_string).
Implicit Types (i : nat) (acc : list Z).

Lemma drop_cons_lookup i u rest :
  drop i input = u :: rest ->
  input !! i = Some u /\ input !! (i + 1)%nat = head rest /\
  (length input = i + 1 + length rest)%nat /\ drop (i + 1) input = rest.
Proof.
  intros H. split_and!.
  - by rewrite <- (Nat.add_0_r i), <- lookup_drop, H.
  - by rewrite <- lookup_drop, H, head_lookup.
  - apply (f_equal length) in H. rewrite length_drop in H. simpl in H.
    assert (i < length input)%nat; [|lia].
    destruct (decide (i < length input)%nat); [done|]. lia.
  - by rewrite <- drop_drop, H.
Qed.

(** At the end of the string, or before a unit that is not a low
    surrogate, or at a unit that is not a high surrogate, the body pushes
    the unit and advances by one. *)
Lemma toCodePoints_body_unit i acc u rest :
  drop i input = u :: rest ->
  is_leading_surrogate u && from_option is_trailing_surrogate false (head rest) = false ->
  toCodePoints_body input (length input) (LoopState i acc)
  = Some (LoopState (i + 1) (acc ++ [u])).
Proof.
  intros Hd Hu. destruct (drop_cons_lookup _ _ _ Hd) as (Hi & Hi1 & Hlen & _).
  unfold toCodePoints_body, charCodeAt. simpl. rewrite Hi. simpl.
  rewrite source_high_test. destruct (is_leading_surrogate u); [|done]. simpl.
  case_bool_decide as Hsize; [|done]. rewrite Hi1.
  destruct rest as [|v rest]; simpl in *; [lia|].
  by rewrite source_low_test, Hu.
Qed.

(** At a high surrogate followed by a low one, the body pushes the scalar
    value of the pair and advances by two. *)
Lemma toCodePoints_body_pair i acc u v rest :
  drop i input = u :: v :: rest ->
  is_leading_surrogate u = true -> is_trailing_surrogate v = true ->
  toCodePoints_body input (length input) (LoopState i acc)
  = Some (LoopState (i + 1 + 1) (acc ++ [UTF16SurrogatePairToCodePoint u v])).
Proof.
  intros Hd Hu Hv. destruct (drop_cons_lookup _ _ _ Hd) as (Hi & Hi1 & Hlen & _).
  unfold toCodePoints_body, charCodeAt. simpl. rewrite Hi. simpl.
  rewrite source_high_test, Hu. simpl in *.
  rewrite bool_decide_eq_true_2 by lia. rewrite Hi1. simpl.
  by rewrite source_low_test, Hv, surrogate_pair_value_spec.
Qed.

(** Every iteration below the end of the string: it pushes the first code
    point of the rest of the string and moves to the rest of that rest. *)
Lemma toCodePoints_body_drop i acc :
  (i < length input)%nat ->
  exists i' c,
    toCodePoints_body input (length input) (LoopState i acc)
    = Some (LoopState i' (acc ++ [c])) /\
    (i < i' <= i + 2)%nat /\ (i' <= length input)%nat /\
    decode (drop i input) = c :: decode (drop i' input).
Proof.
  intros Hi. destruct (drop i input) as [|u rest] eqn:Hd.
  { apply (f_equal length) in Hd. rewrite length_drop in Hd. simpl in Hd. lia. }
  destruct (drop_cons_lookup _ _ _ Hd) as (_ & _ & Hlen & Hd1).
  destruct (is_leading_surrogate u && from_option is_trailing_surrogate false (head rest))
    eqn:Hpair.
  - destruct rest as [|v rest]; simpl in Hpair; [by rewrite andb_false_r in Hpair|].
    apply andb_true_iff in Hpair as [Hu Hv]. simpl in Hlen.
    exists (i + 1 + 1)%nat, (UTF16SurrogatePairToCodePoint u v).
    rewrite (toCodePoints_body_pair _ _ _ _ _ Hd Hu Hv), decode_pair by done.
    rewrite <- drop_drop, Hd1. split_and!; [done|lia..|done].
  - exists (i + 1)%nat, u.
    rewrite (toCodePoints_body_unit _ _ _ _ Hd Hpair), decode_unit, Hd1 by done.
    split_and!; [done|lia..|done].
Qed.

(** The loop from index [i] with [acc] pushed so far appends the decoding
    of the rest of the string, on any fuel that covers the rest. *)
Lemma toCodePoints_loop_drop fuel i acc :
  (length input - i <= fuel)%nat ->
  toCodePoints_loop fuel input (length input) (LoopState i acc)
  = Some (acc ++ decode (drop i input)).
Proof.
  revert i acc. induction fuel as [|fuel IH]; intros i acc Hfuel; simpl;
    (case_bool_decide as Hi; simpl in Hi;
      [|by rewrite drop_ge, app_nil_r by lia]); [lia|].
  destruct (toCodePoints_body_drop i acc Hi) as (i' & c & -> & Hi' & _ & ->).
  rewrite option_bind_Some, IH by lia. by rewrite <- app_assoc.
Qed.

End body.

(** ** The loop computes the decoder *)

(** C1: [toCodePoints] computes the decoder of the specification: for every
    sequence of code units, the loop of index.ts returns exactly the sequence
    obtained by scanning left to right, joining a high surrogate with the
    low surrogate that follows it and copying every other unit. *)
Theorem toCodePoints_decode (input : js_string) :
  toCodePoints input = decode input.
Proof.
  unfold toCodePoints. rewrite toCodePoints_loop_drop by lia. by rewrite drop_0.
Qed.

(** ** Induction along [decode] *)

(** The cases of [decode]: the empty string, a surrogate pair followed by
    a string, a unit that starts no pair followed by a string. *)
Lemma decode_ind (P : js_string -> Prop) :
  P [] ->
  (forall u v rest,
     is_leading_surrogate u = true -> is_trailing_surrogate v = true ->
     P rest -> P (u :: v :: rest)) ->
  (forall u rest,
     is_leading_surrogate u && from_option is_trailing_surrogate false (head rest) = false ->
     P rest -> P (u :: rest)) ->
  forall s, P s.
Proof.
  intros Hnil Hpair Hunit s.
  assert (forall n s, (length s <= n)%nat -> P s) as H; [|by apply (H (length s))].
  clear s. induction n as [|n IH]; intros [|u rest] Hlen; simpl in Hlen; try done; [lia|].
  destruct (is_leading_surrogate u && from_option is_trailing_surrogate false (head rest))
    eqn:E.
  - destruct rest as [|v rest]; simpl in E; [by rewrite andb_false_r in E|].
    apply andb_true_iff in E as [Hu Hv]. apply Hpair; [done..|].
    apply IH. simpl in Hlen. lia.
  - apply Hunit; [done|]. apply IH. lia.
Qed.

(** The first element of a decoding. *)
Lemma head_decode u rest :
  head (decode (u :: rest))
  = Some (if is_leading_surrogate u && from_option is_trailing_surrogate false (head rest)
          then UTF16SurrogatePairToCodePoint u (default 0 (head rest)) else u).
Proof.
  destruct rest as [|v rest]; [by rewrite decode_single, andb_false_r|].
  cbn [head from_option default].
  destruct (is_leading_surrogate u && is_trailing_surrogate v) eqn:E.
  - apply andb_true_iff in E as [? ?]. by rewrite decode_pair.
  - by rewrite decode_unit.
Qed.

Lemma head_decode_not_trailing s :
  from_option is_trailing_surrogate false (head s) = false ->
  from_option is_trailing_surrogate false (head (decode s)) = false.
Proof.
  destruct s as [|u rest]; [done|]. rewrite head_decode. simpl. intros Hu.
  case_if; [|done]. apply andb_true_iff in E as [Hl Ht].
  destruct rest as [|v rest]; [done|]. simpl in *.
  pose proof (pair_range _ _ Hl Ht). unfold is_trailing_surrogate. lia.
Qed.

Lemma well_paired_cons c rest :
  well_paired (c :: rest)
  = negb (is_leading_surrogate c && from_option is_trailing_surrogate false (head rest))
    && well_paired rest.
Proof. destruct rest as [|d rest]; cbn; [by rewrite andb_false_r|done]. Qed.

Lemma decode_length s :
  (length (decode s) <= length s <= 2 * length (decode s))%nat.
Proof.
  induction s as [|u v rest Hu Hv IH|u rest Hu IH] using decode_ind.
  - simpl. lia.
  - rewrite decode_pair by done. simpl. lia.
  - rewrite decode_unit by done. simpl. lia.
Qed.

Lemma decode_range s : wf_string s -> wf_code_points (decode s).
Proof.
  induction s as [|u v rest Hu Hv IH|u rest Hu IH] using decode_ind; intros Hwf.
  - constructor.
  - rewrite decode_pair by done. apply wf_string_cons in Hwf as [_ Hwf].
    apply wf_string_cons in Hwf as [_ Hwf].
    constructor; [|by apply IH]. pose proof (pair_range _ _ Hu Hv). lia.
  - rewrite decode_unit by done. apply wf_string_cons in Hwf as [Hr Hwf].
    constructor; [lia|by apply IH].
Qed.

Lemma decode_well_paired s : well_paired (decode s) = true.
Proof.
  induction s as [|u v rest Hu Hv IH|u rest Hu IH] using decode_ind.
  - done.
  - rewrite decode_pair, well_paired_cons, IH by done.
    pose proof (pair_range _ _ Hu Hv).
    replace (is_leading_surrogate _) with false; [done|].
    unfold is_leading_surrogate. lia.
  - rewrite decode_unit, well_paired_cons, IH by done.
    rewrite andb_true_r, negb_true_iff.
    apply andb_false_iff in Hu as [Hu|Hu]; [by rewrite Hu|].
    by rewrite (head_decode_not_trailing _ Hu), andb_false_r.
Qed.

Lemma encode_decode s : wf_string s -> utf16_encode (decode s) = s.
Proof.
  induction s as [|u v rest Hu Hv IH|u rest Hu IH] using decode_ind; intros Hwf.
  - done.
  - rewrite decode_pair, utf16_encode_cons, encode_pair by done.
    apply wf_string_cons in Hwf as [_ Hwf]. apply wf_string_cons in Hwf as [_ Hwf].
    by rewrite IH.
  - rewrite decode_unit, utf16_encode_cons by done.
    apply wf_string_cons in Hwf as [Hr Hwf].
    rewrite encode_bmp by lia. by rewrite IH.
Qed.

(** A string in which no high surrogate is followed by a low one decodes
    to itself. *)
Lemma decode_well_paired_id s : well_paired s = true -> decode s = s.
Proof.
  induction s as [|u v rest Hu Hv IH|u rest Hu IH] using decode_ind; [done|..].
  - by rewrite well_paired_cons; simpl; rewrite Hu, Hv.
  - rewrite well_paired_cons, decode_unit by done.
    intros [_ Hr]%andb_true_iff. by rewrite IH.
Qed.

(** An encoding starts with a low surrogate exactly when its first code
    point is one. *)
Lemma head_utf16_encode_trailing cps :
  wf_code_points cps ->
  from_option is_trailing_surrogate false (head (utf16_encode cps))
  = from_option is_trailing_surrogate false (head cps).
Proof.
  intros [|c cps' Hc _]; [done|]. rewrite utf16_encode_cons.
  destruct (decide (c <= 0xFFFF)) as [Hbmp|Hsup]; [by rewrite encode_bmp|].
  destruct (encode_supplementary c) as (l & t & -> & Hl & _ & _); [lia|]. simpl.
  rewrite (surrogates_disjoint _ Hl). unfold is_trailing_surrogate. lia.
Qed.

(** Encoding code points and decoding the string joins the high
    surrogates that stand before a low one, as decoding the code points
    themselves does. *)
Lemma decode_utf16_encode cps :
  wf_code_points cps -> decode (utf16_encode cps) = decode cps.
Proof.
  induction cps as [|u v rest Hu Hv IH|u rest Hu IH] using decode_ind; intros Hwf.
  - done.
  - apply Forall_cons in Hwf as [_ [_ Hwf]%Forall_cons].
    rewrite !utf16_encode_cons, !encode_bmp
      by (unfold is_leading_surrogate, is_trailing_surrogate in *; lia).
    simpl app. by rewrite !decode_pair, IH.
  - apply Forall_cons in Hwf as [Hr Hwf]. rewrite utf16_encode_cons, (decode_unit u rest Hu).
    destruct (decide (u <= 0xFFFF)) as [Hbmp|Hsup].
    + rewrite encode_bmp by done. simpl app.
      by rewrite decode_unit, IH by (by rewrite ?head_utf16_encode_trailing).
    + destruct (encode_supplementary u) as (l & t & -> & Hl & Ht & <-); [lia|].
      simpl app. by rewrite decode_pair, IH.
Qed.

Lemma decode_encode cps :
  wf_code_points cps -> well_paired cps = true -> decode (utf16_encode cps) = cps.
Proof. intros Hwf Hwp. by rewrite decode_utf16_encode, decode_well_paired_id. Qed.

(** Decoding distributes over a concatenation that does not split a
    surrogate pair. *)
Lemma decode_app s1 s2 :
  from_option is_leading_surrogate false (list.last s1)
  && from_option is_trailing_surrogate false (head s2) = false ->
  decode (s1 ++ s2) = decode s1 ++ decode s2.
Proof.
  induction s1 as [|u v rest Hu Hv IH|u rest Hu IH] using decode_ind; intros Hcut.
  - done.
  - rewrite <- !app_comm_cons, !decode_pair by done. rewrite IH; [done|].
    by destruct rest.
  - rewrite <- app_comm_cons. destruct rest as [|w rest].
    + by rewrite decode_single, decode_unit.
    + rewrite !decode_unit by done. by rewrite IH.
Qed.

(** A string without high surrogates, an ASCII string for one, decodes
    to itself. *)
Lemma decode_no_leading s :
  Forall (fun u => is_leading_surrogate u = false) s -> decode s = s.
Proof.
  induction 1 as [|u s Hu _ IH]; [done|]. by rewrite decode_not_high, IH.
Qed.

#[export] Hint Resolve decode_range decode_well_paired : saslprep.

(** ** [toCodePoints] and the helpers: lemmas for the other files *)

Lemma toCodePoints_eq input : toCodePoints input = decode input.
Proof.
  unfold toCodePoints. rewrite toCodePoints_loop_drop by lia.
  by rewrite drop_0.
Qed.

Lemma toCodePoints_nil : toCodePoints [] = [].
Proof. done. Qed.

Lemma toCodePoints_nil_inv s : toCodePoints s = [] -> s = [].
Proof.
  rewrite toCodePoints_eq. intros H. pose proof (decode_length s) as Hl.
  rewrite H in Hl. simpl in Hl. destruct s; [done|simpl in Hl; lia].
Qed.

Lemma toCodePoints_wf s : wf_string s -> wf_code_points (toCodePoints s).
Proof. rewrite toCodePoints_eq. apply decode_range. Qed.

Lemma toCodePoints_encode s : wf_string s -> utf16_encode (toCodePoints s) = s.
Proof. rewrite toCodePoints_eq. apply encode_decode. Qed.

Lemma first_cons u s : first (u :: s) = Some [u].
Proof. done. Qed.

Lemma first_nil : first [] = None.
Proof. done. Qed.

Lemma last_nil : last [] = None.
Proof. done. Qed.

Lemma last_Some s u : list.last s = Some u -> last s = Some [u].
Proof.
  intros H. unfold last. rewrite last_lookup in H.
  assert (length s <> 0)%nat as Hlen by (by destruct s).
  replace (Z.of_nat (length s) - 1) with (Z.of_nat (Nat.pred (length s))) by lia.
  by rewrite js_index_nat, H.
Qed.

Lemma getCodePoint_unit u : getCodePoint (Some [u]) = Ok (Some u).
Proof. unfold getCodePoint. by rewrite codePointAt_single. Qed.

(** [codePointAt] reads the first code point of the rest of the string. *)
Lemma codePointAt_drop s (i : nat) : codePointAt s i = head (decode (drop i s)).
Proof.
  unfold codePointAt. case_bool_decide as Hi; [|by rewrite drop_ge by lia].
  destruct (drop i s) as [|u rest] eqn:Hd.
  { apply (f_equal length) in Hd. rewrite length_drop in Hd. simpl in Hd. lia. }
  destruct (drop_cons_lookup _ _ _ _ Hd) as (Hu & Hv & _).
  rewrite head_decode. unfold CodePointAt. rewrite Hu, Hv.
  destruct (is_leading_surrogate u); [|done]. simpl.
  destruct rest as [|v rest]; [done|]. simpl. by destruct (is_trailing_surrogate v).
Qed.


(** ** Theorems *)

(** C9: the loop terminates: on any fuel of at least [input.length]
    iterations it exits and returns the array that [toCodePoints] returns,
    so the result does not depend on the fuel. *)
Theorem toCodePoints_loop_fuel (input : js_string) (fuel : nat) :
  (length input <= fuel)%nat ->
  toCodePoints_loop fuel input (length input) (LoopState 0 []) = Some (toCodePoints input).
Proof.
  intros Hfuel. rewrite toCodePoints_loop_drop by lia.
  by rewrite drop_0, toCodePoints_eq.
Qed.

Lemma toCodePoints_loop_fuel_witness :
  toCodePoints_loop 7 [0x48; 0xD83D; 0xDE00; 0x69] 4 (LoopState 0 [])
  = Some [0x48; 0x1F600; 0x69].
Proof.
  exact (toCodePoints_loop_fuel [0x48; 0xD83D; 0xDE00; 0x69] 7 ltac:(simpl; lia)).
Defined.

(** C22: every iteration of the loop that starts at an index below
    [input.length] reads the string in range (no [charCodeAt] yields NaN),
    pushes exactly one value, and moves the index forward by one or two
    without passing the end of the string. *)
Theorem toCodePoints_body_progress (input : js_string) (st : loop_state) :
  (loop_i st < length input)%nat ->
  exists st' cp,
    toCodePoints_body input (length input) st = Some st' /\
    (loop_i st < loop_i st' <= loop_i st + 2)%nat /\
    (loop_i st' <= length input)%nat /\
    loop_codepoints st' = loop_codepoints st ++ [cp].
Proof.
  destruct st as [i acc]. simpl. intros Hi.
  destruct (toCodePoints_body_drop input i acc Hi) as (i' & c & -> & ? & ? & _).
  by eexists _, _.
Qed.

Lemma toCodePoints_body_progress_witness :
  exists st' cp,
    toCodePoints_body [0xD83D; 0xDE00; 0x69] 3 (LoopState 0 []) = Some st' /\
    (0 < loop_i st' <= 2)%nat /\ (loop_i st' <= 3)%nat /\
    loop_codepoints st' = [] ++ [cp].
Proof.
  exact (toCodePoints_body_progress [0xD83D; 0xDE00; 0x69] (LoopState 0 [])
           ltac:(simpl; lia)).
Defined.

(** C23: the values [toCodePoints] returns for a string are code points:
    each lies between 0 and 0x10FFFF, so the arithmetic of line 24 stays
    within the exact range of a JavaScript number and [String.fromCodePoint]
    accepts every element. *)
Theorem toCodePoints_range (input : js_string) :
  wf_string input -> wf_code_points (toCodePoints input).
Proof. rewrite toCodePoints_eq. apply decode_range. Qed.

Lemma toCodePoints_range_witness :
  wf_code_points (toCodePoints [0xDBFF; 0xDFFF; 0xFFFF; 0xD800]).
Proof.
  apply toCodePoints_range. apply wf_stringb_spec. reflexivity.
Defined.

(** C37: [toCodePoints] returns at most one value per code unit and at
    least one value per two code units. *)
Theorem toCodePoints_length (input : js_string) :
  (length (toCodePoints input) <= length input <= 2 * length (toCodePoints input))%nat.
Proof. rewrite toCodePoints_eq. apply decode_length. Qed.

(** C8: re-encoding what [toCodePoints] decoded gives the string back:
    [String.fromCodePoint.apply(null, toCodePoints(s))] does not throw and
    equals [s], lone surrogates included. *)
Theorem fromCodePoint_toCodePoints (s : js_string) :
  wf_string s -> fromCodePoint (toCodePoints s) = Ok s.
Proof.
  intros Hwf. rewrite fromCodePoint_Ok by (by apply toCodePoints_wf).
  by rewrite toCodePoints_encode.
Qed.

Lemma fromCodePoint_toCodePoints_witness :
  fromCodePoint (toCodePoints [0x61; 0xD83D; 0xDE00; 0xDC00; 0xD800])
  = Ok [0x61; 0xD83D; 0xDE00; 0xDC00; 0xD800].
Proof.
  apply fromCodePoint_toCodePoints. apply wf_stringb_spec. reflexivity.
Defined.

(** C21: decoding an encoded sequence of code points gives the sequence
    back, provided no high surrogate in it is directly followed by a low
    surrogate (two such neighbours would be read back as one scalar
    value). *)
Theorem toCodePoints_fromCodePoint (cps : list Z) :
  wf_code_points cps -> well_paired cps = true ->
  toCodePoints <$> fromCodePoint cps = Ok cps.
Proof.
  intros Hwf Hwp. rewrite fromCodePoint_Ok by done. simpl.
  unfold fmap, result_fmap. by rewrite toCodePoints_eq, decode_encode.
Qed.

Lemma toCodePoints_fromCodePoint_witness :
  toCodePoints <$> fromCodePoint [0x1F600; 0xDC00; 0xD800; 0x10FFFF; 0x20]
  = Ok [0x1F600; 0xDC00; 0xD800; 0x10FFFF; 0x20].
Proof.
  apply toCodePoints_fromCodePoint; [repeat constructor; lia|reflexivity].
Defined.

(** In the array [toCodePoints] returns, a high surrogate is never
    directly followed by a low surrogate: every pair present in the string
    has been joined. *)
Theorem toCodePoints_well_paired (input : js_string) :
  well_paired (toCodePoints input) = true.
Proof. rewrite toCodePoints_eq. apply decode_well_paired. Qed.

(** C31: [toCodePoints] and the built-in [codePointAt] agree: the code
    point [codePointAt] reads at an index is the first value
    [toCodePoints] returns for the string from that index on, and
    [undefined] exactly when the index is past the end. *)
Theorem toCodePoints_codePointAt (s : js_string) (i : nat) :
  codePointAt s i = head (toCodePoints (drop i s)).
Proof. rewrite toCodePoints_eq. apply codePointAt_drop. Qed.

(** C39: [toCodePoints] returns the code units themselves exactly when the
    string holds no high surrogate directly followed by a low surrogate;
    in particular on every string of the Basic Multilingual Plane. *)
Theorem toCodePoints_identity_iff (s : js_string) :
  toCodePoints s = s <-> well_paired s = true.
Proof.
  rewrite toCodePoints_eq. split; [|apply decode_well_paired_id].
  intros <-. apply decode_well_paired.
Qed.

(** [toCodePoints] is injective on strings: two sequences of 16-bit
    code units with the same code points are the same string. *)
Theorem toCodePoints_injective (s1 s2 : js_string) :
  wf_string s1 -> wf_string s2 -> toCodePoints s1 = toCodePoints s2 -> s1 = s2.
Proof.
  intros H1 H2 H. by rewrite <- (toCodePoints_encode s1), <- (toCodePoints_encode s2), H.
Qed.

(** Without the bound on the units the pair D800 DC00 and the single
    value 0x10000 decode alike; with it, equal decodings are equal
    strings. *)
Lemma toCodePoints_injective_witness :
  [0xD83D; 0xDE00; 0x69] = [0xD83D; 0xDE00; 0x69].
Proof.
  apply toCodePoints_injective; [apply wf_stringb_spec..|]; reflexivity.
Defined.

(** C16: decoding the string [String.fromCodePoint] builds from code
    points joins the high surrogates among them that stand directly
    before a low surrogate, and changes nothing else: the result is the
    decoding of the code points themselves, read as units. *)
Theorem toCodePoints_join (cps : list Z) :
  wf_code_points cps -> toCodePoints <$> fromCodePoint cps = Ok (decode cps).
Proof.
  intros Hwf. rewrite fromCodePoint_Ok by done.
  unfold fmap, result_fmap. by rewrite toCodePoints_eq, decode_utf16_encode.
Qed.

(** The surrogates D83D and DE00, passed as two code points, come back as
    the one code point U+1F600. *)
Lemma toCodePoints_join_witness :
  toCodePoints <$> fromCodePoint [0x61; 0xD83D; 0xDE00; 0x1F600]
  = Ok [0x61; 0x1F600; 0x1F600].
Proof. apply toCodePoints_join. repeat constructor; lia. Defined.
