(* ===== verification/Loop.v ===== *)
(** * Loop: the [for] loop of [toCodePoints] as a transition system

    [CodePoints] runs the loop on fuel.  Here the same body is the one
    rule of a step relation on [loop_state], the states the loop can be in
    are those reachable from [i = 0, codepoints = []], and the facts of the
    loop are proved by induction on the rules: the invariant that what has
    been pushed, followed by the decoding of what is left, is the decoding
    of the input; that a run from the initial state exits after exactly as
    many iterations as it pushes values; and that the fuel of the
    executable loop counts these iterations. *)

From S2P Require Import Prelude JsString CodePoints.

Section loop.
Context (input : js_string).
Implicit Types (st : loop_state) (i n : nat) (acc : list Z).

(** ** The transition system *)

(** The state before the first test of [i < size] (line 17). *)
Definition loop_init : loop_state := LoopState 0 [].

(** The loop condition [i < size]. *)
Definition loop_guard st : bool := bool_decide (loop_i st < length input)%nat.

(** One iteration: the guard holds and the body runs (lines 17-30). *)
Inductive loop_step : loop_state -> loop_state -> Prop :=
| loop_iteration st st' :
    loop_guard st = true ->
    toCodePoints_body input (length input) st = Some st' ->
    loop_step st st'.

(** [n] iterations in a row. *)
Inductive loop_steps : nat -> loop_state -> loop_state -> Prop :=
| loop_steps_O st : loop_steps 0 st st
| loop_steps_S n st st' st'' :
    loop_step st st' -> loop_steps n st' st'' -> loop_steps (S n) st st''.

(** The states of a run of [toCodePoints(input)]. *)
Inductive loop_reachable : loop_state -> Prop :=
| loop_reachable_init : loop_reachable loop_init
| loop_reachable_step st st' :
    loop_reachable st -> loop_step st st' -> loop_reachable st'.

(** What holds at every test of the loop condition: the index is within
    the string, the array followed by the decoding of the rest of the
    string is the decoding of the string, and the array has one element
    per iteration, each for one or two code units. *)
Definition loop_invariant st : Prop :=
  (loop_i st <= length input)%nat /\
  loop_codepoints st ++ decode (drop (loop_i st) input) = decode input /\
  (length (loop_codepoints st) <= loop_i st <= 2 * length (loop_codepoints st))%nat.

(** ** Lemmas *)

Lemma loop_guard_true st : loop_guard st = true <-> (loop_i st < length input)%nat.
Proof. apply bool_decide_eq_true. Qed.

Lemma loop_guard_false st : loop_guard st = false <-> (length input <= loop_i st)%nat.
Proof. unfold loop_guard. rewrite bool_decide_eq_false. lia. Qed.

(** The step relation is the graph of the body below the end of the
    string. *)
Lemma loop_step_inv st st' :
  loop_step st st' <->
  (loop_i st < length input)%nat /\ toCodePoints_body input (length input) st = Some st'.
Proof.
  split.
  - intros [? ? Hg Hb]. by apply loop_guard_true in Hg.
  - intros [Hg Hb]. by constructor; [apply loop_guard_true|].
Qed.

Lemma loop_step_deterministic st st1 st2 :
  loop_step st st1 -> loop_step st st2 -> st1 = st2.
Proof. intros [_ H1]%loop_step_inv [_ H2]%loop_step_inv. congruence. Qed.

(** A step in terms of the rest of the string. *)
Lemma loop_step_drop i acc :
  (i < length input)%nat ->
  exists i' c,
    loop_step (LoopState i acc) (LoopState i' (acc ++ [c])) /\
    (i < i' <= i + 2)%nat /\ (i' <= length input)%nat /\
    decode (drop i input) = c :: decode (drop i' input).
Proof.
  intros Hi. destruct (toCodePoints_body_drop input i acc Hi) as (i' & c & Hb & ?).
  exists i', c. split; [|done]. by apply loop_step_inv.
Qed.

Lemma loop_invariant_init : loop_invariant loop_init.
Proof. unfold loop_invariant. simpl. rewrite drop_0. split_and!; [lia|done|lia..]. Qed.

Lemma loop_invariant_step st st' :
  loop_invariant st -> loop_step st st' -> loop_invariant st'.
Proof.
  destruct st as [i acc]. intros (_ & Hd & Hn) Hs. simpl in *.
  pose proof Hs as [Hi _]%loop_step_inv. simpl in Hi.
  destruct (loop_step_drop i acc Hi) as (i' & c & Hs' & Hi' & Hle & Hc).
  rewrite (loop_step_deterministic _ _ _ Hs Hs'). unfold loop_invariant. simpl.
  rewrite length_app, <- app_assoc. simpl. rewrite <- Hc. split_and!; [done..|lia|lia].
Qed.

(** From any index, the loop exits after as many steps as the rest of the
    string has code points, with these pushed. *)
Lemma loop_steps_drop n i acc :
  (i <= length input)%nat -> (length input - i <= n)%nat ->
  loop_steps (length (decode (drop i input))) (LoopState i acc)
    (LoopState (length input) (acc ++ decode (drop i input))).
Proof.
  revert i acc. induction n as [|n IH]; intros i acc Hi Hn.
  - replace i with (length input) by lia. rewrite drop_all, app_nil_r. constructor.
  - destruct (decide (i = length input)) as [->|Hne].
    { rewrite drop_all, app_nil_r. constructor. }
    destruct (loop_step_drop i acc) as (i' & c & Hs & Hi' & Hle & ->); [lia|].
    simpl. econstructor; [exact Hs|].
    replace (acc ++ c :: decode (drop i' input))
      with ((acc ++ [c]) ++ decode (drop i' input)) by (by rewrite <- app_assoc).
    apply IH; lia.
Qed.

(** The executable loop on every fuel: it returns when the fuel covers
    the code points left to push, and [None] otherwise. *)
Lemma toCodePoints_loop_exact fuel i acc :
  toCodePoints_loop fuel input (length input) (LoopState i acc) =
  if bool_decide (length (decode (drop i input)) <= fuel)%nat
  then Some (acc ++ decode (drop i input)) else None.
Proof.
  revert i acc. induction fuel as [|fuel IH]; intros i acc; simpl;
    (case_bool_decide as Hi; simpl in Hi;
      [|by rewrite drop_ge, app_nil_r, bool_decide_eq_true_2 by (simpl; lia)]).
  - destruct (toCodePoints_body_drop input i acc Hi) as (i' & c & _ & _ & _ & ->).
    by rewrite bool_decide_eq_false_2 by (simpl; lia).
  - destruct (toCodePoints_body_drop input i acc Hi) as (i' & c & -> & _ & _ & ->).
    rewrite option_bind_Some, IH, <- app_assoc. simpl.
    by repeat case_bool_decide; try lia.
Qed.

(** ** Theorems *)

(** C7: the loop invariant: in every state the loop of [toCodePoints]
    reaches, the index is at most [input.length], the array pushed so far
    followed by the decoding of the units from the index on is the
    decoding of the whole input, and the array holds one value for each
    one or two units read. *)
Theorem loop_invariant_reachable st :
  loop_reachable st -> loop_invariant st.
Proof.
  induction 1 as [|st st' _ IH Hs]; [apply loop_invariant_init|].
  by apply (loop_invariant_step st).
Qed.

(** C11: the loop exits: from the initial state it makes exactly as many
    iterations as [toCodePoints] returns values, and then stands at
    [i = input.length], where the guard fails, with the array
    [toCodePoints] returns. *)
Theorem loop_terminates :
  loop_steps (length (toCodePoints input)) loop_init
    (LoopState (length input) (toCodePoints input)) /\
  loop_guard (LoopState (length input) (toCodePoints input)) = false.
Proof.
  split; [|apply loop_guard_false; simpl; lia].
  pose proof (loop_steps_drop (length input) 0 []) as H.
  rewrite drop_0, <- toCodePoints_eq in H. apply H; lia.
Qed.

(** C36: a state in which the loop has exited holds the result: a reachable
    state whose guard fails has [i = input.length] and the array that
    [toCodePoints] returns. *)
Theorem loop_exit_result st :
  loop_reachable st -> loop_guard st = false ->
  st = LoopState (length input) (toCodePoints input).
Proof.
  intros Hr. assert (loop_invariant st) as (Hi & Hd & _)
    by (induction Hr; eauto using loop_invariant_init, loop_invariant_step).
  intros Hg%loop_guard_false.
  destruct st as [i acc]. simpl in *. assert (i = length input) as -> by lia.
  rewrite drop_all, app_nil_r in Hd. by rewrite toCodePoints_eq, Hd.
Qed.

(** The fuel of the executable loop counts iterations: the loop
    returns the array of [toCodePoints] when the fuel is at least the
    number of values in that array, and runs out of fuel otherwise. *)
Theorem toCodePoints_loop_iterations (fuel : nat) :
  toCodePoints_loop fuel input (length input) loop_init =
  if bool_decide (length (toCodePoints input) <= fuel)%nat
  then Some (toCodePoints input) else None.
Proof.
  unfold loop_init. by rewrite toCodePoints_loop_exact, drop_0, app_nil_l, toCodePoints_eq.
Qed.

End loop.

(** ** Witnesses *)

(** "\u{1F600}i": after the first iteration the loop stands at index 2. *)
Lemma loop_reachable_example :
  loop_reachable [0xD83D; 0xDE00; 0x69] (LoopState 2 [0x1F600]).
Proof.
  apply (loop_reachable_step _ (loop_init)); [constructor|]. by constructor.
Defined.

Lemma loop_invariant_reachable_witness :
  loop_invariant [0xD83D; 0xDE00; 0x69] (LoopState 2 [0x1F600]).
Proof. exact (loop_invariant_reachable _ _ loop_reachable_example). Defined.

(** The unpaired high surrogate at the end of "i\uD83D" is pushed as it
    is, and the loop exits at index 2. *)
Lemma loop_exit_result_witness :
  LoopState 2 [0x69; 0xD83D] = LoopState 2 (toCodePoints [0x69; 0xD83D]).
Proof.
  refine (loop_exit_result [0x69; 0xD83D] (LoopState 2 [0x69; 0xD83D]) _ eq_refl).
  apply (loop_reachable_step _ (LoopState 1 [0x69])); [|by constructor].
  apply (loop_reachable_step _ loop_init); [constructor|]. by constructor.
Defined.
