(* ===== verification/Tables.v ===== *)
(** * Tables: the code point tables [saslprep] receives

    [saslprep] destructures its first argument into six tables and asks
    each only one thing: [table.get(codePoint)], a boolean (index.ts lines
    40-47 and the calls at lines 76, 78, 89, 101, 114, 118, 136, 139).  How
    a table is built and stored is not in the sources; [BitField] is the
    interface the program uses, and the instances below are three ways to
    provide it (a predicate, a finite set, a list of inclusive ranges).
    [tables_equiv] relates two records of tables that answer every [get]
    alike. *)

From stdpp Require Import gmap.
From S2P Require Import Prelude.

(** ** The interface *)

(** A table of code points: [get table c] is [table.get(c)]. *)
Class BitField (B : Type) : Type := get : B -> Z -> bool.
#[global] Hint Mode BitField ! : typeclass_instances.

(** The record [createMemoryCodePoints] returns, with the field names the
    source destructures (lines 40-47). *)
Record MemoryCodePoints (B : Type) : Type := {
  unassigned_code_points : B;
  commonly_mapped_to_nothing : B;
  non_ASCII_space_characters : B;
  prohibited_characters : B;
  bidirectional_r_al : B;
  bidirectional_l : B;
}.

Arguments unassigned_code_points {B} _.
Arguments commonly_mapped_to_nothing {B} _.
Arguments non_ASCII_space_characters {B} _.
Arguments prohibited_characters {B} _.
Arguments bidirectional_r_al {B} _.
Arguments bidirectional_l {B} _.

(** ** Instances *)

(** A table given by its characteristic function. *)
#[global] Instance pred_bitfield : BitField (Z -> bool) := fun f c => f c.

(** A table given by the finite set of its members. *)
#[global] Instance gset_bitfield : BitField (gset Z) := fun s c => bool_decide (c ∈ s).

(** A table given by inclusive ranges [(lo, hi)], the form in which
    RFC 3454 prints its tables. *)
Definition in_range (c : Z) (r : Z * Z) : bool := (r.1 <=? c) && (c <=? r.2).

#[global] Instance ranges_bitfield : BitField (list (Z * Z)) :=
  fun rs c => existsb (in_range c) rs.

(** The members of a list of ranges as a finite set. *)
Definition range_set (r : Z * Z) : gset Z :=
  list_to_set (seqZ r.1 (r.2 - r.1 + 1)).

Definition ranges_to_set (rs : list (Z * Z)) : gset Z :=
  ⋃ (range_set <$> rs).

(** ** Equivalence of tables *)

Section equiv.
Context {B : Type} `{BitField B}.

(** Two tables are equivalent when [get] cannot tell them apart. *)
Definition table_equiv (b1 b2 : B) : Prop := forall c, get b1 c = get b2 c.

Definition tables_equiv (t1 t2 : MemoryCodePoints B) : Prop :=
  table_equiv (unassigned_code_points t1) (unassigned_code_points t2) /\
  table_equiv (commonly_mapped_to_nothing t1) (commonly_mapped_to_nothing t2) /\
  table_equiv (non_ASCII_space_characters t1) (non_ASCII_space_characters t2) /\
  table_equiv (prohibited_characters t1) (prohibited_characters t2) /\
  table_equiv (bidirectional_r_al t1) (bidirectional_r_al t2) /\
  table_equiv (bidirectional_l t1) (bidirectional_l t2).

#[global] Instance table_equiv_equivalence : Equivalence table_equiv.
Proof.
  split.
  - by intros b c.
  - intros b1 b2 E c. by rewrite E.
  - intros b1 b2 b3 E1 E2 c. by rewrite E1, E2.
Qed.

#[global] Instance tables_equiv_equivalence : Equivalence tables_equiv.
Proof.
  split.
  - intros t. by repeat split.
  - intros t1 t2 (?&?&?&?&?&?). by repeat split.
  - intros t1 t2 t3 (?&?&?&?&?&?) (?&?&?&?&?&?).
    repeat split; by etrans.
Qed.

#[global] Instance get_proper : Proper (table_equiv ==> eq ==> eq) get.
Proof. intros b1 b2 E c ? <-. apply E. Qed.

End equiv.

(** ** The instances agree *)

Lemma get_pred (f : Z -> bool) c : get f c = f c.
Proof. done. Qed.

Lemma get_gset (s : gset Z) c : get s c = true <-> c ∈ s.
Proof. unfold get, gset_bitfield. apply bool_decide_eq_true. Qed.

Lemma in_range_spec c r : in_range c r = true <-> r.1 <= c <= r.2.
Proof. unfold in_range. lia. Qed.

Lemma get_ranges (rs : list (Z * Z)) c :
  get rs c = true <-> exists r, r ∈ rs /\ r.1 <= c <= r.2.
Proof.
  unfold get, ranges_bitfield. rewrite some_true.
  by setoid_rewrite in_range_spec.
Qed.

Lemma elem_of_range_set c r : c ∈ range_set r <-> r.1 <= c <= r.2.
Proof.
  unfold range_set. rewrite elem_of_list_to_set, elem_of_seqZ. lia.
Qed.

Lemma elem_of_ranges_to_set c rs :
  c ∈ ranges_to_set rs <-> exists r, r ∈ rs /\ r.1 <= c <= r.2.
Proof.
  unfold ranges_to_set. rewrite elem_of_union_list. split.
  - intros (X & HX & Hc). apply list_elem_of_fmap in HX as (r & -> & Hr).
    exists r. split; [done|]. by apply elem_of_range_set.
  - intros (r & Hr & Hc). exists (range_set r). split.
    + apply list_elem_of_fmap. eauto.
    + by apply elem_of_range_set.
Qed.

(** A list of ranges and the set of its members are the same table. *)
Lemma get_ranges_to_set (rs : list (Z * Z)) c :
  get (ranges_to_set rs) c = get rs c.
Proof.
  apply eq_true_iff_eq. by rewrite get_gset, get_ranges, elem_of_ranges_to_set.
Qed.
