(* ===== verification/Normalize.v ===== *)
(** * Normalize: the interface of [String.prototype.normalize('NFKC')]

    [saslprep] calls the built-in at line 83 and nothing in the sources
    implements it.  [Normalizer] is the operation; [NormalizerLaws] are the
    facts of Unicode normalisation (UAX 15) that the theorems on [saslprep]
    use, each named where it is needed.  Two instances make the model run:
    the identity, which is NFKC on strings that are already normalised, and
    [table_nfkc], which replaces the code units listed in a finite table of
    compatibility mappings and fixes every other unit. *)

From S2P Require Import Prelude JsString.

(** ** The interface *)

(** [normalize_NFKC s] is [s.normalize('NFKC')]. *)
Class Normalizer : Type := normalize_NFKC : js_string -> js_string.

(** What the theorems assume of the built-in. *)
Class NormalizerLaws `{Normalizer} : Prop := {
  (** the result is a string *)
  nfkc_wf s : wf_string s -> wf_string (normalize_NFKC s);
  (** normalising is idempotent *)
  nfkc_idem s : normalize_NFKC (normalize_NFKC s) = normalize_NFKC s;
  (** no character is deleted or created from nothing *)
  nfkc_nil_iff s : normalize_NFKC s = [] <-> s = [];
  (** ASCII is in normal form *)
  nfkc_ascii s : Forall (fun u => 0 <= u < 0x80) s -> normalize_NFKC s = s;
}.

(** ** The identity *)

Definition identity_normalizer : Normalizer := fun s => s.

Lemma identity_normalizer_laws : @NormalizerLaws identity_normalizer.
Proof. by split. Qed.

(** ** A finite table of compatibility mappings *)

(** The replacement of the code unit [u]: the string the table gives for
    it, or [u] itself. *)
Fixpoint compat_map (m : list (Z * js_string)) (u : Z) : js_string :=
  match m with
  | [] => [u]
  | (k, r) :: m' => if bool_decide (k = u) then r else compat_map m' u
  end.

Definition table_nfkc (m : list (Z * js_string)) : Normalizer :=
  fun s => concat (map (compat_map m) s).

(** A table is usable when every key is outside ASCII and every
    replacement is a non-empty string none of whose units is a key. *)
Definition compat_entry_ok (m : list (Z * js_string)) (e : Z * js_string) : Prop :=
  ~ (0 <= e.1 < 0x80) /\ e.2 <> [] /\ wf_string e.2 /\
  Forall (fun u => compat_map m u = [u]) e.2.

Definition compat_table_ok (m : list (Z * js_string)) : Prop :=
  Forall (compat_entry_ok m) m.

Section table.
Context (m : list (Z * js_string)).

Lemma compat_map_cases u :
  compat_map m u = [u] \/ exists e, e ∈ m /\ e.1 = u /\ compat_map m u = e.2.
Proof.
  induction m as [|[k r] m' IH]; simpl; [by left|].
  case_bool_decide as Hk.
  - right. exists (k, r). split; [constructor|done].
  - destruct IH as [IH|(e & He & Hu & IH)]; [by left|].
    right. exists e. split; [by constructor|done].
Qed.

Lemma table_nfkc_cons u s :
  @normalize_NFKC (table_nfkc m) (u :: s)
  = compat_map m u ++ @normalize_NFKC (table_nfkc m) s.
Proof. done. Qed.

Lemma table_nfkc_app s1 s2 :
  @normalize_NFKC (table_nfkc m) (s1 ++ s2)
  = @normalize_NFKC (table_nfkc m) s1 ++ @normalize_NFKC (table_nfkc m) s2.
Proof. unfold normalize_NFKC, table_nfkc. by rewrite map_app, concat_app. Qed.

Lemma table_nfkc_fixed s :
  Forall (fun u => compat_map m u = [u]) s -> @normalize_NFKC (table_nfkc m) s = s.
Proof.
  induction 1 as [|u s Hu _ IH]; [done|].
  by rewrite table_nfkc_cons, Hu, IH.
Qed.

Context (Hok : compat_table_ok m).

Lemma compat_map_ok u :
  compat_map m u = [u] \/
  (~ (0 <= u < 0x80) /\ compat_map m u <> [] /\ wf_string (compat_map m u) /\
   Forall (fun v => compat_map m v = [v]) (compat_map m u)).
Proof.
  destruct (compat_map_cases u) as [?|(e & He & <- & ->)]; [by left|right].
  exact (proj1 (Forall_forall _ _) Hok e He).
Qed.

Lemma table_nfkc_laws : @NormalizerLaws (table_nfkc m).
Proof.
  split.
  - induction s as [|u s IH]; intros Hwf; [constructor|].
    apply wf_string_cons in Hwf as [Hu Hwf]. rewrite table_nfkc_cons.
    apply wf_string_app. split; [|by apply IH].
    destruct (compat_map_ok u) as [->|(_ & _ & ? & _)]; [|done].
    by apply wf_string_single.
  - induction s as [|u s IH]; [done|].
    rewrite table_nfkc_cons, table_nfkc_app, IH. f_equal.
    destruct (compat_map_ok u) as [Hu|(_ & _ & _ & Hfix)].
    + rewrite Hu. by rewrite table_nfkc_cons, Hu.
    + by apply table_nfkc_fixed.
  - intros s. split; [|by intros ->]. destruct s as [|u s]; [done|].
    rewrite table_nfkc_cons. intros Hnil. apply app_eq_nil in Hnil as [Hu _].
    by destruct (compat_map_ok u) as [Hu'|(_ & Hne & _)]; [rewrite Hu' in Hu|].
  - intros s Hs. apply table_nfkc_fixed. eapply Forall_impl; [exact Hs|].
    intros u Hu. simpl in Hu. by destruct (compat_map_ok u) as [?|(? & _)].
Qed.

End table.

(** Checking a table by computation. *)
Definition compat_entry_okb (m : list (Z * js_string)) (e : Z * js_string) : bool :=
  negb ((0 <=? e.1) && (e.1 <? 0x80)) && negb (bool_decide (e.2 = [])) && wf_stringb e.2
  && forallb (fun u => bool_decide (compat_map m u = [u])) e.2.

Lemma compat_table_okb m : forallb (compat_entry_okb m) m = true -> compat_table_ok m.
Proof.
  rewrite forallb_forall. intros H. apply Forall_forall. intros e He.
  apply list_elem_of_In, H in He. unfold compat_entry_okb in He.
  apply andb_true_iff in He as [He Hfix]. apply andb_true_iff in He as [He Hwf].
  apply andb_true_iff in He as [Hk Hne]. apply negb_true_iff in Hk, Hne.
  apply bool_decide_eq_false in Hne. split_and!.
  - lia.
  - done.
  - by apply wf_stringb_spec.
  - apply Forall_forall. intros u Hu. rewrite forallb_forall in Hfix.
    apply list_elem_of_In, Hfix in Hu. by apply bool_decide_eq_true in Hu.
Qed.
