(* ===== verification/Rfc3454.v ===== *)
(** * Rfc3454: tables to run the model on

    The six tables [saslprep] receives are data of another package.  To
    evaluate the model on the examples of RFC 4013 this file writes them
    down as lists of inclusive ranges, after the appendices of RFC 3454
    that RFC 4013 section 2 names: B.1 (mapped to nothing), C.1.2
    (non-ASCII space), C.1.2, C.2.1, C.2.2 and C.3 to C.9 (prohibited) in
    full; of the long tables A.1 (unassigned), D.1 (RandALCat) and D.2
    (LCat) only the rows below.  The theorems of the development hold for
    any tables; these are used in examples and witnesses only. *)

From S2P Require Import Prelude JsString Tables Normalize.

(** ** RFC 3454, appendix B.1 *)
Definition table_B_1 : list (Z * Z) :=
  [(0x00AD, 0x00AD); (0x034F, 0x034F); (0x1806, 0x1806); (0x180B, 0x180D);
   (0x200B, 0x200D); (0x2060, 0x2060); (0xFE00, 0xFE0F); (0xFEFF, 0xFEFF)].

(** ** Appendix C.1.2 *)
Definition table_C_1_2 : list (Z * Z) :=
  [(0x00A0, 0x00A0); (0x1680, 0x1680); (0x2000, 0x200B); (0x202F, 0x202F);
   (0x205F, 0x205F); (0x3000, 0x3000)].

(** ** Appendices C.2.1, C.2.2, C.3 to C.9 *)
Definition table_C_2_1 : list (Z * Z) := [(0x0000, 0x001F); (0x007F, 0x007F)].

Definition table_C_2_2 : list (Z * Z) :=
  [(0x0080, 0x009F); (0x06DD, 0x06DD); (0x070F, 0x070F); (0x180E, 0x180E);
   (0x200C, 0x200D); (0x2028, 0x2029); (0x2060, 0x2063); (0x206A, 0x206F);
   (0xFEFF, 0xFEFF); (0xFFF9, 0xFFFC); (0x1D173, 0x1D17A)].

Definition table_C_3 : list (Z * Z) :=
  [(0xE000, 0xF8FF); (0xF0000, 0xFFFFD); (0x100000, 0x10FFFD)].

Definition table_C_4 : list (Z * Z) :=
  [(0xFDD0, 0xFDEF); (0xFFFE, 0xFFFF); (0x1FFFE, 0x1FFFF); (0x2FFFE, 0x2FFFF);
   (0x3FFFE, 0x3FFFF); (0x4FFFE, 0x4FFFF); (0x5FFFE, 0x5FFFF); (0x6FFFE, 0x6FFFF);
   (0x7FFFE, 0x7FFFF); (0x8FFFE, 0x8FFFF); (0x9FFFE, 0x9FFFF); (0xAFFFE, 0xAFFFF);
   (0xBFFFE, 0xBFFFF); (0xCFFFE, 0xCFFFF); (0xDFFFE, 0xDFFFF); (0xEFFFE, 0xEFFFF);
   (0xFFFFE, 0xFFFFF); (0x10FFFE, 0x10FFFF)].

Definition table_C_5 : list (Z * Z) := [(0xD800, 0xDFFF)].

Definition table_C_6 : list (Z * Z) := [(0xFFF9, 0xFFFD)].

Definition table_C_7 : list (Z * Z) := [(0x2FF0, 0x2FFB)].

Definition table_C_8 : list (Z * Z) :=
  [(0x0340, 0x0341); (0x200E, 0x200F); (0x202A, 0x202E); (0x206A, 0x206F)].

Definition table_C_9 : list (Z * Z) := [(0xE0001, 0xE0001); (0xE0020, 0xE007F)].

(** ** Rows of appendices A.1, D.1 and D.2 *)
Definition table_A_1_rows : list (Z * Z) :=
  [(0x0221, 0x0221); (0x0234, 0x024F); (0x02AE, 0x02AF); (0x0530, 0x0530);
   (0x10000, 0x102FF)].

Definition table_D_1_rows : list (Z * Z) :=
  [(0x05BE, 0x05BE); (0x05C0, 0x05C0); (0x05C3, 0x05C3); (0x05D0, 0x05EA);
   (0x05F0, 0x05F4); (0x061B, 0x061B); (0x061F, 0x061F); (0x0621, 0x063A);
   (0x0640, 0x064A)].

Definition table_D_2_rows : list (Z * Z) :=
  [(0x0041, 0x005A); (0x0061, 0x007A); (0x00AA, 0x00AA); (0x00B5, 0x00B5);
   (0x00BA, 0x00BA); (0x00C0, 0x00D6); (0x00D8, 0x00F6); (0x00F8, 0x0220);
   (0x2160, 0x2183)].

(** ** The tables of the SASLprep profile (RFC 4013, section 2) *)
Definition rfc_tables : MemoryCodePoints (list (Z * Z)) := {|
  unassigned_code_points := table_A_1_rows;
  commonly_mapped_to_nothing := table_B_1;
  non_ASCII_space_characters := table_C_1_2;
  prohibited_characters :=
    table_C_1_2 ++ table_C_2_1 ++ table_C_2_2 ++ table_C_3 ++ table_C_4 ++
    table_C_5 ++ table_C_6 ++ table_C_7 ++ table_C_8 ++ table_C_9;
  bidirectional_r_al := table_D_1_rows;
  bidirectional_l := table_D_2_rows;
|}.

(** ** Compatibility mappings of the examples *)

(** The NFKC forms of the characters in the examples of RFC 4013
    section 3: FEMININE ORDINAL INDICATOR, ROMAN NUMERAL NINE, and two
    ligatures. *)
Definition compat_rows : list (Z * js_string) :=
  [(0x00AA, [0x61]); (0x2168, [0x49; 0x58]); (0xFB01, [0x66; 0x69]);
   (0x2126, [0x03A9])].

Definition rfc_normalizer : Normalizer := table_nfkc compat_rows.

Lemma compat_rows_ok : compat_table_ok compat_rows.
Proof. apply compat_table_okb. reflexivity. Qed.

Lemma rfc_normalizer_laws : @NormalizerLaws rfc_normalizer.
Proof. apply table_nfkc_laws, compat_rows_ok. Qed.

(** ** Facts about the tables, by computation *)

(** Every RandALCat row is in the Basic Multilingual Plane and holds no
    surrogate. *)
Lemma rfc_r_al_bmp c :
  get (bidirectional_r_al rfc_tables) c = true -> 0 <= c < 0xD800.
Proof.
  intros H. apply get_ranges in H as (r & Hr & Hc).
  simpl in Hr. unfold table_D_1_rows in Hr.
  repeat (apply elem_of_cons in Hr as [->|Hr]; [simpl in Hc; lia|]).
  by apply elem_of_nil in Hr.
Qed.

(** Every non-ASCII space is prohibited (C.1.2 is part of both). *)
Lemma rfc_space_prohibited c :
  get (non_ASCII_space_characters rfc_tables) c = true ->
  get (prohibited_characters rfc_tables) c = true.
Proof.
  intros H. unfold get, ranges_bitfield in *.
  cbn [prohibited_characters non_ASCII_space_characters rfc_tables] in *.
  by rewrite existsb_app, H.
Qed.
