(* ===== verification/SaslPrep.v ===== *)
(** * SaslPrep: the function [saslprep] of index.ts (lines 39-151)

    Every [const] of the source is a definition here, with the name it has
    there: [mapped_input], [normalized_input], [normalized_map] (inlined as
    [toCodePoints normalized_input]), [hasProhibited], [hasUnassigned],
    [hasBidiRAL], [hasBidiL], [isFirstBidiRAL], [isLastBidiRAL].  A
    [throw] is a result [Err e], where [e] carries the constructor and the
    message of the source; the statements run in the order of the source,
    so the first failing check decides the error.  The section is
    parametric in the representation of the tables and in the normaliser. *)

From stdpp Require Import sets.
From S2P Require Import Prelude JsString CodePoints Tables Normalize Rfc3454.

(** ** Messages (lines 66, 94, 106, 125, 145) *)

Definition msg_expected_string : string := "Expected string.".

Definition msg_prohibited : string :=
  "Prohibited character, see https://tools.ietf.org/html/rfc4013#section-2.3".

Definition msg_unassigned : string :=
  "Unassigned code point, see https://tools.ietf.org/html/rfc4013#section-2.5".

Definition msg_bidi_mixed : string :=
  "String must not contain RandALCat and LCat at the same time, see https://tools.ietf.org/html/rfc3454#section-6".

Definition msg_bidi_edges : string :=
  "Bidirectional RandALCat character must be the first and the last character of the string, see https://tools.ietf.org/html/rfc3454#section-6".

(** ** Options (line 49) *)

(** [{ allowUnassigned?: boolean }]: the field may be absent. *)
Record Options : Type := { allowUnassigned : option bool }.

(** The default value [{}] of the parameter. *)
Definition default_opts : Options := {| allowUnassigned := None |}.

#[global] Instance Options_eq_dec : EqDecision Options.
Proof. solve_decision. Defined.

Section saslprep.
Context {B : Type} {BF : BitField B} {NF : Normalizer}.
Implicit Types (tables : MemoryCodePoints B) (input : js_string) (opts : Options).

(** ** 1. Map (lines 74-78) *)

(** The two tables of the map step under the names lines 57 and 63 give
    them. *)
Definition mapping2space tables : B := non_ASCII_space_characters tables.

Definition mapping2nothing tables : B := commonly_mapped_to_nothing tables.

(** 1.1 (line 76): a code point of the non-ASCII space table becomes
    U+0020. *)
Definition map_to_space tables (character : Z) : Z :=
  if get (mapping2space tables) character then 0x20 else character.

(** 1.2 (line 78): a code point of the mapped-to-nothing table is
    dropped. *)
Definition keep_character tables (character : Z) : bool :=
  negb (get (mapping2nothing tables) character).

Definition mapped_input tables input : list Z :=
  List.filter (keep_character tables) (map (map_to_space tables) (toCodePoints input)).

(** ** 2. Normalize (lines 81-85) *)

Definition normalized_input tables input : result js_error js_string :=
  s ← fromCodePoint (mapped_input tables input); Ok (normalize_NFKC s).

(** ** 3. Prohibit and unassigned (lines 88-109) *)

Definition hasProhibited tables (normalized_map : list Z) : bool :=
  existsb (get (prohibited_characters tables)) normalized_map.

Definition hasUnassigned tables (normalized_map : list Z) : bool :=
  existsb (get (unassigned_code_points tables)) normalized_map.

(** [opts.allowUnassigned !== true] *)
Definition checks_unassigned opts : bool :=
  negb (bool_decide (allowUnassigned opts = Some true)).

(** ** 4. Bidi (lines 113-148) *)

Definition hasBidiRAL tables (normalized_map : list Z) : bool :=
  existsb (get (bidirectional_r_al tables)) normalized_map.

Definition hasBidiL tables (normalized_map : list Z) : bool :=
  existsb (get (bidirectional_l tables)) normalized_map.

(** [table.get(x!)] where [x] may be [undefined]: no table holds it. *)
Definition get_maybe (table : B) (x : option Z) : bool :=
  from_option (get table) false x.

Definition isFirstBidiRAL tables (normalized_input : js_string) : result js_error bool :=
  c ← getCodePoint (first normalized_input);
  Ok (get_maybe (bidirectional_r_al tables) c).

Definition isLastBidiRAL tables (normalized_input : js_string) : result js_error bool :=
  c ← getCodePoint (last normalized_input);
  Ok (get_maybe (bidirectional_r_al tables) c).

(** Lines 85-150: the checks on the normalised string, in order. *)
Definition saslprep_checks tables opts (normalized_input : js_string)
    : result js_error js_string :=
  let normalized_map := toCodePoints normalized_input in
  if hasProhibited tables normalized_map then Err (Error msg_prohibited) else
  if checks_unassigned opts && hasUnassigned tables normalized_map
  then Err (Error msg_unassigned) else
  let hasBidiRAL := hasBidiRAL tables normalized_map in
  let hasBidiL := hasBidiL tables normalized_map in
  if hasBidiRAL && hasBidiL then Err (Error msg_bidi_mixed) else
  isFirstBidiRAL ← isFirstBidiRAL tables normalized_input;
  isLastBidiRAL ← isLastBidiRAL tables normalized_input;
  if hasBidiRAL && negb (isFirstBidiRAL && isLastBidiRAL)
  then Err (Error msg_bidi_edges)
  else Ok normalized_input.

(** ** saslprep (lines 39-151) *)

(** [saslprep(tables, input, opts)]; [opts] is [None] when the caller
    leaves the parameter out. *)
Definition saslprep tables (input : js_value) (opts : option Options)
    : result js_error js_string :=
  let opts := default default_opts opts in
  if negb (String.eqb (js_typeof input) "string") then Err (TypeError msg_expected_string) else
  let input := js_string_value input in
  if bool_decide (length input = 0%nat) then Ok [] else
  normalized_input ← normalized_input tables input;
  saslprep_checks tables opts normalized_input.

(** ** Lemmas: the map step *)

Lemma map_to_space_cases tables c :
  (get (non_ASCII_space_characters tables) c = true /\ map_to_space tables c = 0x20) \/
  (get (non_ASCII_space_characters tables) c = false /\ map_to_space tables c = c).
Proof. unfold map_to_space, mapping2space. destruct (get _ c); auto. Qed.

Lemma elem_of_mapped_input tables input c :
  c ∈ mapped_input tables input <->
  get (commonly_mapped_to_nothing tables) c = false /\
  exists c0, c0 ∈ toCodePoints input /\ c = map_to_space tables c0.
Proof.
  unfold mapped_input. rewrite filter_elem, elem_of_map_iff.
  unfold keep_character, mapping2nothing. rewrite negb_true_iff. tauto.
Qed.

Lemma mapped_input_wf tables input :
  wf_string input -> wf_code_points (mapped_input tables input).
Proof.
  intros Hwf. apply Forall_forall. intros c Hc.
  apply elem_of_mapped_input in Hc as (_ & c0 & Hc0 & ->).
  pose proof (proj1 (Forall_forall _ _) (toCodePoints_wf _ Hwf) c0 Hc0) as Hr.
  simpl in Hr. destruct (map_to_space_cases tables c0) as [[_ ->]|[_ ->]]; lia.
Qed.

Lemma mapped_input_nil tables : mapped_input tables [] = [].
Proof. done. Qed.

(** The map step leaves a sequence alone when no element is in either
    table. *)
Lemma mapped_input_id tables input :
  (forall c, c ∈ toCodePoints input ->
     get (non_ASCII_space_characters tables) c = false /\
     get (commonly_mapped_to_nothing tables) c = false) ->
  mapped_input tables input = toCodePoints input.
Proof.
  intros H. unfold mapped_input. rewrite map_id_on.
  - apply filter_id. intros c Hc. unfold keep_character, mapping2nothing.
    by rewrite (proj2 (H c Hc)).
  - intros c Hc. unfold map_to_space, mapping2space. by rewrite (proj1 (H c Hc)).
Qed.

(** ** Lemmas: normalisation *)

(** The value of [normalized_input] when [String.fromCodePoint] does not
    throw. *)
Definition normal_form tables input : js_string :=
  normalize_NFKC (utf16_encode (mapped_input tables input)).

Lemma normalized_input_Ok tables input :
  wf_string input ->
  normalized_input tables input = Ok (normal_form tables input).
Proof.
  intros Hwf. unfold normalized_input.
  by rewrite fromCodePoint_Ok by (by apply mapped_input_wf).
Qed.

Lemma normalized_input_Ok_inv tables input n :
  normalized_input tables input = Ok n -> n = normal_form tables input.
Proof.
  unfold normalized_input. destruct (fromCodePoint _) as [s|e] eqn:E; [|done].
  apply fromCodePoint_Ok_inv in E as [_ ->]. by intros [= <-].
Qed.

Lemma normalized_input_Err tables input e :
  normalized_input tables input = Err e ->
  e = RangeError "Invalid code point" /\ ~ wf_string input.
Proof.
  unfold normalized_input. destruct (fromCodePoint _) as [s|e'] eqn:E; [done|].
  intros [= <-]. apply fromCodePoint_Err in E as [-> Hn].
  split; [done|]. intros Hwf. by apply Hn, mapped_input_wf.
Qed.

(** ** Lemmas: the first and the last character *)

(** The value [saslprep] tests for the first character: the table at the
    first code unit of the string. *)
Lemma isFirstBidiRAL_cons tables u s :
  isFirstBidiRAL tables (u :: s) = Ok (get (bidirectional_r_al tables) u).
Proof. unfold isFirstBidiRAL. by rewrite first_cons, getCodePoint_unit. Qed.

Lemma isLastBidiRAL_Some tables s u :
  list.last s = Some u ->
  isLastBidiRAL tables s = Ok (get (bidirectional_r_al tables) u).
Proof.
  intros H. unfold isLastBidiRAL. by rewrite (last_Some _ _ H), getCodePoint_unit.
Qed.

Lemma isLastBidiRAL_cons tables u s :
  isLastBidiRAL tables (u :: s)
  = Ok (from_option (get (bidirectional_r_al tables)) false (list.last (u :: s))).
Proof.
  destruct (list.last (u :: s)) as [w|] eqn:H; [by apply isLastBidiRAL_Some|].
  by apply last_None in H.
Qed.

Lemma isFirstBidiRAL_nil tables :
  isFirstBidiRAL tables [] = Err undefined_codePointAt.
Proof. done. Qed.

(** The edge test of line 143 on a non-empty string, as a function of the
    first and the last code unit. *)
Definition edges_RAL tables (n : js_string) : bool :=
  from_option (get (bidirectional_r_al tables)) false (head n)
  && from_option (get (bidirectional_r_al tables)) false (list.last n).

(** ** Lemmas: [saslprep] on a string *)

Lemma saslprep_string tables input (o : option Options) :
  saslprep tables (JsString input) o =
  if bool_decide (input = []) then Ok [] else
  normalized_input tables input ≫= saslprep_checks tables (default default_opts o).
Proof.
  unfold saslprep. simpl.
  destruct input; [done|]. by rewrite !bool_decide_eq_false_2.
Qed.

Lemma saslprep_non_string tables v (o : option Options) :
  js_typeof v <> "string" ->
  saslprep tables v o = Err (TypeError msg_expected_string).
Proof.
  intros H. unfold saslprep.
  destruct (String.eqb_spec (js_typeof v) "string"); [done|done].
Qed.

(** On a non-empty string the result is that of the checks on the normal
    form. *)
Lemma saslprep_wf tables input (o : option Options) :
  wf_string input -> input <> [] ->
  saslprep tables (JsString input) o
  = saslprep_checks tables (default default_opts o) (normal_form tables input).
Proof.
  intros Hwf Hne. rewrite saslprep_string, bool_decide_eq_false_2 by done.
  by rewrite normalized_input_Ok.
Qed.

(** ** Theorems: the checks of a non-empty string *)

(** The two theorems that read the body of [saslprep_checks]: they are
    proved from the definition, statement by statement.  The lemmas after
    them give the same decision list for the use of the other proofs. *)

Implicit Types (o : option Options).

(** C4: a non-empty input makes [saslprep] throw the TypeError of
    [undefined.codePointAt] exactly when the map step leaves no code
    point: the function then indexes the empty normal form. *)
Theorem saslprep_undefined {NL : NormalizerLaws} tables input o :
  wf_string input -> input <> [] ->
  saslprep tables (JsString input) o = Err undefined_codePointAt
  <-> mapped_input tables input = [].
Proof.
  intros Hwf Hne. rewrite saslprep_wf by done. unfold normal_form, saslprep_checks.
  destruct (normalize_NFKC _) as [|u s] eqn:En.
  - apply (proj1 (nfkc_nil_iff _)), utf16_encode_nil_inv in En.
    rewrite toCodePoints_nil. unfold hasProhibited, hasUnassigned, hasBidiRAL. simpl.
    by rewrite andb_false_r.
  - rewrite isFirstBidiRAL_cons, isLastBidiRAL_cons, !result_bind_Ok.
    split; [by repeat case_if|]. intros Hm.
    by rewrite Hm, (proj2 (nfkc_nil_iff [])) in En.
Qed.

(** C2: on a non-empty string [saslprep] decides in this order: a
    prohibited code point in the normal form, an unassigned one (unless
    [allowUnassigned] is [true]), RandALCat together with LCat, an empty
    normal form (the TypeError of [undefined.codePointAt]), RandALCat
    without a RandALCat first and last code unit; otherwise it returns the
    normal form. *)
Theorem saslprep_decision_list tables input o :
  wf_string input -> input <> [] ->
  let n := normal_form tables input in
  let opts := default default_opts o in
  saslprep tables (JsString input) o =
  if hasProhibited tables (toCodePoints n) then Err (Error msg_prohibited) else
  if checks_unassigned opts && hasUnassigned tables (toCodePoints n)
  then Err (Error msg_unassigned) else
  if hasBidiRAL tables (toCodePoints n) && hasBidiL tables (toCodePoints n)
  then Err (Error msg_bidi_mixed) else
  if bool_decide (n = []) then Err undefined_codePointAt else
  if hasBidiRAL tables (toCodePoints n) && negb (edges_RAL tables n)
  then Err (Error msg_bidi_edges) else Ok n.
Proof.
  intros Hwf Hne. simpl. rewrite saslprep_wf by done. unfold saslprep_checks.
  repeat (case_if; [done|]). destruct (normal_form tables input) as [|u s]; [done|].
  rewrite bool_decide_eq_false_2 by done.
  by rewrite isFirstBidiRAL_cons, result_bind_Ok, isLastBidiRAL_cons, result_bind_Ok.
Qed.

(** ** Lemmas: the checks, branch by branch *)

(** [saslprep_checks] as one decision list over the normalised string. *)
Lemma saslprep_checks_unfold tables opts n :
  saslprep_checks tables opts n =
  if hasProhibited tables (toCodePoints n) then Err (Error msg_prohibited) else
  if checks_unassigned opts && hasUnassigned tables (toCodePoints n)
  then Err (Error msg_unassigned) else
  if hasBidiRAL tables (toCodePoints n) && hasBidiL tables (toCodePoints n)
  then Err (Error msg_bidi_mixed) else
  if bool_decide (n = []) then Err undefined_codePointAt else
  if hasBidiRAL tables (toCodePoints n) && negb (edges_RAL tables n)
  then Err (Error msg_bidi_edges) else Ok n.
Proof.
  unfold saslprep_checks. repeat (case_if; [done|]).
  destruct n as [|u s]; [done|]. rewrite bool_decide_eq_false_2 by done.
  by rewrite isFirstBidiRAL_cons, result_bind_Ok, isLastBidiRAL_cons, result_bind_Ok.
Qed.

Lemma saslprep_checks_nil tables opts :
  saslprep_checks tables opts [] = Err undefined_codePointAt.
Proof.
  rewrite saslprep_checks_unfold, toCodePoints_nil.
  unfold hasProhibited, hasUnassigned, hasBidiRAL. simpl. by rewrite andb_false_r.
Qed.

(** The errors of the checks. *)
Lemma saslprep_checks_Err tables opts n e :
  saslprep_checks tables opts n = Err e ->
  e ∈ [Error msg_prohibited; Error msg_unassigned; Error msg_bidi_mixed;
       undefined_codePointAt; Error msg_bidi_edges].
Proof.
  rewrite saslprep_checks_unfold. repeat case_if; intros [= <-]; set_solver.
Qed.

End saslprep.

(** ** Theorems: the branches of [saslprep] *)

Section branches.
Context {B : Type} {BF : BitField B} {NF : Normalizer}.
Implicit Types (tables : MemoryCodePoints B) (input : js_string) (o : option Options).

(** [saslprep] returns the empty string for the empty string, whatever
    the tables and the options: no table is consulted. *)
Theorem saslprep_empty tables o :
  saslprep tables (JsString []) o = Ok [].
Proof. done. Qed.

(** C28: [saslprep] throws the TypeError [Expected string.] exactly when
    its argument is not a string. *)
Theorem saslprep_expected_string tables (v : js_value) o :
  saslprep tables v o = Err (TypeError msg_expected_string) <-> js_typeof v <> "string".
Proof.
  split; [|apply saslprep_non_string].
  destruct v as [| | | |input|]; try done. rewrite saslprep_string.
  case_bool_decide; [done|].
  destruct (normalized_input tables input) as [n|e] eqn:E.
  - rewrite result_bind_Ok. intros Hc. apply saslprep_checks_Err in Hc.
    set_solver.
  - apply normalized_input_Err in E as [-> _]. done.
Qed.

(** C24: on a non-empty string [saslprep] throws [Prohibited character]
    exactly when the normal form holds a code point of the prohibited
    table, whatever the other tables say. *)
Theorem saslprep_throws_prohibited tables input o :
  wf_string input -> input <> [] ->
  saslprep tables (JsString input) o = Err (Error msg_prohibited)
  <-> hasProhibited tables (toCodePoints (normal_form tables input)) = true.
Proof.
  intros Hwf Hne. rewrite saslprep_wf, saslprep_checks_unfold by done.
  repeat case_if; done.
Qed.

(** C26: on a non-empty string [saslprep] throws the mixed-direction error
    exactly when the normal form passes the prohibited and unassigned
    checks and holds both a RandALCat and an LCat code point. *)
Theorem saslprep_throws_bidi_mixed tables input o :
  wf_string input -> input <> [] ->
  let n := normal_form tables input in
  saslprep tables (JsString input) o = Err (Error msg_bidi_mixed)
  <-> hasProhibited tables (toCodePoints n) = false /\
      checks_unassigned (default default_opts o) && hasUnassigned tables (toCodePoints n) = false /\
      hasBidiRAL tables (toCodePoints n) = true /\
      hasBidiL tables (toCodePoints n) = true.
Proof.
  intros Hwf Hne. simpl. rewrite saslprep_wf, saslprep_checks_unfold by done.
  destruct (hasProhibited _ _), (checks_unassigned _ && _),
    (hasBidiRAL _ _), (hasBidiL _ _); simpl; repeat case_if; naive_solver.
Qed.

(** C27: on a non-empty string [saslprep] throws the edge-placement error
    exactly when the normal form passes the earlier checks, is not empty,
    holds a RandALCat code point, and its first or its last code unit is
    not in the RandALCat table. *)
Theorem saslprep_throws_bidi_edges tables input o :
  wf_string input -> input <> [] ->
  let n := normal_form tables input in
  saslprep tables (JsString input) o = Err (Error msg_bidi_edges)
  <-> hasProhibited tables (toCodePoints n) = false /\
      checks_unassigned (default default_opts o) && hasUnassigned tables (toCodePoints n) = false /\
      hasBidiL tables (toCodePoints n) = false /\
      n <> [] /\
      hasBidiRAL tables (toCodePoints n) = true /\
      edges_RAL tables n = false.
Proof.
  intros Hwf Hne. simpl. rewrite saslprep_wf, saslprep_checks_unfold by done.
  destruct (hasProhibited _ _), (checks_unassigned _ && _),
    (hasBidiRAL _ _), (hasBidiL _ _), (edges_RAL _ _); simpl;
    try case_bool_decide; naive_solver.
Qed.

(** [String.fromCodePoint] never throws inside [saslprep]: for a
    string argument no RangeError leaves the function. *)
Theorem saslprep_no_RangeError tables input o msg :
  wf_string input -> saslprep tables (JsString input) o <> Err (RangeError msg).
Proof.
  intros Hwf. destruct (decide (input = [])) as [->|Hne]; [done|].
  rewrite saslprep_wf by done. intros H. apply saslprep_checks_Err in H.
  set_solver.
Qed.

End branches.

(** ** Theorems: the map step *)

Section mapping.
Context {B : Type} {BF : BitField B} {NF : Normalizer}.
Implicit Types (tables : MemoryCodePoints B) (input : js_string).

(** What the two passes do to one code point. *)
Definition map_character tables (c : Z) : list Z :=
  if keep_character tables (map_to_space tables c) then [map_to_space tables c] else [].

Lemma map_to_space_idem tables c :
  map_to_space tables (map_to_space tables c) = map_to_space tables c.
Proof.
  destruct (map_to_space_cases tables c) as [[_ ->]|[Hs ->]].
  - unfold map_to_space, mapping2space. by destruct (get _ 0x20).
  - unfold map_to_space, mapping2space. by rewrite Hs.
Qed.

Lemma filter_map_bind tables (cps : list Z) :
  List.filter (keep_character tables) (map (map_to_space tables) cps)
  = cps ≫= map_character tables.
Proof.
  induction cps as [|c cps IH]; [done|]. simpl. rewrite IH.
  unfold map_character. by destruct (keep_character _ _).
Qed.

(** A code point that the map step produced is left alone by the map
    step. *)
Lemma map_character_fixed tables c c' :
  c' ∈ map_character tables c -> map_character tables c' = [c'].
Proof.
  unfold map_character. destruct (keep_character tables (map_to_space tables c)) eqn:Hk;
    [|by intros ?%elem_of_nil].
  intros ->%list_elem_of_singleton. by rewrite map_to_space_idem, Hk.
Qed.

(** [mapped_input] is the code points of the input mapped one by
    one: a code point of the non-ASCII space table becomes U+0020, and
    the result of that is dropped when the mapped-to-nothing table holds
    it; order is kept. *)
Theorem mapped_input_pointwise tables input :
  mapped_input tables input = toCodePoints input ≫= map_character tables.
Proof. apply filter_map_bind. Qed.

(** C32: no element of [mapped_input] is in the mapped-to-nothing table,
    and each is U+0020 or a code point of the input that is not in the
    non-ASCII space table. *)
Theorem mapped_input_elements tables input :
  Forall (fun c =>
    get (commonly_mapped_to_nothing tables) c = false /\
    (c = 0x20 \/
     (c ∈ toCodePoints input /\ get (non_ASCII_space_characters tables) c = false)))
    (mapped_input tables input).
Proof.
  apply Forall_forall. intros c Hc.
  apply elem_of_mapped_input in Hc as (Hn & c0 & Hc0 & ->). split; [done|].
  destruct (map_to_space_cases tables c0) as [[_ ->]|[Hs ->]]; auto.
Qed.

(** The map step is idempotent: mapping to space and dropping, applied
    to [mapped_input], changes nothing. *)
Theorem mapped_input_idempotent tables input :
  List.filter (keep_character tables)
    (map (map_to_space tables) (mapped_input tables input))
  = mapped_input tables input.
Proof.
  rewrite filter_map_bind. apply bind_fixed. intros c' Hc'.
  unfold mapped_input in Hc'. rewrite filter_map_bind in Hc'.
  apply list_elem_of_bind in Hc' as (c & Hc' & _).
  by apply (map_character_fixed tables c).
Qed.

End mapping.

(** ** Theorems: results and options *)

Section results.
Context {B : Type} {BF : BitField B} {NF : Normalizer}.
Implicit Types (tables : MemoryCodePoints B) (input : js_string) (o : option Options).

(** What a successful run of the checks says of the string. *)
Lemma saslprep_checks_Ok tables opts n y :
  saslprep_checks tables opts n = Ok y ->
  y = n /\ n <> [] /\
  hasProhibited tables (toCodePoints n) = false /\
  checks_unassigned opts && hasUnassigned tables (toCodePoints n) = false /\
  hasBidiRAL tables (toCodePoints n) && hasBidiL tables (toCodePoints n) = false /\
  (hasBidiRAL tables (toCodePoints n) = true -> edges_RAL tables n = true).
Proof.
  rewrite saslprep_checks_unfold. repeat case_if; try done. intros [= <-].
  apply bool_decide_eq_false in E2. split_and!; try done.
  intros Hr. rewrite Hr in E3. by apply negb_false_iff in E3.
Qed.

Lemma normal_form_wf {NL : NormalizerLaws} tables input :
  wf_string input -> wf_string (normal_form tables input).
Proof. intros Hwf. by apply nfkc_wf, utf16_encode_wf, mapped_input_wf. Qed.

(** C13: the values of [saslprep] have their types: for a string argument
    [mapped_input] is an array of code points, [String.fromCodePoint]
    and [normalize] give a string, [normalized_map] is an array of code
    points, and what [saslprep] returns is a string. *)
Theorem saslprep_type {NL : NormalizerLaws} tables input o :
  wf_string input ->
  wf_code_points (mapped_input tables input) /\
  (exists n, normalized_input tables input = Ok n /\ wf_string n /\
             wf_code_points (toCodePoints n)) /\
  (forall y, saslprep tables (JsString input) o = Ok y -> wf_string y).
Proof.
  intros Hwf. pose proof (normal_form_wf tables input Hwf) as Hn. split_and!.
  - by apply mapped_input_wf.
  - exists (normal_form tables input).
    by rewrite normalized_input_Ok; auto using toCodePoints_wf.
  - intros y. rewrite saslprep_string, normalized_input_Ok by done.
    case_bool_decide; [intros [= <-]; constructor|].
    rewrite result_bind_Ok, saslprep_checks_unfold. repeat case_if; by intros [= <-].
Qed.

(** C3: a string [saslprep] returns for a non-empty input is the normal
    form of the input, is not empty, holds no prohibited code point, no
    unassigned code point unless [allowUnassigned] is [true], not both
    RandALCat and LCat, and, when it holds RandALCat, its first and last
    code unit are RandALCat. *)
Theorem saslprep_output_safe tables input o y :
  wf_string input -> input <> [] ->
  saslprep tables (JsString input) o = Ok y ->
  y = normal_form tables input /\ y <> [] /\
  hasProhibited tables (toCodePoints y) = false /\
  (allowUnassigned (default default_opts o) <> Some true ->
   hasUnassigned tables (toCodePoints y) = false) /\
  hasBidiRAL tables (toCodePoints y) && hasBidiL tables (toCodePoints y) = false /\
  (hasBidiRAL tables (toCodePoints y) = true -> edges_RAL tables y = true).
Proof.
  intros Hwf Hne. rewrite saslprep_wf by done.
  intros (-> & Hn & Hp & Hu & Hb & He)%saslprep_checks_Ok. split_and!; try done.
  intros Ha. apply andb_false_iff in Hu as [Hu|Hu]; [|done].
  by apply negb_false_iff, bool_decide_eq_true in Hu.
Qed.

(** C25: on a non-empty string [saslprep] throws [Unassigned code point]
    exactly when the normal form holds no prohibited code point, holds an
    unassigned one, and [allowUnassigned] is not [true]. *)
Theorem saslprep_throws_unassigned tables input o :
  wf_string input -> input <> [] ->
  let n := normal_form tables input in
  saslprep tables (JsString input) o = Err (Error msg_unassigned)
  <-> hasProhibited tables (toCodePoints n) = false /\
      allowUnassigned (default default_opts o) <> Some true /\
      hasUnassigned tables (toCodePoints n) = true.
Proof.
  intros Hwf Hne. simpl. rewrite saslprep_wf, saslprep_checks_unfold by done.
  unfold checks_unassigned. case_bool_decide; simpl; repeat case_if; naive_solver.
Qed.

(** An absent options argument, an absent [allowUnassigned] and
    [allowUnassigned: false] all behave alike. *)
Theorem saslprep_allowUnassigned_default tables (v : js_value) :
  saslprep tables v None = saslprep tables v (Some {| allowUnassigned := None |}) /\
  saslprep tables v None = saslprep tables v (Some {| allowUnassigned := Some false |}).
Proof. done. Qed.

(** C34: [saslprep] returns the empty string for the empty string and for
    no other argument, whatever the tables and the options: an input of
    which nothing is left does not give the empty string. *)
Theorem saslprep_empty_iff tables v o :
  saslprep tables v o = Ok [] <-> v = JsString [].
Proof.
  split; [|by intros ->]. destruct v as [| | | |input|]; try done.
  rewrite saslprep_string. case_bool_decide as Hi; [by rewrite Hi|].
  destruct (normalized_input tables input) as [n|e]; [|done].
  rewrite result_bind_Ok. by intros (<- & ? & _)%saslprep_checks_Ok.
Qed.

(** [allowUnassigned: true] only removes the unassigned check. *)
Lemma saslprep_checks_allow tables opts n :
  saslprep_checks tables opts n <> Err (Error msg_unassigned) ->
  saslprep_checks tables {| allowUnassigned := Some true |} n = saslprep_checks tables opts n.
Proof.
  rewrite !saslprep_checks_unfold. unfold checks_unassigned at 2. simpl.
  destruct (hasProhibited _ _); [done|].
  destruct (checks_unassigned opts && hasUnassigned _ _); done.
Qed.

(** C38: when [saslprep] does not fail with [Unassigned code point], the
    option [allowUnassigned: true] changes nothing: same result, same
    error. *)
Theorem saslprep_allowUnassigned_true tables (v : js_value) o :
  saslprep tables v o <> Err (Error msg_unassigned) ->
  saslprep tables v (Some {| allowUnassigned := Some true |}) = saslprep tables v o.
Proof.
  destruct v as [| | | |input|]; try done. rewrite !saslprep_string.
  case_bool_decide; [done|].
  destruct (normalized_input tables input) as [n|e]; [|done].
  rewrite !result_bind_Ok. apply saslprep_checks_allow.
Qed.

(** [saslprep] returns its argument unchanged when the argument is in
    normal form and none of its code points is in the space, nothing,
    prohibited, unassigned or RandALCat table. *)
Theorem saslprep_passthrough tables input o :
  wf_string input -> normalize_NFKC input = input ->
  (forall c, c ∈ toCodePoints input ->
     get (non_ASCII_space_characters tables) c = false /\
     get (commonly_mapped_to_nothing tables) c = false /\
     get (prohibited_characters tables) c = false /\
     get (unassigned_code_points tables) c = false /\
     get (bidirectional_r_al tables) c = false) ->
  saslprep tables (JsString input) o = Ok input.
Proof.
  intros Hwf Hn Hc. destruct (decide (input = [])) as [->|Hne]; [done|].
  rewrite saslprep_wf, saslprep_checks_unfold by done.
  assert (normal_form tables input = input) as ->.
  { unfold normal_form. rewrite mapped_input_id by (intros c Hin; split; apply Hc, Hin).
    by rewrite toCodePoints_encode. }
  unfold hasProhibited, hasUnassigned, hasBidiRAL.
  rewrite !(proj2 (some_false _ _)) by (intros c Hin; apply Hc, Hin).
  by rewrite andb_false_r, bool_decide_eq_false_2.
Qed.

(** No code point of the sequence is in the space, nothing, prohibited,
    unassigned or RandALCat table. *)
Definition unlisted tables (cps : list Z) : bool :=
  forallb (fun c =>
    negb (get (non_ASCII_space_characters tables) c
          || get (commonly_mapped_to_nothing tables) c
          || get (prohibited_characters tables) c
          || get (unassigned_code_points tables) c
          || get (bidirectional_r_al tables) c)) cps.

Lemma unlisted_spec tables cps c :
  unlisted tables cps = true -> c ∈ cps ->
  get (non_ASCII_space_characters tables) c = false /\
  get (commonly_mapped_to_nothing tables) c = false /\
  get (prohibited_characters tables) c = false /\
  get (unassigned_code_points tables) c = false /\
  get (bidirectional_r_al tables) c = false.
Proof.
  unfold unlisted. rewrite forallb_forall. intros H Hc%list_elem_of_In.
  apply H, negb_true_iff in Hc. by repeat apply orb_false_iff in Hc as [Hc ?].
Qed.

(** C33: ASCII passes through: an ASCII string none of whose characters is
    in the space, nothing, prohibited, unassigned or RandALCat table is
    returned unchanged, whatever the normaliser and the LCat table. *)
Theorem saslprep_ascii {NL : NormalizerLaws} tables input o :
  Forall (fun u => 0 <= u < 0x80) input -> unlisted tables input = true ->
  saslprep tables (JsString input) o = Ok input.
Proof.
  intros Ha Hu.
  assert (toCodePoints input = input) as Hd.
  { rewrite toCodePoints_eq. apply decode_no_leading. eapply Forall_impl; [exact Ha|].
    intros u ?. unfold is_leading_surrogate. simpl in *. lia. }
  apply saslprep_passthrough; [|by apply nfkc_ascii|].
  - eapply Forall_impl; [exact Ha|]. intros u ?. simpl in *. lia.
  - rewrite Hd. intros c. by apply unlisted_spec.
Qed.

End results.

(** ** Witnesses: the branches at the tables of RFC 3454 *)

(** [saslprep] at the tables and the normaliser of [Rfc3454]. *)
Definition rfc_saslprep (input : js_string) (o : option Options)
    : result js_error js_string :=
  saslprep (NF := rfc_normalizer) rfc_tables (JsString input) o.

(** U+0627 U+0031: RandALCat first, a digit last (RFC 4013, example 7). *)
Lemma saslprep_decision_list_witness :
  rfc_saslprep [0x0627; 0x0031] None = Err (Error msg_bidi_edges).
Proof.
  exact (saslprep_decision_list (NF := rfc_normalizer) rfc_tables [0x0627; 0x0031] None
           ltac:(by apply wf_stringb_spec) ltac:(done)).
Defined.

(** U+0007 (RFC 4013, example 6). *)
Lemma saslprep_throws_prohibited_witness :
  rfc_saslprep [0x0007] None = Err (Error msg_prohibited).
Proof.
  apply (saslprep_throws_prohibited (NF := rfc_normalizer) rfc_tables [0x0007] None
           ltac:(by apply wf_stringb_spec) ltac:(done)).
  reflexivity.
Defined.

(** U+0221 is unassigned in Unicode 3.2. *)
Lemma saslprep_throws_unassigned_witness :
  rfc_saslprep [0x61; 0x0221] None = Err (Error msg_unassigned).
Proof.
  apply (saslprep_throws_unassigned (NF := rfc_normalizer) rfc_tables [0x61; 0x0221] None
           ltac:(by apply wf_stringb_spec) ltac:(done)).
  split_and!; [reflexivity|done|reflexivity].
Defined.

(** ALEF followed by a Latin letter. *)
Lemma saslprep_throws_bidi_mixed_witness :
  rfc_saslprep [0x0627; 0x41] None = Err (Error msg_bidi_mixed).
Proof.
  apply (saslprep_throws_bidi_mixed (NF := rfc_normalizer) rfc_tables [0x0627; 0x41] None
           ltac:(by apply wf_stringb_spec) ltac:(done)).
  split_and!; reflexivity.
Defined.

(** A digit first, ALEF last. *)
Lemma saslprep_throws_bidi_edges_witness :
  rfc_saslprep [0x0031; 0x0627] None = Err (Error msg_bidi_edges).
Proof.
  apply (saslprep_throws_bidi_edges (NF := rfc_normalizer) rfc_tables [0x0031; 0x0627] None
           ltac:(by apply wf_stringb_spec) ltac:(done)).
  split_and!; [reflexivity..|done|reflexivity|reflexivity].
Defined.

Lemma saslprep_no_RangeError_witness :
  rfc_saslprep [0xDBFF; 0xDFFF; 0xD800] None <> Err (RangeError "Invalid code point").
Proof.
  exact (saslprep_no_RangeError (NF := rfc_normalizer) rfc_tables [0xDBFF; 0xDFFF; 0xD800]
           None "Invalid code point" ltac:(by apply wf_stringb_spec)).
Defined.

(** The soft hyphen alone: every code point is mapped to nothing. *)
Lemma saslprep_undefined_witness :
  rfc_saslprep [0x00AD] None = Err undefined_codePointAt.
Proof.
  apply (saslprep_undefined (NF := rfc_normalizer) (NL := rfc_normalizer_laws)
           rfc_tables [0x00AD] None ltac:(by apply wf_stringb_spec) ltac:(done)).
  reflexivity.
Defined.

(** ROMAN NUMERAL NINE normalises to IX (RFC 4013, example 5). *)
Lemma saslprep_output_safe_witness :
  let y := [0x49; 0x58] in
  y = normal_form (NF := rfc_normalizer) rfc_tables [0x2168] /\ y <> [] /\
  hasProhibited rfc_tables (toCodePoints y) = false /\
  (allowUnassigned default_opts <> Some true ->
   hasUnassigned rfc_tables (toCodePoints y) = false) /\
  hasBidiRAL rfc_tables (toCodePoints y) && hasBidiL rfc_tables (toCodePoints y) = false /\
  (hasBidiRAL rfc_tables (toCodePoints y) = true -> edges_RAL rfc_tables y = true).
Proof.
  exact (saslprep_output_safe (NF := rfc_normalizer) rfc_tables [0x2168] None [0x49; 0x58]
           ltac:(by apply wf_stringb_spec) ltac:(done) eq_refl).
Defined.

(** A prohibited input stays prohibited with [allowUnassigned: true]. *)
Lemma saslprep_allowUnassigned_true_witness :
  rfc_saslprep [0x0007] (Some {| allowUnassigned := Some true |}) = rfc_saslprep [0x0007] None.
Proof.
  assert (rfc_saslprep [0x0007] None <> Err (Error msg_unassigned)) as H
    by (vm_compute; discriminate).
  exact (saslprep_allowUnassigned_true (NF := rfc_normalizer) rfc_tables
           (JsString [0x0007]) None H).
Defined.

(** "user" (RFC 4013, example 2). *)
Lemma saslprep_passthrough_witness :
  rfc_saslprep [0x75; 0x73; 0x65; 0x72] None = Ok [0x75; 0x73; 0x65; 0x72].
Proof.
  apply (saslprep_passthrough (NF := rfc_normalizer) rfc_tables
           [0x75; 0x73; 0x65; 0x72] None).
  - by apply wf_stringb_spec.
  - reflexivity.
  - intros c Hc. rewrite toCodePoints_eq in Hc.
    repeat (apply elem_of_cons in Hc as [->|Hc]; [split_and!; reflexivity|]).
    by apply elem_of_nil in Hc.
Defined.

(** "I<U+2168>" gives "IIX": a string of three units from one of two. *)
Lemma saslprep_type_witness :
  wf_code_points (mapped_input rfc_tables [0x49; 0x2168]) /\
  (exists n, normalized_input (NF := rfc_normalizer) rfc_tables [0x49; 0x2168] = Ok n /\
             wf_string n /\ wf_code_points (toCodePoints n)) /\
  (forall y, rfc_saslprep [0x49; 0x2168] None = Ok y -> wf_string y).
Proof.
  exact (saslprep_type (NL := rfc_normalizer_laws) rfc_tables [0x49; 0x2168] None
           ltac:(by apply wf_stringb_spec)).
Defined.

(** "user" (RFC 4013, example 2). *)
Lemma saslprep_ascii_witness :
  rfc_saslprep [0x75; 0x73; 0x65; 0x72] None = Ok [0x75; 0x73; 0x65; 0x72].
Proof.
  apply (saslprep_ascii (NL := rfc_normalizer_laws) rfc_tables [0x75; 0x73; 0x65; 0x72] None);
    [repeat constructor; lia|reflexivity].
Defined.
