(* ===== verification/Spec.v ===== *)
(** * Spec: the pipeline of the specification and the refinement

    The specification (section 4.2) describes [prepare]: decode, map,
    normalise, re-decode, then the prohibit, unassigned and bidirectional
    checks on the decoded normal form, with five error kinds (section 7).
    [prepare] below is that description; [classify] reads an exception of
    [saslprep] as an error kind.  [saslprep_refines_prepare] states when
    the function of index.ts implements [prepare]; the theorems after it
    are the inputs on which the two differ: the edge test of the source
    looks at code units where the specification looks at code points, and
    the source indexes an empty normal form. *)

From stdpp Require Import sets.
From S2P Require Import Prelude JsString CodePoints Tables Normalize Rfc3454 SaslPrep.

(** ** Error kinds (specification, section 7) *)

Inductive StringPrepError : Type :=
| InvalidInputType
| ProhibitedCharacter
| UnassignedCodePoint
| BidiMixedDirection
| BidiEdgePlacement.

#[global] Instance StringPrepError_eq_dec : EqDecision StringPrepError.
Proof. solve_decision. Defined.

(** The error kind of an exception of [saslprep]; [None] for an exception
    that is none of the five. *)
Definition classify (e : js_error) : option StringPrepError :=
  if bool_decide (e = TypeError msg_expected_string) then Some InvalidInputType
  else if bool_decide (e = Error msg_prohibited) then Some ProhibitedCharacter
  else if bool_decide (e = Error msg_unassigned) then Some UnassignedCodePoint
  else if bool_decide (e = Error msg_bidi_mixed) then Some BidiMixedDirection
  else if bool_decide (e = Error msg_bidi_edges) then Some BidiEdgePlacement
  else None.

Definition classify_result (r : result js_error js_string)
    : option (result StringPrepError js_string) :=
  match r with
  | Ok s => Some (Ok s)
  | Err e => Err <$> classify e
  end.

(** The option as the specification has it: a boolean, [false] by
    default. *)
Definition allows_unassigned (o : option Options) : bool :=
  bool_decide (allowUnassigned (default default_opts o) = Some true).

Section spec.
Context {B : Type} {BF : BitField B} {NF : Normalizer}.
Implicit Types (tables : MemoryCodePoints B) (input : js_string) (o : option Options).

(** ** prepare (specification, section 4.2) *)

(** Step 8, second rule: the first and the last code point of the
    normalised sequence are RandALCat. *)
Definition edges_RAL_code_points tables (normalized : list Z) : bool :=
  from_option (get (bidirectional_r_al tables)) false (head normalized)
  && from_option (get (bidirectional_r_al tables)) false (list.last normalized).

(** Steps 6 to 9 on the normalised string. *)
Definition prepare_checks tables (allow : bool) (normalized_string : js_string)
    : result StringPrepError js_string :=
  let normalized := decode normalized_string in
  if existsb (get (prohibited_characters tables)) normalized then Err ProhibitedCharacter else
  if negb allow && existsb (get (unassigned_code_points tables)) normalized
  then Err UnassignedCodePoint else
  let hasRAL := existsb (get (bidirectional_r_al tables)) normalized in
  let hasL := existsb (get (bidirectional_l tables)) normalized in
  if hasRAL && hasL then Err BidiMixedDirection else
  if hasRAL && negb (edges_RAL_code_points tables normalized) then Err BidiEdgePlacement
  else Ok normalized_string.

(** Steps 1 to 5. *)
Definition prepare tables (input : js_value) (allow : bool)
    : result StringPrepError js_string :=
  match input with
  | JsString s =>
      if bool_decide (s = []) then Ok [] else
      let mapped :=
        List.filter (fun c => negb (get (commonly_mapped_to_nothing tables) c))
          (map (fun c => if get (non_ASCII_space_characters tables) c then 0x20 else c)
             (decode s)) in
      prepare_checks tables allow (normalize_NFKC (utf16_encode mapped))
  | _ => Err InvalidInputType
  end.

(** ** The first and the last code point against the first and the last
    code unit *)

(** A table that holds scalar values of the Basic Multilingual Plane
    only: no surrogate and nothing above U+FFFF. *)
Definition bmp_table (table : B) : Prop :=
  forall c, get table c = true -> c < 0xD800 \/ 0xDFFF < c <= 0xFFFF.

Lemma bmp_table_surrogate table u :
  bmp_table table -> is_leading_surrogate u || is_trailing_surrogate u = true ->
  get table u = false.
Proof.
  intros Hb Hu. destruct (get table u) eqn:E; [|done].
  apply Hb in E. unfold is_leading_surrogate, is_trailing_surrogate in Hu. lia.
Qed.

Lemma bmp_table_supplementary table c :
  bmp_table table -> 0x10000 <= c -> get table c = false.
Proof.
  intros Hb Hc. destruct (get table c) eqn:E; [|done]. apply Hb in E. lia.
Qed.

(** The first decoded code point is the first unit, or the value of a pair
    that starts with it. *)
Lemma head_decode_cases u rest :
  head (decode (u :: rest)) = Some u \/
  (is_leading_surrogate u = true /\
   exists c, head (decode (u :: rest)) = Some c /\ 0x10000 <= c).
Proof.
  rewrite head_decode. case_if; [right|by left].
  apply andb_true_iff in E as [Hu Hv]. split; [done|]. eexists; split; [done|].
  destruct rest as [|v rest]; [done|]. simpl in *.
  pose proof (pair_range _ _ Hu Hv). lia.
Qed.

(** The last decoded code point is the last unit, or the value of a pair
    that ends with it. *)
Lemma last_decode_cases s w :
  list.last s = Some w ->
  list.last (decode s) = Some w \/
  (is_trailing_surrogate w = true /\
   exists c, list.last (decode s) = Some c /\ 0x10000 <= c).
Proof.
  induction s as [|u v rest Hu Hv IH|u rest Hu IH] using decode_ind; [done|..].
  - rewrite decode_pair by done. destruct rest as [|x rest].
    + intros [= <-]. right. split; [done|]. eexists; split; [done|].
      pose proof (pair_range _ _ Hu Hv). lia.
    + intros Hw. rewrite !last_cons_cons in Hw. specialize (IH Hw).
      destruct (decode (x :: rest)) as [|d ds] eqn:Hd.
      { pose proof (decode_length (x :: rest)) as Hl. rewrite Hd in Hl. simpl in Hl. lia. }
      by rewrite last_cons_cons.
  - rewrite decode_unit by done. destruct rest as [|x rest].
    + intros [= <-]. by left.
    + intros Hw. rewrite last_cons_cons in Hw. specialize (IH Hw).
      destruct (decode (x :: rest)) as [|d ds] eqn:Hd.
      { pose proof (decode_length (x :: rest)) as Hl. rewrite Hd in Hl. simpl in Hl. lia. }
      by rewrite last_cons_cons.
Qed.

(** With a RandALCat table in the Basic Multilingual Plane, testing the
    first and last code unit is testing the first and last code point. *)
Lemma edges_RAL_code_points_eq tables n :
  bmp_table (bidirectional_r_al tables) ->
  edges_RAL_code_points tables (decode n) = edges_RAL tables n.
Proof.
  intros Hb. unfold edges_RAL_code_points, edges_RAL.
  destruct n as [|u rest]; [done|]. f_equal.
  - destruct (head_decode_cases u rest) as [->|(Hu & c & -> & Hc)]; [done|]. simpl.
    rewrite (bmp_table_supplementary _ _ Hb Hc).
    by rewrite (bmp_table_surrogate _ u Hb) by (by rewrite Hu).
  - destruct (list.last (u :: rest)) as [w|] eqn:Hw; [|by apply last_None in Hw].
    destruct (last_decode_cases _ _ Hw) as [->|(Hu & c & -> & Hc)]; [done|]. simpl.
    rewrite (bmp_table_supplementary _ _ Hb Hc).
    by rewrite (bmp_table_surrogate _ w Hb) by (by rewrite Hu, orb_true_r).
Qed.

(** ** Lemmas on [classify] *)

Lemma classify_checks tables opts n :
  bmp_table (bidirectional_r_al tables) -> n <> [] ->
  classify_result (saslprep_checks tables opts n)
  = Some (prepare_checks tables (negb (checks_unassigned opts)) n).
Proof.
  intros Hb Hn. rewrite saslprep_checks_unfold. unfold prepare_checks.
  rewrite negb_involutive, edges_RAL_code_points_eq, <- toCodePoints_eq by done.
  unfold hasProhibited, hasUnassigned, hasBidiRAL, hasBidiL.
  rewrite (bool_decide_eq_false_2 (n = [])) by done.
  repeat case_if; done.
Qed.

Lemma prepare_string tables input allow :
  prepare tables (JsString input) allow =
  if bool_decide (input = []) then Ok []
  else prepare_checks tables allow (normal_form tables input).
Proof.
  unfold prepare, normal_form, mapped_input. by rewrite toCodePoints_eq.
Qed.

(** A RandALCat table without surrogates: what the edge test of the
    source needs to be sound. *)
Definition surrogate_free (table : B) : Prop :=
  forall u, is_leading_surrogate u || is_trailing_surrogate u = true -> get table u = false.

Lemma edges_RAL_sound tables n :
  surrogate_free (bidirectional_r_al tables) ->
  edges_RAL tables n = true -> edges_RAL_code_points tables (decode n) = true.
Proof.
  intros Hs. unfold edges_RAL_code_points, edges_RAL.
  destruct n as [|u rest]; [done|]. intros [Hf Hl]%andb_true_iff.
  apply andb_true_iff. split.
  - destruct (head_decode_cases u rest) as [->|(Hu & _)]; [done|].
    simpl in Hf. by rewrite Hs in Hf by (by rewrite Hu).
  - destruct (list.last (u :: rest)) as [w|] eqn:Hw; [|done].
    destruct (last_decode_cases _ _ Hw) as [->|(Hu & _)]; [done|].
    simpl in Hl. by rewrite Hs in Hl by (by rewrite Hu, orb_true_r).
Qed.

Lemma checks_sound tables opts n y :
  surrogate_free (bidirectional_r_al tables) ->
  saslprep_checks tables opts n = Ok y ->
  prepare_checks tables (negb (checks_unassigned opts)) n = Ok y.
Proof.
  intros Hs. rewrite saslprep_checks_unfold. unfold prepare_checks.
  rewrite negb_involutive, <- toCodePoints_eq.
  unfold hasProhibited, hasUnassigned, hasBidiRAL, hasBidiL.
  destruct (existsb (get (prohibited_characters tables)) _); [done|].
  destruct (checks_unassigned opts && _); [done|].
  destruct (existsb (get (bidirectional_r_al tables)) _),
    (existsb (get (bidirectional_l tables)) _); simpl; try done.
  all: case_bool_decide; [done|]; try by intros [= <-].
  destruct (edges_RAL tables n) eqn:He; [|done].
  rewrite toCodePoints_eq, edges_RAL_sound by done. by intros [= <-].
Qed.

(** ** Theorems *)

(** C6: [saslprep] implements the pipeline of the specification: when the
    RandALCat table holds only scalar values of the Basic Multilingual
    Plane and the call does not end in the TypeError of an empty normal
    form, the result of [saslprep], with its exception read as an error
    kind, is the result of [prepare]. *)
Theorem saslprep_refines_prepare tables (v : js_value) o :
  wf_value v -> bmp_table (bidirectional_r_al tables) ->
  saslprep tables v o <> Err undefined_codePointAt ->
  classify_result (saslprep tables v o) = Some (prepare tables v (allows_unassigned o)).
Proof.
  intros Hwf Hb Hno. destruct v as [| | | |input|]; try done.
  rewrite saslprep_string, prepare_string in *. case_bool_decide; [done|].
  rewrite normalized_input_Ok, result_bind_Ok in * by done.
  rewrite classify_checks; [|done|by intros E; rewrite E, saslprep_checks_nil in Hno].
  unfold allows_unassigned, checks_unassigned. by rewrite negb_involutive.
Qed.

(** C10: [saslprep] accepts only what the specification accepts: when the
    RandALCat table holds no surrogate, a string that [saslprep] returns
    is the string [prepare] returns. *)
Theorem saslprep_sound tables (v : js_value) o y :
  wf_value v -> surrogate_free (bidirectional_r_al tables) ->
  saslprep tables v o = Ok y -> prepare tables v (allows_unassigned o) = Ok y.
Proof.
  intros Hwf Hs. destruct v as [| | | |input|]; try done.
  rewrite saslprep_string, prepare_string. case_bool_decide; [by intros [= <-]|].
  rewrite normalized_input_Ok, result_bind_Ok by done. intros Hy.
  apply (checks_sound _ _ _ _ Hs) in Hy.
  unfold allows_unassigned. unfold checks_unassigned in Hy. by rewrite negb_involutive in Hy.
Qed.

(** C20: where the source and the specification differ, first case: on a
    non-empty input of which the map step leaves nothing, [prepare]
    returns the empty string and [saslprep] throws a TypeError. *)
Theorem saslprep_differs_on_empty_normal_form {NL : NormalizerLaws} tables input o :
  wf_string input -> input <> [] -> mapped_input tables input = [] ->
  saslprep tables (JsString input) o = Err undefined_codePointAt /\
  prepare tables (JsString input) (allows_unassigned o) = Ok [].
Proof.
  intros Hwf Hne Hm.
  assert (normal_form tables input = []) as Hn.
  { unfold normal_form. rewrite Hm. by apply nfkc_nil_iff. }
  rewrite saslprep_wf, prepare_string, bool_decide_eq_false_2, Hn by done.
  split; [apply saslprep_checks_nil|]. unfold prepare_checks. simpl.
  by rewrite andb_false_r.
Qed.

(** C29: every exception of [saslprep] on a string or any other value is
    one of the five error kinds of the specification, or the TypeError of
    an empty normal form. *)
Theorem saslprep_error_kinds tables (v : js_value) o e :
  wf_value v -> saslprep tables v o = Err e ->
  is_Some (classify e) \/ e = undefined_codePointAt.
Proof.
  intros Hwf. destruct (decide (js_typeof v = "string")) as [Hs|Hs].
  - apply js_typeof_string in Hs as [input ->]. rewrite saslprep_string.
    case_bool_decide; [done|]. rewrite normalized_input_Ok, result_bind_Ok by done.
    intros He%saslprep_checks_Err.
    repeat (apply elem_of_cons in He as [->|He]; [first [by (left; eexists)|by right]|]).
    by apply elem_of_nil in He.
  - rewrite saslprep_non_string by done. intros [= <-]. left. by eexists.
Qed.

(** What [prepare_checks] has checked when it accepts. *)
Lemma prepare_checks_Ok tables allow n y :
  prepare_checks tables allow n = Ok y ->
  y = n /\
  hasProhibited tables (toCodePoints n) = false /\
  negb allow && hasUnassigned tables (toCodePoints n) = false /\
  hasBidiRAL tables (toCodePoints n) && hasBidiL tables (toCodePoints n) = false /\
  (hasBidiRAL tables (toCodePoints n) = true ->
   edges_RAL_code_points tables (toCodePoints n) = true).
Proof.
  unfold prepare_checks, hasProhibited, hasUnassigned, hasBidiRAL, hasBidiL.
  rewrite toCodePoints_eq. repeat case_if; try done. intros [= <-].
  split_and!; try done. intros Hr. rewrite Hr in E2. by apply negb_false_iff in E2.
Qed.

(** The first or the last code unit of the string is a surrogate: the
    string starts or ends with a supplementary character, or with an
    unpaired surrogate. *)
Definition surrogate_edge (n : js_string) : bool :=
  from_option (fun u => is_leading_surrogate u || is_trailing_surrogate u) false (head n)
  || from_option (fun u => is_leading_surrogate u || is_trailing_surrogate u) false
       (list.last n).

Lemma surrogate_edge_not_RAL tables n :
  surrogate_free (bidirectional_r_al tables) -> surrogate_edge n = true ->
  edges_RAL tables n = false.
Proof.
  intros Hs. unfold surrogate_edge, edges_RAL. intros [H|H]%orb_true_iff.
  - destruct (head n) as [u|]; [|done]. simpl in *. by rewrite (Hs u H).
  - destruct (list.last n) as [u|]; [|done]. simpl in *.
    by rewrite (Hs u H), andb_false_r.
Qed.

(** C19: where the source and the specification differ, in general: when
    the RandALCat table holds no surrogate, every string with a RandALCat
    character that [prepare] accepts and whose normal form starts or ends
    with a surrogate code unit is refused by [saslprep] with the
    edge-placement error. *)
Theorem saslprep_rejects_surrogate_edge tables input o :
  wf_string input -> input <> [] -> surrogate_free (bidirectional_r_al tables) ->
  prepare tables (JsString input) (allows_unassigned o) = Ok (normal_form tables input) ->
  hasBidiRAL tables (toCodePoints (normal_form tables input)) = true ->
  surrogate_edge (normal_form tables input) = true ->
  saslprep tables (JsString input) o = Err (Error msg_bidi_edges).
Proof.
  intros Hwf Hne Hs Hp Hr He. rewrite prepare_string, bool_decide_eq_false_2 in Hp by done.
  apply prepare_checks_Ok in Hp as (_ & Hp & Hu & Hb & _).
  rewrite saslprep_wf, saslprep_checks_unfold by done.
  unfold allows_unassigned in Hu. unfold checks_unassigned. rewrite Hp, Hu, Hb, Hr.
  rewrite (surrogate_edge_not_RAL _ _ Hs He). simpl.
  rewrite bool_decide_eq_false_2; [done|]. intros Hn. by rewrite Hn, toCodePoints_nil in Hr.
Qed.

(** C18: the bidirectional requirement of RFC 3454, section 6, on code
    points: when the RandALCat table holds no surrogate, a string that
    [saslprep] returns and that holds a RandALCat code point holds no LCat
    code point, and its first and its last code point are RandALCat. *)
Theorem saslprep_bidi_code_points tables input o y :
  wf_string input -> surrogate_free (bidirectional_r_al tables) ->
  saslprep tables (JsString input) o = Ok y ->
  hasBidiRAL tables (toCodePoints y) = true ->
  hasBidiL tables (toCodePoints y) = false /\
  edges_RAL_code_points tables (toCodePoints y) = true.
Proof.
  intros Hwf Hs Hy Hr. destruct (decide (input = [])) as [->|Hne].
  { by injection Hy as <-. }
  rewrite saslprep_wf in Hy by done.
  apply saslprep_checks_Ok in Hy as (-> & _ & _ & _ & Hb & He).
  rewrite Hr in Hb. split; [done|].
  rewrite toCodePoints_eq. by apply edges_RAL_sound, He.
Qed.

End spec.

(** ** Tables of a later Unicode version *)

(** U+10800 (CYPRIOT SYLLABLE A) is a right-to-left letter in Unicode 4.0
    and later; a table built from such a version lists it as RandALCat. *)
Definition later_tables : MemoryCodePoints (list (Z * Z)) := {|
  unassigned_code_points := [];
  commonly_mapped_to_nothing := commonly_mapped_to_nothing rfc_tables;
  non_ASCII_space_characters := non_ASCII_space_characters rfc_tables;
  prohibited_characters := prohibited_characters rfc_tables;
  bidirectional_r_al := bidirectional_r_al rfc_tables ++ [(0x10800, 0x1083F)];
  bidirectional_l := bidirectional_l rfc_tables;
|}.

(** Where the source and the specification differ, second case: the
    string of the one character U+10800, RandALCat in [later_tables], is
    accepted by [prepare], whose edge test reads code points, and rejected
    by [saslprep], whose edge test reads the surrogate halves. *)
Theorem saslprep_differs_on_surrogate_edges :
  saslprep (NF := rfc_normalizer) later_tables (JsString [0xD802; 0xDC00]) None
  = Err (Error msg_bidi_edges) /\
  prepare (NF := rfc_normalizer) later_tables (JsString [0xD802; 0xDC00]) false
  = Ok [0xD802; 0xDC00].
Proof. split; reflexivity. Qed.

(** ** Tables of ranges without surrogates, by computation *)

(** No range meets D800..DFFF. *)
Definition ranges_surrogate_free (rs : list (Z * Z)) : bool :=
  forallb (fun r => (r.2 <? 0xD800) || (0xDFFF <? r.1)) rs.

Lemma ranges_surrogate_free_spec (rs : list (Z * Z)) :
  ranges_surrogate_free rs = true -> surrogate_free rs.
Proof.
  unfold ranges_surrogate_free. rewrite forallb_forall. intros H u Hu.
  apply not_true_iff_false. intros (r & Hr%list_elem_of_In%H & Hc)%get_ranges.
  unfold is_leading_surrogate, is_trailing_surrogate in Hu. lia.
Qed.

(** ** Witnesses *)

Lemma rfc_r_al_bmp_table : bmp_table (bidirectional_r_al rfc_tables).
Proof. intros c Hc. apply rfc_r_al_bmp in Hc. lia. Qed.

Lemma rfc_r_al_surrogate_free : surrogate_free (bidirectional_r_al rfc_tables).
Proof. by apply ranges_surrogate_free_spec. Qed.

(** U+00AA, FEMININE ORDINAL INDICATOR, normalises to "a" (RFC 4013,
    example 4). *)
Lemma saslprep_refines_prepare_witness :
  classify_result (rfc_saslprep [0x00AA] None)
  = Some (prepare (NF := rfc_normalizer) rfc_tables (JsString [0x00AA]) false).
Proof.
  assert (rfc_saslprep [0x00AA] None <> Err undefined_codePointAt) as H
    by (vm_compute; discriminate).
  exact (saslprep_refines_prepare (NF := rfc_normalizer) rfc_tables (JsString [0x00AA]) None
           ltac:(by apply wf_stringb_spec) rfc_r_al_bmp_table H).
Defined.

(** "I<U+00AD>X" gives "IX" (RFC 4013, example 1). *)
Lemma saslprep_sound_witness :
  prepare (NF := rfc_normalizer) rfc_tables (JsString [0x49; 0x00AD; 0x58]) false
  = Ok [0x49; 0x58].
Proof.
  exact (saslprep_sound (NF := rfc_normalizer) rfc_tables (JsString [0x49; 0x00AD; 0x58])
           None [0x49; 0x58] ltac:(by apply wf_stringb_spec) rfc_r_al_surrogate_free eq_refl).
Defined.

(** ZERO WIDTH JOINER and a variation selector: both mapped to nothing. *)
Lemma saslprep_differs_on_empty_normal_form_witness :
  rfc_saslprep [0x200D; 0xFE0F] None = Err undefined_codePointAt /\
  prepare (NF := rfc_normalizer) rfc_tables (JsString [0x200D; 0xFE0F]) false = Ok [].
Proof.
  exact (saslprep_differs_on_empty_normal_form (NL := rfc_normalizer_laws) rfc_tables
           [0x200D; 0xFE0F] None ltac:(by apply wf_stringb_spec) ltac:(done) eq_refl).
Defined.

Lemma saslprep_error_kinds_witness :
  is_Some (classify (Error msg_bidi_mixed)) \/ Error msg_bidi_mixed = undefined_codePointAt.
Proof.
  exact (saslprep_error_kinds (NF := rfc_normalizer) rfc_tables (JsString [0x0627; 0x41])
           None (Error msg_bidi_mixed) ltac:(by apply wf_stringb_spec) eq_refl).
Defined.

(** ALEF, BEH: a string of RandALCat letters. *)
Lemma saslprep_bidi_code_points_witness :
  hasBidiL rfc_tables (toCodePoints [0x0627; 0x0628]) = false /\
  edges_RAL_code_points rfc_tables (toCodePoints [0x0627; 0x0628]) = true.
Proof.
  exact (saslprep_bidi_code_points (NF := rfc_normalizer) rfc_tables [0x0627; 0x0628] None
           [0x0627; 0x0628] ltac:(by apply wf_stringb_spec) rfc_r_al_surrogate_free
           eq_refl eq_refl).
Defined.

(** U+10800 alone, RandALCat in [later_tables]: [prepare] accepts the
    string, and its first code unit is the high surrogate D802. *)
Lemma saslprep_rejects_surrogate_edge_witness :
  saslprep (NF := rfc_normalizer) later_tables (JsString [0xD802; 0xDC00]) None
  = Err (Error msg_bidi_edges).
Proof.
  exact (saslprep_rejects_surrogate_edge (NF := rfc_normalizer) later_tables
           [0xD802; 0xDC00] None ltac:(by apply wf_stringb_spec) ltac:(done)
           (ranges_surrogate_free_spec (bidirectional_r_al later_tables) eq_refl)
           eq_refl eq_refl eq_refl).
Defined.
