(* ===== verification/Rfc4013.v ===== *)
(** * Rfc4013: the examples of RFC 4013, section 3, as tests of the model

    The seven examples the RFC gives for the profile and the examples the
    specification adds to them (section 8), evaluated in the model.  The
    tables of [Rfc3454] hold the rows of RFC 3454 these inputs touch and
    its normaliser is the table of the four compatibility mappings they
    need, so the examples test the pipeline of [SaslPrep] on known
    answers; they prove nothing about other inputs. *)

From S2P Require Import Prelude JsString CodePoints Tables Normalize Rfc3454 SaslPrep.

(** The code units of an ASCII string. *)
Definition ascii_units (s : string) : js_string :=
  map (fun a => Z.of_nat (Strings.Ascii.nat_of_ascii a)) (String.list_ascii_of_string s).

(** The model gives the outputs RFC 4013 lists for its seven examples:
    "I<U+00AD>X" gives "IX"; "user" and "USER" are unchanged; U+00AA gives
    "a"; U+2168 gives "IX"; U+0007 is a prohibited character; U+0627
    U+0031 fails the bidirectional check. *)
Example rfc4013_examples :
  rfc_saslprep [0x49; 0x00AD; 0x58] None = Ok (ascii_units "IX") /\
  rfc_saslprep (ascii_units "user") None = Ok (ascii_units "user") /\
  rfc_saslprep (ascii_units "USER") None = Ok (ascii_units "USER") /\
  rfc_saslprep [0x00AA] None = Ok (ascii_units "a") /\
  rfc_saslprep [0x2168] None = Ok (ascii_units "IX") /\
  rfc_saslprep [0x0007] None = Err (Error msg_prohibited) /\
  rfc_saslprep [0x0627; 0x0031] None = Err (Error msg_bidi_edges).
Proof. repeat split; reflexivity. Qed.

(** The examples of the specification (section 8): "a<U+00A0>b" gives "a b"; the
    unassigned code point U+0221 is refused by default and with
    [allowUnassigned: false], and accepted with [allowUnassigned: true];
    a string of RandALCat characters alone is accepted. *)
Example specification_examples :
  rfc_saslprep [0x61; 0x00A0; 0x62] None = Ok (ascii_units "a b") /\
  rfc_saslprep [0x61; 0x0221] None = Err (Error msg_unassigned) /\
  rfc_saslprep [0x61; 0x0221] (Some {| allowUnassigned := Some false |})
    = Err (Error msg_unassigned) /\
  rfc_saslprep [0x61; 0x0221] (Some {| allowUnassigned := Some true |})
    = Ok [0x61; 0x0221] /\
  rfc_saslprep [0x0627; 0x0628] None = Ok [0x0627; 0x0628] /\
  rfc_saslprep [0x0627; 0x61] None = Err (Error msg_bidi_mixed).
Proof. repeat split; reflexivity. Qed.
