(* ===== verification/Surrogates.v ===== *)
(** * Surrogates: lone surrogates through the pipeline

    [saslprep] turns the mapped code points into a string (line 81) and
    decodes the normalised string again (line 85).  The two steps are not
    inverse: a high surrogate and a low surrogate that the input kept
    apart and that the map step brings together are read back as one
    supplementary code point.  The checks of lines 88-148 run on the
    sequence read back, so two prohibited surrogate code points can leave
    [saslprep] as a character of another plane. *)

From S2P Require Import Prelude JsString CodePoints Tables Normalize Rfc3454 SaslPrep.

Section surrogates.
Context {B : Type} {BF : BitField B} {NF : Normalizer}.
Implicit Types (tables : MemoryCodePoints B) (input : js_string).

(** [normalized_map] (line 85), for a string argument. *)
Definition normalized_map tables input : list Z :=
  toCodePoints (normal_form tables input).

(** The string built from [mapped_input] is in normal form: the
    normaliser has nothing to do on this input. *)
Definition mapped_normalized tables input : Prop :=
  normalize_NFKC (utf16_encode (mapped_input tables input))
  = utf16_encode (mapped_input tables input).

(** ** Lemmas *)

(** The sequence the checks run on is [mapped_input] with its surrogate
    pairs joined. *)
Lemma normalized_map_joined tables input :
  wf_string input -> mapped_normalized tables input ->
  normalized_map tables input = decode (mapped_input tables input).
Proof.
  intros Hwf Hn. unfold normalized_map, normal_form. rewrite Hn, toCodePoints_eq.
  by apply decode_utf16_encode, mapped_input_wf.
Qed.

(** ** Theorems *)

(** C17: when the normaliser leaves the mapped string alone, the sequence
    [normalized_map] that [saslprep] checks is the sequence [mapped_input]
    exactly when no high surrogate of [mapped_input] stands directly
    before a low surrogate. *)
Theorem normalized_map_mapped_input tables input :
  wf_string input -> mapped_normalized tables input ->
  normalized_map tables input = mapped_input tables input
  <-> well_paired (mapped_input tables input) = true.
Proof.
  intros Hwf Hn. rewrite normalized_map_joined by done.
  split; [|apply decode_well_paired_id]. intros <-. apply decode_well_paired.
Qed.

End surrogates.

(** The options [{ allowUnassigned: true }]. *)
Definition allowing : option Options := Some {| allowUnassigned := Some true |}.

(** ** An input of the case where the sequences differ *)

(** One input on which [mapped_input] is not well paired, at the rows of
    RFC 3454 that [Rfc3454] holds, where every surrogate is prohibited
    (appendix C.5), and with [allowUnassigned: true]: a high surrogate
    followed by a letter is refused, and so is a low surrogate after a
    letter; the high surrogate, a soft hyphen and the low surrogate are
    accepted, and the string returned is the surrogate pair of U+10000. *)
Example saslprep_joins_lone_surrogates :
  rfc_saslprep [0xD800; 0x61] allowing = Err (Error msg_prohibited) /\
  rfc_saslprep [0x61; 0xDC00] allowing = Err (Error msg_prohibited) /\
  rfc_saslprep [0xD800; 0x00AD; 0xDC00] allowing = Ok [0xD800; 0xDC00] /\
  mapped_input rfc_tables [0xD800; 0x00AD; 0xDC00] = [0xD800; 0xDC00] /\
  normalized_map (NF := rfc_normalizer) rfc_tables [0xD800; 0x00AD; 0xDC00] = [0x10000].
Proof. repeat split; reflexivity. Qed.

(** ** Witnesses *)

Lemma normalized_map_mapped_input_witness :
  normalized_map (NF := rfc_normalizer) rfc_tables [0x49; 0x00AD; 0x58]
  = mapped_input rfc_tables [0x49; 0x00AD; 0x58]
  <-> well_paired (mapped_input rfc_tables [0x49; 0x00AD; 0x58]) = true.
Proof.
  exact (normalized_map_mapped_input (NF := rfc_normalizer) rfc_tables [0x49; 0x00AD; 0x58]
           ltac:(by apply wf_stringb_spec) eq_refl).
Defined.
