(* ===== verification/Output.v ===== *)
(** * Output: the string [saslprep] returns

    What a caller may rely on when [saslprep] returns, beyond the checks
    of [SaslPrep]: the string is well-formed Unicode when the prohibited
    table holds the surrogates, it holds no code point of the
    mapped-to-nothing table when the normaliser creates none. *)

From S2P Require Import Prelude JsString CodePoints Tables Normalize Rfc3454 SaslPrep Spec.

(** ** Well-formed strings *)

(** A surrogate code point. *)
Definition is_surrogate (c : Z) : bool :=
  is_leading_surrogate c || is_trailing_surrogate c.

(** A Unicode scalar value: a code point that is not a surrogate. *)
Definition scalar_value (c : Z) : Prop :=
  0 <= c <= 0x10FFFF /\ is_surrogate c = false.

(** [String.prototype.isWellFormed]: no code point of the string is an
    unpaired surrogate. *)
Definition isWellFormed (s : js_string) : bool :=
  forallb (fun c => negb (is_surrogate c)) (toCodePoints s).

(** ** Checks by computation *)

(** Every range lies in the Basic Multilingual Plane, off the
    surrogates. *)
Definition ranges_bmp (rs : list (Z * Z)) : bool :=
  forallb (fun r => (r.2 <? 0xD800) || ((0xDFFF <? r.1) && (r.2 <=? 0xFFFF))) rs.

(** No replacement of the table of compatibility mappings holds a unit of
    [table]. *)
Definition rows_avoid {B : Type} `{BitField B} (table : B) (m : list (Z * js_string))
    : bool :=
  forallb (fun e => forallb (fun u => negb (get table u)) e.2) m.

(** Tables of one row: the mapped-to-nothing table holds [nothing], the
    other tables are empty. *)
Definition only_nothing (nothing : list (Z * Z)) : MemoryCodePoints (list (Z * Z)) := {|
  unassigned_code_points := [];
  commonly_mapped_to_nothing := nothing;
  non_ASCII_space_characters := [];
  prohibited_characters := [];
  bidirectional_r_al := [];
  bidirectional_l := [];
|}.

Section output.
Context {B : Type} {BF : BitField B} {NF : Normalizer}.
Implicit Types (tables : MemoryCodePoints B) (input y : js_string) (v : js_value).

(** The prohibited table holds every surrogate code point, as appendix
    C.5 of RFC 3454 does. *)
Definition prohibits_surrogates tables : Prop :=
  forall c, is_surrogate c = true -> get (prohibited_characters tables) c = true.

(** The normaliser creates no code point of [table]: one that its result
    holds, its argument held. *)
Definition creates_none (table : B) : Prop :=
  forall s c, wf_string s -> c ∈ toCodePoints (normalize_NFKC s) ->
    get table c = true -> c ∈ toCodePoints s.

(** ** Lemmas *)

Lemma is_surrogate_spec c : is_surrogate c = true <-> 0xD800 <= c <= 0xDFFF.
Proof. unfold is_surrogate, is_leading_surrogate, is_trailing_surrogate. lia. Qed.

Lemma isWellFormed_spec s :
  isWellFormed s = true <-> forall c, c ∈ toCodePoints s -> is_surrogate c = false.
Proof.
  unfold isWellFormed. rewrite forallb_forall.
  setoid_rewrite <- list_elem_of_In. by setoid_rewrite negb_true_iff.
Qed.

(** A well-formed string is the encoding of scalar values, and no other
    string is. *)
Lemma isWellFormed_encode s :
  wf_string s ->
  isWellFormed s = true <-> exists cps, Forall scalar_value cps /\ s = utf16_encode cps.
Proof.
  intros Hwf. rewrite isWellFormed_spec. split.
  - intros Hs. exists (toCodePoints s). split; [|by rewrite toCodePoints_encode].
    apply Forall_forall. intros c Hc. split; [|by apply Hs].
    exact (proj1 (Forall_forall _ _) (toCodePoints_wf s Hwf) c Hc).
  - intros (cps & Hcps & ->) c.
    rewrite toCodePoints_eq, decode_utf16_encode
      by (eapply Forall_impl; [exact Hcps|by intros ? [? _]]).
    rewrite decode_no_leading.
    + intros Hc. by apply (proj1 (Forall_forall _ _) Hcps c Hc).
    + eapply Forall_impl; [exact Hcps|]. intros c' [_ Hc'].
      by apply orb_false_iff in Hc' as [? _].
Qed.

(** What [saslprep] returns for a value: the empty string for the empty
    string, and otherwise the normal form, on which the checks pass. *)
Lemma saslprep_Ok_inv tables v o y :
  wf_value v -> saslprep tables v o = Ok y ->
  exists input, v = JsString input /\ wf_string input /\
    ((input = [] /\ y = []) \/
     (input <> [] /\ y = normal_form tables input /\
      saslprep_checks tables (default default_opts o) y = Ok y)).
Proof.
  destruct v as [| | | |input|]; try done. intros Hwf Hy. exists input.
  split; [done|]. split; [done|].
  destruct (decide (input = [])) as [->|Hne]; [left; split; [done|]; by injection Hy|].
  right. rewrite saslprep_wf in Hy by done.
  by pose proof Hy as (-> & _)%saslprep_checks_Ok.
Qed.

(** A code point below [0x10000] that the decoder emits is a unit of the
    string: the pairs it joins are above. *)
Lemma elem_of_decode_bmp s c : c ∈ decode s -> c < 0x10000 -> c ∈ s.
Proof.
  induction s as [|u v rest Hu Hv IH|u rest Hu IH] using decode_ind; [done|..].
  - rewrite decode_pair by done. intros [->|Hc]%elem_of_cons Hlt.
    + pose proof (pair_range _ _ Hu Hv). lia.
    + by do 2 apply list_elem_of_further; apply IH.
  - rewrite decode_unit by done. intros [->|Hc]%elem_of_cons Hlt.
    + by left.
    + by apply list_elem_of_further, IH.
Qed.

(** A unit that is not a surrogate is a code point of the string. *)
Lemma elem_of_decode_unit s u : u ∈ s -> is_surrogate u = false -> u ∈ decode s.
Proof.
  intros Hu [Hl Ht]%orb_false_iff.
  induction s as [|u' v rest Hu' Hv IH|u' rest Hu' IH] using decode_ind; [done|..].
  - rewrite decode_pair by done.
    apply elem_of_cons in Hu as [->|[->|Hu]%elem_of_cons]; [congruence..|].
    by apply list_elem_of_further, IH.
  - rewrite decode_unit by done.
    apply elem_of_cons in Hu as [->|Hu]; [by left|by apply list_elem_of_further, IH].
Qed.

(** The checks pass on well-formed strings only. *)
Lemma saslprep_checks_well_formed tables opts n y :
  prohibits_surrogates tables -> saslprep_checks tables opts n = Ok y ->
  isWellFormed y = true.
Proof.
  intros Hp (-> & _ & Hn & _)%saslprep_checks_Ok. apply isWellFormed_spec.
  intros c Hc. destruct (is_surrogate c) eqn:E; [|done].
  specialize (Hp c E). by rewrite (proj1 (some_false _ _) Hn c Hc) in Hp.
Qed.

(** No code point of the normal form is in a table of the Basic
    Multilingual Plane that the map step has filtered out and of which
    the normaliser creates none. *)
Lemma normal_form_drops tables input c :
  wf_string input -> bmp_table (commonly_mapped_to_nothing tables) ->
  creates_none (commonly_mapped_to_nothing tables) ->
  c ∈ toCodePoints (normal_form tables input) ->
  get (commonly_mapped_to_nothing tables) c = false.
Proof.
  intros Hwf Hb Hn Hc. destruct (get _ c) eqn:E; [|done].
  pose proof (mapped_input_wf tables input Hwf) as Hm.
  apply (Hn _ c (utf16_encode_wf _ Hm)) in Hc; [|done].
  rewrite toCodePoints_eq, decode_utf16_encode in Hc by done.
  apply elem_of_decode_bmp in Hc; [|destruct (Hb c E); lia].
  apply elem_of_mapped_input in Hc as [Hc _]. congruence.
Qed.

(** ** Theorems *)

(** C14: the string [saslprep] returns is well-formed Unicode.  When the
    prohibited table holds every surrogate code point (appendix C.5 of
    RFC 3454), a string returned has no unpaired surrogate: it is the
    UTF-16 encoding of a sequence of Unicode scalar values, whatever the
    surrogates of the input. *)
Theorem saslprep_well_formed {NL : NormalizerLaws} tables v o y :
  wf_value v -> prohibits_surrogates tables ->
  saslprep tables v o = Ok y ->
  isWellFormed y = true /\
  exists cps, Forall scalar_value cps /\ y = utf16_encode cps.
Proof.
  intros Hv Hp Hr.
  destruct (saslprep_Ok_inv _ _ _ _ Hv Hr) as (input & -> & Hwf & [[-> ->]|(Hne & Hy & Hc)]).
  { split; [done|]. by exists []. }
  assert (isWellFormed y = true) as Hw by (by eapply saslprep_checks_well_formed).
  split; [done|]. apply isWellFormed_encode; [|done].
  rewrite Hy. by apply normal_form_wf.
Qed.

(** C30: what is mapped to nothing is absent from the result.  When the
    mapped-to-nothing table lies in the Basic Multilingual Plane and the
    normaliser creates none of its code points, no code point of a string
    [saslprep] returns is in that table. *)
Theorem saslprep_drops_nothing tables v o y c :
  wf_value v -> bmp_table (commonly_mapped_to_nothing tables) ->
  creates_none (commonly_mapped_to_nothing tables) ->
  saslprep tables v o = Ok y -> c ∈ toCodePoints y ->
  get (commonly_mapped_to_nothing tables) c = false.
Proof.
  intros Hv Hb Hn Hr.
  destruct (saslprep_Ok_inv _ _ _ _ Hv Hr) as (input & -> & Hwf & [[-> ->]|(Hne & -> & _)]).
  { by intros ?%elem_of_nil. }
  by apply normal_form_drops.
Qed.

End output.

(** ** Normalisers that create no code point of a table *)

Lemma ranges_bmp_spec (rs : list (Z * Z)) : ranges_bmp rs = true -> bmp_table rs.
Proof.
  unfold ranges_bmp. rewrite forallb_forall.
  intros H c (r & Hr%list_elem_of_In%H & Hc)%get_ranges. lia.
Qed.

Lemma table_nfkc_creates_none {B : Type} `{BitField B} (table : B) m :
  bmp_table table -> rows_avoid table m = true ->
  creates_none (NF := table_nfkc m) table.
Proof.
  intros Hb Hm s c Hwf Hc Hg. unfold rows_avoid in Hm. rewrite forallb_forall in Hm.
  rewrite toCodePoints_eq in *. apply elem_of_decode_bmp in Hc; [|destruct (Hb c Hg); lia].
  assert (is_surrogate c = false) as Hs
    by (apply not_true_iff_false; intros ?%is_surrogate_spec; destruct (Hb c Hg); lia).
  apply list_elem_of_In, in_concat in Hc as (r & (u & <- & Hu)%in_map_iff & Hc).
  destruct (compat_map_cases m u) as [Hr|(e & He%list_elem_of_In%Hm & _ & Hr)];
    rewrite Hr in Hc.
  - destruct Hc as [<-|[]]. apply list_elem_of_In in Hu. by apply elem_of_decode_unit.
  - rewrite forallb_forall in He. apply He in Hc. by rewrite Hg in Hc.
Qed.

(** ** The hypotheses are needed *)

(** With GREEK CAPITAL LETTER OMEGA mapped to nothing, "<U+03A9><U+2126>"
    loses its OMEGA, and its OHM SIGN is normalised to an OMEGA, which
    stays: the map step runs before the normaliser. *)
Example saslprep_keeps_created :
  saslprep (NF := rfc_normalizer) (only_nothing [(0x03A9, 0x03A9)])
    (JsString [0x03A9; 0x2126]) None = Ok [0x03A9].
Proof. reflexivity. Qed.

(** With U+00AD and U+10000 mapped to nothing, the two surrogates that
    the soft hyphen kept apart come out as U+10000. *)
Example saslprep_keeps_joined :
  saslprep (NF := identity_normalizer) (only_nothing [(0x00AD, 0x00AD); (0x10000, 0x10000)])
    (JsString [0xD800; 0x00AD; 0xDC00]) None = Ok [0xD800; 0xDC00] /\
  toCodePoints [0xD800; 0xDC00] = [0x10000].
Proof. split; reflexivity. Qed.

(** ** Witnesses *)

Lemma rfc_prohibits_surrogates : prohibits_surrogates rfc_tables.
Proof.
  intros c Hc%is_surrogate_spec. apply get_ranges. exists (0xD800, 0xDFFF).
  split; [|done]. by apply (bool_decide_unpack _).
Qed.

Lemma rfc_nothing_bmp : bmp_table (commonly_mapped_to_nothing rfc_tables).
Proof. by apply ranges_bmp_spec. Qed.

Lemma rfc_creates_none :
  creates_none (NF := rfc_normalizer) (commonly_mapped_to_nothing rfc_tables).
Proof. by apply table_nfkc_creates_none; [apply rfc_nothing_bmp|]. Qed.

(** "I<U+00AD>X" gives "IX", the encoding of two scalar values. *)
Lemma saslprep_well_formed_witness :
  isWellFormed [0x49; 0x58] = true /\
  exists cps, Forall scalar_value cps /\ [0x49; 0x58] = utf16_encode cps.
Proof.
  exact (saslprep_well_formed (NL := rfc_normalizer_laws) rfc_tables
           (JsString [0x49; 0x00AD; 0x58]) None [0x49; 0x58]
           ltac:(by apply wf_stringb_spec) rfc_prohibits_surrogates eq_refl).
Defined.

(** ZERO WIDTH JOINER between two letters: the result holds two code
    points, and "a" is not mapped to nothing. *)
Lemma saslprep_drops_nothing_witness :
  get (commonly_mapped_to_nothing rfc_tables) 0x61 = false.
Proof.
  refine (saslprep_drops_nothing (NF := rfc_normalizer) rfc_tables
            (JsString [0x61; 0x200D; 0x62]) None [0x61; 0x62] 0x61
            ltac:(by apply wf_stringb_spec) rfc_nothing_bmp rfc_creates_none
            eq_refl _).
  by left.
Defined.
