(* ===== verification/Representation.v ===== *)
(** * Representation: tables that answer [get] alike

    The tables are data of another package ([memory-code-points]); the
    specification leaves their representation open (hash sets or sorted
    ranges, section 9).  [saslprep] reads a table through [get] only, so
    two records of tables that answer every [get] alike, of the same or of
    different types, give the same result.  This file holds the relation
    [tables_agree] and the congruence lemmas for it, step by step through
    the function; [Profile] and [SortedRanges] use them to carry the
    conditions of the profile and the results from one representation to
    another.  The lemmas are consequences of the interface [BitField] and
    say nothing about what [saslprep] computes. *)

From stdpp Require Import gmap.
From S2P Require Import Prelude JsString CodePoints Tables Normalize Rfc3454 SaslPrep.

(** ** Changing the representation *)

(** The record of the images of the six tables. *)
Definition tables_map {B1 B2 : Type} (f : B1 -> B2) (t : MemoryCodePoints B1)
    : MemoryCodePoints B2 := {|
  unassigned_code_points := f (unassigned_code_points t);
  commonly_mapped_to_nothing := f (commonly_mapped_to_nothing t);
  non_ASCII_space_characters := f (non_ASCII_space_characters t);
  prohibited_characters := f (prohibited_characters t);
  bidirectional_r_al := f (bidirectional_r_al t);
  bidirectional_l := f (bidirectional_l t);
|}.

Section agree.
Context {B1 B2 : Type} {BF1 : BitField B1} {BF2 : BitField B2} {NF : Normalizer}.

(** Two tables, possibly of different types, with the same members. *)
Definition table_agree (b1 : B1) (b2 : B2) : Prop := forall c, get b1 c = get b2 c.

Definition tables_agree (t1 : MemoryCodePoints B1) (t2 : MemoryCodePoints B2) : Prop :=
  table_agree (unassigned_code_points t1) (unassigned_code_points t2) /\
  table_agree (commonly_mapped_to_nothing t1) (commonly_mapped_to_nothing t2) /\
  table_agree (non_ASCII_space_characters t1) (non_ASCII_space_characters t2) /\
  table_agree (prohibited_characters t1) (prohibited_characters t2) /\
  table_agree (bidirectional_r_al t1) (bidirectional_r_al t2) /\
  table_agree (bidirectional_l t1) (bidirectional_l t2).

Context (t1 : MemoryCodePoints B1) (t2 : MemoryCodePoints B2).
Context (Ht : tables_agree t1 t2).

Lemma some_agree (b1 : B1) (b2 : B2) (l : list Z) :
  table_agree b1 b2 -> existsb (get b1) l = existsb (get b2) l.
Proof. intros Hb. apply some_ext. intros c _. apply Hb. Qed.

Lemma mapped_input_agree input : mapped_input t1 input = mapped_input t2 input.
Proof.
  destruct Ht as (_ & Hn & Hs & _). unfold mapped_input.
  rewrite (map_ext (map_to_space t1) (map_to_space t2))
    by (intros c; unfold map_to_space, mapping2space; by rewrite Hs).
  apply filter_ext. intros c. unfold keep_character, mapping2nothing. by rewrite Hn.
Qed.

Lemma saslprep_checks_agree opts n :
  saslprep_checks t1 opts n = saslprep_checks t2 opts n.
Proof.
  destruct Ht as (Hu & _ & _ & Hp & Hr & Hl). rewrite !saslprep_checks_unfold.
  unfold hasProhibited, hasUnassigned, hasBidiRAL, hasBidiL, edges_RAL.
  rewrite (some_agree _ _ _ Hp), (some_agree _ _ _ Hu), (some_agree _ _ _ Hr),
    (some_agree _ _ _ Hl).
  by destruct (head n), (list.last n); simpl; rewrite ?Hr.
Qed.

Lemma saslprep_agree (v : js_value) (o : option Options) :
  saslprep t1 v o = saslprep t2 v o.
Proof.
  unfold saslprep, normalized_input. rewrite mapped_input_agree.
  repeat case_if; try done.
  destruct (fromCodePoint _); [|done]. rewrite !result_bind_Ok.
  apply saslprep_checks_agree.
Qed.

End agree.

(** ** Morphisms *)

Lemma tables_equiv_agree {B : Type} {BF : BitField B} (t1 t2 : MemoryCodePoints B) :
  tables_equiv t1 t2 <-> tables_agree t1 t2.
Proof. done. Qed.

(** [saslprep] respects the equivalence of tables. *)
#[global] Instance saslprep_proper {B : Type} {BF : BitField B} {NF : Normalizer} :
  Proper (@tables_equiv B BF ==> eq ==> eq ==> eq) (@saslprep B BF NF).
Proof. intros t1 t2 Ht v ? <- o ? <-. by apply saslprep_agree, tables_equiv_agree. Qed.

#[global] Instance mapped_input_proper {B : Type} {BF : BitField B} :
  Proper (@tables_equiv B BF ==> eq ==> eq) (@mapped_input B BF).
Proof. intros t1 t2 Ht v ? <-. by apply mapped_input_agree, tables_equiv_agree. Qed.

Lemma tables_map_agree {B1 B2 : Type} {BF1 : BitField B1} {BF2 : BitField B2}
    (f : B1 -> B2) (t : MemoryCodePoints B1) :
  (forall b c, get (f b) c = get b c) -> tables_agree (tables_map f t) t.
Proof. intros Hf. repeat split; intros c; apply Hf. Qed.
