(* ===== verification/SortedRanges.v ===== *)
(** * SortedRanges: a table as a sorted array of ranges

    The specification names two representations of a table (design notes):
    a hash set, which [Tables] has as [gset Z], and a membership test on
    sorted ranges, which is this file.  [sort_ranges] builds the array from
    the rows of a table in any order, merging rows that overlap;
    [bsearch] looks a code point up by bisection.  The theorems say that
    the array built is sorted, that bisection on a sorted array answers as
    the linear scan of the rows does, and that it reads a number of ranges
    logarithmic in the length of the array.  None of this is code of the
    repository: the file models the representation the specification
    asks of the tables, and [Profile] instantiates the contract of
    [saslprep] with it. *)

From Equations Require Import Equations.
From S2P Require Import Prelude JsString Tables Normalize Rfc3454.

(** ** Sorted arrays of ranges *)

(** The ranges are not empty, in increasing order and disjoint, and all
    above [prev]. *)
Fixpoint sorted_from (prev : Z) (rs : list (Z * Z)) : bool :=
  match rs with
  | [] => true
  | r :: rs' => bool_decide (prev < r.1 <= r.2) && sorted_from r.2 rs'
  end.

Definition sorted_ranges (rs : list (Z * Z)) : bool :=
  match rs with
  | [] => true
  | r :: _ => sorted_from (r.1 - 1) rs
  end.

(** ** Construction *)

(** Insert the range [r] into a sorted array: before the first range
    above it, after the ranges below it, merged with the ranges it
    meets. *)
Fixpoint insert_range (rs : list (Z * Z)) (r : Z * Z) : list (Z * Z) :=
  match rs with
  | [] => [r]
  | r' :: rs' =>
      if decide (r.2 < r'.1) then r :: rs
      else if decide (r'.2 < r.1) then r' :: insert_range rs' r
      else insert_range rs' (Z.min r.1 r'.1, Z.max r.2 r'.2)
  end.

(** The sorted array of the rows [rs]; a row with no member is dropped. *)
Definition sort_ranges (rs : list (Z * Z)) : list (Z * Z) :=
  foldr (fun r acc => if decide (r.1 <= r.2) then insert_range acc r else acc) [] rs.

(** ** Membership by bisection *)

(** The search between the indices [lo] (included) and [hi] (excluded):
    probe the middle range, and go on below it or above it. *)
Equations? bsearch (rs : list (Z * Z)) (c : Z) (lo hi : nat) : bool
    by wf (hi - lo)%nat lt :=
  bsearch rs c lo hi with decide (lo < hi)%nat => {
    | right _ := false
    | left _ with rs !! ((lo + hi) / 2)%nat => {
        | None := false
        | Some r with decide (c < r.1) => {
            | left _ := bsearch rs c lo ((lo + hi) / 2)%nat
            | right _ with decide (r.2 < c) => {
                | left _ := bsearch rs c (S ((lo + hi) / 2)) hi
                | right _ := true } } } }.
Proof.
  all: clear bsearch; pose proof (Nat.div_mod_eq (lo + hi) 2);
    pose proof (Nat.mod_upper_bound (lo + hi) 2); lia.
Qed.

(** The table: an array of ranges searched by bisection. *)
Record sorted_table : Type := SortedTable { table_ranges : list (Z * Z) }.

#[global] Instance sorted_bitfield : BitField sorted_table :=
  fun t c => bsearch (table_ranges t) c 0 (length (table_ranges t)).

(** The table of the rows [rs]. *)
Definition createSortedTable (rs : list (Z * Z)) : sorted_table :=
  SortedTable (sort_ranges rs).

(** ** The number of probes *)

(** The search with a bound on the number of probes: [None] when the
    bound is reached before the interval is empty. *)
Fixpoint bsearch_probes (probes : nat) (rs : list (Z * Z)) (c : Z) (lo hi : nat)
    : option bool :=
  match probes with
  | O => if decide (lo < hi)%nat then None else Some false
  | S probes' =>
      if decide (lo < hi)%nat then
        match rs !! ((lo + hi) / 2)%nat with
        | None => Some false
        | Some r =>
            if decide (c < r.1) then bsearch_probes probes' rs c lo ((lo + hi) / 2)
            else if decide (r.2 < c) then bsearch_probes probes' rs c (S ((lo + hi) / 2)) hi
            else Some true
        end
      else Some false
  end.

(** ** Lemmas *)

(** The index probed is between the two bounds. *)
Lemma midpoint_bounds (lo hi : nat) :
  (lo < hi)%nat -> (lo <= (lo + hi) / 2 < hi)%nat.
Proof.
  pose proof (Nat.div_mod_eq (lo + hi) 2).
  pose proof (Nat.mod_upper_bound (lo + hi) 2). lia.
Qed.

Lemma sorted_from_cons prev r rs :
  sorted_from prev (r :: rs) = true <->
  prev < r.1 <= r.2 /\ sorted_from r.2 rs = true.
Proof. simpl. by rewrite andb_true_iff, bool_decide_eq_true. Qed.

Lemma sorted_from_weaken prev prev' rs :
  prev' <= prev -> sorted_from prev rs = true -> sorted_from prev' rs = true.
Proof.
  destruct rs as [|r rs]; [done|]. rewrite !sorted_from_cons. intros ? [? ?].
  split; [lia|done].
Qed.

(** Every range of a sorted array is above [prev] and not empty. *)
Lemma sorted_from_lookup prev rs i r :
  sorted_from prev rs = true -> rs !! i = Some r -> prev < r.1 <= r.2.
Proof.
  revert prev i. induction rs as [|r0 rs IH]; intros prev i; [done|].
  rewrite sorted_from_cons. intros [H0 Hs]. destruct i as [|i]; simpl.
  - by intros [= <-].
  - intros Hr. specialize (IH _ _ Hs Hr). lia.
Qed.

(** A range of a sorted array ends below the ranges after it. *)
Lemma sorted_from_lt prev rs i j r r' :
  sorted_from prev rs = true -> (i < j)%nat ->
  rs !! i = Some r -> rs !! j = Some r' -> r.2 < r'.1.
Proof.
  revert prev i j. induction rs as [|r0 rs IH]; intros prev i j; [done|].
  rewrite sorted_from_cons. intros [H0 Hs] Hij.
  destruct j as [|j]; [lia|]. destruct i as [|i]; simpl.
  - intros [= <-] Hr'. by destruct (sorted_from_lookup _ _ _ _ Hs Hr').
  - apply (IH _ _ _ Hs). lia.
Qed.

(** [insert_range] adds the members of the range. *)
Lemma get_insert_range rs r c :
  r.1 <= r.2 -> get (insert_range rs r) c = in_range c r || get rs c.
Proof.
  revert r. induction rs as [|r' rs IH]; intros r Hr; [done|]. simpl.
  repeat case_decide; [done|..].
  - change (get (r' :: insert_range rs r) c)
      with (in_range c r' || get (insert_range rs r) c).
    rewrite IH by done. change (get (r' :: rs) c) with (in_range c r' || get rs c).
    by destruct (in_range c r), (in_range c r').
  - rewrite IH by (simpl; lia).
    change (get (r' :: rs) c) with (in_range c r' || get rs c).
    rewrite orb_assoc. f_equal. unfold in_range. simpl. lia.
Qed.

(** [insert_range] keeps the array sorted. *)
Lemma insert_range_sorted prev rs r :
  prev < r.1 <= r.2 -> sorted_from prev rs = true ->
  sorted_from prev (insert_range rs r) = true.
Proof.
  revert prev r. induction rs as [|r' rs IH]; intros prev r Hr.
  { intros _. apply sorted_from_cons. by split. }
  intros Hs. pose proof Hs as [H' Hs']%sorted_from_cons. simpl.
  repeat case_decide.
  - apply sorted_from_cons. split; [done|]. apply sorted_from_cons. split; [lia|done].
  - apply sorted_from_cons. split; [done|]. apply IH; [lia|done].
  - apply IH; [simpl; lia|]. apply (sorted_from_weaken r'.2); [lia|done].
Qed.

Lemma sorted_from_ranges prev rs :
  sorted_from prev rs = true -> sorted_ranges rs = true.
Proof.
  destruct rs as [|r rs]; [done|]. unfold sorted_ranges.
  rewrite !sorted_from_cons. intros [? ?]. split; [lia|done].
Qed.

Lemma sorted_ranges_from prev rs :
  sorted_ranges rs = true -> (forall r, head rs = Some r -> prev < r.1) ->
  sorted_from prev rs = true.
Proof.
  destruct rs as [|r rs]; [done|]. unfold sorted_ranges.
  rewrite !sorted_from_cons. intros [? ?] Hp. specialize (Hp r eq_refl).
  split; [lia|done].
Qed.

Lemma insert_range_sorted_ranges rs r :
  r.1 <= r.2 -> sorted_ranges rs = true -> sorted_ranges (insert_range rs r) = true.
Proof.
  intros Hr Hs. apply (sorted_from_ranges (Z.min r.1 (default r (head rs)).1 - 1)).
  apply insert_range_sorted; [lia|]. apply sorted_ranges_from; [done|].
  intros r0 ->. simpl. lia.
Qed.

Lemma sort_ranges_sorted_ranges rs : sorted_ranges (sort_ranges rs) = true.
Proof.
  induction rs as [|r rs IH]; [done|]. simpl.
  case_decide; [by apply insert_range_sorted_ranges|done].
Qed.

(** The array built from the rows has the members of the rows. *)
Lemma get_sort_ranges rs c : get (sort_ranges rs) c = get rs c.
Proof.
  induction rs as [|r rs IH]; [done|]. simpl.
  change (get (r :: rs) c) with (in_range c r || get rs c).
  case_decide; [by rewrite get_insert_range, IH|].
  rewrite IH. unfold in_range. destruct (get rs c); lia.
Qed.

(** Where a code point that the range at [i] holds lies, seen from the
    range at [j]. *)
Lemma sorted_from_compare prev rs i j r r' c :
  sorted_from prev rs = true -> rs !! i = Some r -> rs !! j = Some r' ->
  r.1 <= c <= r.2 ->
  (c < r'.1 -> (i < j)%nat) /\ (r'.2 < c -> (j < i)%nat).
Proof.
  intros Hs Hi Hj Hc. pose proof (sorted_from_lookup _ _ _ _ Hs Hj).
  destruct (lt_eq_lt_dec i j) as [[Hlt| ->]|Hlt].
  - pose proof (sorted_from_lt _ _ _ _ _ _ Hs Hlt Hi Hj). lia.
  - simplify_eq. lia.
  - pose proof (sorted_from_lt _ _ _ _ _ _ Hs Hlt Hj Hi). lia.
Qed.

(** The search may leave out the indices at which the code point cannot
    be. *)
Lemma bsearch_narrow (rs : list (Z * Z)) c (lo hi lo' hi' : nat) :
  (lo <= lo' /\ hi' <= hi)%nat ->
  (forall i r, (lo <= i < hi)%nat -> rs !! i = Some r -> r.1 <= c <= r.2 ->
    (lo' <= i < hi')%nat) ->
  (exists i r, (lo' <= i < hi')%nat /\ rs !! i = Some r /\ r.1 <= c <= r.2) <->
  (exists i r, (lo <= i < hi)%nat /\ rs !! i = Some r /\ r.1 <= c <= r.2).
Proof.
  intros ? Hin. split; intros (i & r & ? & Hi & Hc); exists i, r.
  - split; [lia|done].
  - split; [by apply (Hin i r)|done].
Qed.

(** Bisection finds a code point exactly when a range between the two
    indices holds it. *)
Lemma bsearch_spec prev rs c lo hi :
  sorted_from prev rs = true -> (hi <= length rs)%nat ->
  bsearch rs c lo hi = true <->
  exists i r, (lo <= i < hi)%nat /\ rs !! i = Some r /\ r.1 <= c <= r.2.
Proof.
  revert rs c lo hi. apply (bsearch_elim (fun rs c lo hi b =>
    sorted_from prev rs = true -> (hi <= length rs)%nat ->
    b = true <-> exists i r, (lo <= i < hi)%nat /\ rs !! i = Some r /\ r.1 <= c <= r.2)).
  - intros rs c lo hi ? _ _ _. split; [done|]. intros (i & r & ? & _). lia.
  - intros rs c lo hi Hlt Hm%lookup_ge_None _ _ ?. apply midpoint_bounds in Hlt. lia.
  - intros rs c lo hi r ? Hlt IH _ Hm _ Hs ?. apply midpoint_bounds in Hlt.
    rewrite IH by (done || lia). apply bsearch_narrow; [lia|]. intros i r' ? Hi Hc.
    destruct (sorted_from_compare _ _ _ _ _ _ _ Hs Hi Hm Hc). lia.
  - intros rs c lo hi r ? ? Hlt IH _ _ Hm _ Hs ?. apply midpoint_bounds in Hlt.
    rewrite IH by (done || lia). apply bsearch_narrow; [lia|]. intros i r' ? Hi Hc.
    destruct (sorted_from_compare _ _ _ _ _ _ _ Hs Hi Hm Hc). lia.
  - intros rs c lo hi r ? ? Hlt _ _ Hm _ _ _. apply midpoint_bounds in Hlt.
    split; [|done]. intros _. exists ((lo + hi) / 2)%nat, r. split; [lia|].
    split; [done|lia].
Qed.

(** On a sorted array, bisection over the whole array is the linear scan. *)
Lemma bsearch_ranges rs c :
  sorted_ranges rs = true -> bsearch rs c 0 (length rs) = get rs c.
Proof.
  intros Hs. apply eq_true_iff_eq.
  rewrite (bsearch_spec ((default (0, 0) (head rs)).1 - 1)), get_ranges; [|
    apply sorted_ranges_from; [done|]; intros r ->; simpl; lia | done].
  setoid_rewrite list_elem_of_lookup. split.
  - intros (i & r & _ & ? & ?). eauto.
  - intros (r & [i Hi] & ?). exists i, r. split; [|done].
    apply lookup_lt_Some in Hi. lia.
Qed.

Lemma get_createSortedTable rs c : get (createSortedTable rs) c = get rs c.
Proof.
  unfold get at 1, sorted_bitfield, createSortedTable. simpl.
  rewrite bsearch_ranges, get_sort_ranges; [done|]. apply sort_ranges_sorted_ranges.
Qed.

(** [bsearch] unfolded once. *)
Lemma bsearch_step rs c lo hi :
  bsearch rs c lo hi =
  if decide (lo < hi)%nat then
    match rs !! ((lo + hi) / 2)%nat with
    | None => false
    | Some r =>
        if decide (c < r.1) then bsearch rs c lo ((lo + hi) / 2)
        else if decide (r.2 < c) then bsearch rs c (S ((lo + hi) / 2)) hi
        else true
    end
  else false.
Proof.
  revert rs c lo hi. apply (bsearch_elim (fun rs c lo hi b => b =
    if decide (lo < hi)%nat then
      match rs !! ((lo + hi) / 2)%nat with
      | None => false
      | Some r =>
          if decide (c < r.1) then bsearch rs c lo ((lo + hi) / 2)
          else if decide (r.2 < c) then bsearch rs c (S ((lo + hi) / 2)) hi
          else true
      end
    else false)); intros;
    repeat match goal with
    | H : decide _ = _ |- _ => rewrite H; clear H
    | H : _ !! _ = _ |- _ => rewrite H; clear H
    end; done.
Qed.

(** An interval of fewer than [2 ^ probes] ranges is searched within
    [probes] probes. *)
Lemma bsearch_probes_enough probes rs c lo hi :
  (hi - lo < 2 ^ probes)%nat ->
  bsearch_probes probes rs c lo hi = Some (bsearch rs c lo hi).
Proof.
  revert lo hi. induction probes as [|probes IH]; intros lo hi Hn;
    rewrite bsearch_step; cbn [bsearch_probes]; case_decide as Hlt; try done.
  { simpl in Hn. lia. }
  pose proof (Nat.div_mod_eq (lo + hi) 2). pose proof (Nat.mod_upper_bound (lo + hi) 2).
  rewrite Nat.pow_succ_r' in Hn. destruct (rs !! _) as [r|]; [|done].
  repeat case_decide; [apply IH; lia..|done].
Qed.

(** ** Theorems *)

(** Bisection is the linear scan: on an array of ranges that is
    sorted, the table searched by [bsearch] answers [get] for every code
    point as the list of the same ranges does, which tries each range in
    turn. *)
Theorem bsearch_linear (rs : list (Z * Z)) (c : Z) :
  sorted_ranges rs = true -> get (SortedTable rs) c = get rs c.
Proof. apply bsearch_ranges. Qed.

(** The cost of a membership test is logarithmic: [get] on an array of
    [n] ranges reads at most one range more than the binary logarithm of
    [n]. *)
Theorem bsearch_logarithmic (rs : list (Z * Z)) (c : Z) :
  bsearch_probes (S (Nat.log2 (length rs))) rs c 0 (length rs)
  = Some (get (SortedTable rs) c).
Proof.
  apply bsearch_probes_enough. destruct (length rs) as [|n] eqn:E; [simpl; lia|].
  rewrite Nat.sub_0_r. apply Nat.log2_spec. lia.
Qed.

(** The array [createSortedTable] builds from the rows of a table, in
    whatever order and with whatever overlaps they come, is sorted, and
    holds the code points of the rows and no other. *)
Theorem createSortedTable_sorted (rs : list (Z * Z)) :
  sorted_ranges (table_ranges (createSortedTable rs)) = true /\
  forall c, get (createSortedTable rs) c = get rs c.
Proof. split; [apply sort_ranges_sorted_ranges|apply get_createSortedTable]. Qed.

(** ** Witnesses *)

(** Rows out of order, two of which overlap. *)
Example sort_ranges_example :
  sort_ranges [(5, 9); (1, 3); (8, 12); (4, 4)] = [(1, 3); (4, 4); (5, 12)].
Proof. reflexivity. Qed.

(** The prohibited rows of RFC 3454 are neither sorted nor disjoint; the
    array built from them finds U+FFFD, which only table C.6 has. *)
Example createSortedTable_example :
  sorted_ranges (prohibited_characters rfc_tables) = false /\
  get (createSortedTable (prohibited_characters rfc_tables)) 0xFFFD = true.
Proof. by vm_compute. Qed.

(** Table B.1 has eight ranges: a code point below all of them is not
    found within three probes, and is within four. *)
Example bsearch_probes_example :
  bsearch_probes 3 table_B_1 0x41 0 8 = None /\
  bsearch_probes 4 table_B_1 0x41 0 8 = Some false.
Proof. split; reflexivity. Qed.

(** ZERO WIDTH NON-JOINER in table B.1, which is sorted as printed. *)
Example bsearch_linear_example :
  get (SortedTable table_B_1) 0x200C = get table_B_1 0x200C.
Proof. exact (bsearch_linear table_B_1 0x200C eq_refl). Qed.
