(* ===== verification/Idempotence.v ===== *)
(** * Idempotence: preparing a prepared string

    The specification lists idempotence among its properties: when
    [saslprep] returns [y] for some input, it returns [y] for [y].  The
    property relates the tables and the normaliser: a returned string is
    returned again exactly when the map step and the normaliser leave it
    unchanged, which holds when every code point of the non-ASCII space
    table is prohibited (appendix C.1.2 of RFC 3454 is part of both) and
    the returned string holds no code point of the mapped-to-nothing
    table.  The second condition follows when the normaliser creates
    no code point of that table, as is the case of the tables of RFC 3454
    with the normaliser of [Rfc3454]. *)

From S2P Require Import Prelude JsString CodePoints Tables Normalize Rfc3454 SaslPrep.
From S2P Require Import Spec Output.

Section idempotence.
Context {B : Type} {BF : BitField B} {NF : Normalizer} {NL : NormalizerLaws}.
Implicit Types (tables : MemoryCodePoints B) (input y : js_string) (o : option Options).

(** Every code point of the non-ASCII space table is prohibited. *)
Definition space_prohibited tables : Prop :=
  forall c, get (non_ASCII_space_characters tables) c = true ->
            get (prohibited_characters tables) c = true.

(** No code point of the string is in the mapped-to-nothing table. *)
Definition keeps_all tables y : bool :=
  negb (existsb (get (commonly_mapped_to_nothing tables)) (toCodePoints y)).

(** ** Lemmas *)

Lemma normal_form_normalized tables input :
  normalize_NFKC (normal_form tables input) = normal_form tables input.
Proof. apply nfkc_idem. Qed.

(** A normalised string without prohibited and without dropped code
    points is its own normal form. *)
Lemma normal_form_fixed tables y :
  wf_string y -> normalize_NFKC y = y -> space_prohibited tables ->
  hasProhibited tables (toCodePoints y) = false -> keeps_all tables y = true ->
  normal_form tables y = y.
Proof.
  intros Hwf Hn Hs Hp Hk. unfold normal_form.
  rewrite mapped_input_id; [by rewrite toCodePoints_encode|].
  intros c Hc. split.
  - destruct (get (non_ASCII_space_characters tables) c) eqn:E; [|done].
    apply Hs in E. by rewrite (proj1 (some_false _ _) Hp c Hc) in E.
  - apply negb_true_iff in Hk. by apply (proj1 (some_false _ _) Hk).
Qed.

(** A string returned is returned again when it holds nothing that is
    mapped to nothing. *)
Lemma saslprep_again tables input o y :
  wf_string input -> space_prohibited tables ->
  saslprep tables (JsString input) o = Ok y ->
  keeps_all tables y = true ->
  saslprep tables (JsString y) o = Ok y.
Proof.
  intros Hwf Hs Hy Hk. destruct (decide (input = [])) as [->|Hne].
  { by injection Hy as <-. }
  rewrite saslprep_wf in Hy by done. pose proof Hy as (-> & _ & Hp & _)%saslprep_checks_Ok.
  assert (normal_form tables input <> []) as Hn
    by (by intros E; rewrite E, saslprep_checks_nil in Hy).
  rewrite saslprep_wf by (by try apply normal_form_wf).
  by rewrite normal_form_fixed by (by try apply normal_form_wf || apply normal_form_normalized).
Qed.

(** ** Theorems *)

(** C12: [saslprep] is idempotent on its results: a string [y] that
    [saslprep] returned is returned unchanged when it is prepared again
    with the same tables and options, provided every non-ASCII space is
    prohibited in the tables and [y] holds no code point of the
    mapped-to-nothing table. *)
Theorem saslprep_idempotent tables input o y :
  wf_string input -> space_prohibited tables ->
  saslprep tables (JsString input) o = Ok y ->
  keeps_all tables y = true ->
  saslprep tables (JsString y) o = Ok y.
Proof. apply saslprep_again. Qed.

(** C35: the criterion: a string [y] that [saslprep] returned is returned
    again exactly when the map step followed by normalisation leaves it
    unchanged.  The checks decide nothing the second time, since they
    read the normalised string only and have passed on [y]; the
    conditions of [saslprep_idempotent] are sufficient for the right-hand
    side, and it fails for the tables at the end of this file. *)
Theorem saslprep_idempotent_iff tables input o y :
  wf_string input -> saslprep tables (JsString input) o = Ok y ->
  saslprep tables (JsString y) o = Ok y <-> normal_form tables y = y.
Proof.
  intros Hwf Hy. destruct (decide (input = [])) as [->|Hne].
  { injection Hy as <-. split; [intros _|done]. by apply nfkc_nil_iff. }
  rewrite saslprep_wf in Hy by done. pose proof Hy as (-> & _)%saslprep_checks_Ok.
  assert (normal_form tables input <> []) as Hn
    by (by intros E; rewrite E, saslprep_checks_nil in Hy).
  rewrite saslprep_wf by (by try apply normal_form_wf).
  split; [by intros (E & _)%saslprep_checks_Ok|by intros ->].
Qed.

(** Idempotence from the tables and the normaliser alone: when every
    non-ASCII space is prohibited, the mapped-to-nothing table lies in
    the Basic Multilingual Plane and the normaliser creates none of its
    code points, every string [saslprep] returns is returned again. *)
Theorem saslprep_idempotent_tables tables input o y :
  wf_string input -> space_prohibited tables ->
  bmp_table (commonly_mapped_to_nothing tables) ->
  creates_none (commonly_mapped_to_nothing tables) ->
  saslprep tables (JsString input) o = Ok y ->
  saslprep tables (JsString y) o = Ok y.
Proof.
  intros Hwf Hs Hb Hn Hy. apply (saslprep_again tables input); [done..|].
  apply negb_true_iff, some_false. intros c Hc.
  destruct (decide (input = [])) as [->|Hne]; [injection Hy as <-; by apply elem_of_nil in Hc|].
  rewrite saslprep_wf in Hy by done. apply saslprep_checks_Ok in Hy as (-> & _).
  by apply (normal_form_drops tables input).
Qed.

End idempotence.

(** ** Tables for which idempotence fails *)

(** Tables that map the letter "a" to a space and prohibit nothing. *)
Definition tables_a_is_space : MemoryCodePoints (list (Z * Z)) := {|
  unassigned_code_points := [];
  commonly_mapped_to_nothing := [];
  non_ASCII_space_characters := [(0x61, 0x61)];
  prohibited_characters := [];
  bidirectional_r_al := [];
  bidirectional_l := [];
|}.

(** Tables that map the letters "a" and "b" to nothing. *)
Definition tables_a_is_nothing : MemoryCodePoints (list (Z * Z)) := {|
  unassigned_code_points := [];
  commonly_mapped_to_nothing := [(0x61, 0x62)];
  non_ASCII_space_characters := [];
  prohibited_characters := [];
  bidirectional_r_al := [];
  bidirectional_l := [];
|}.

(** Two tables without the conditions, on which a second call returns
    another string.  With U+00AA normalising to "a": when "a" is in the
    space table and not prohibited, [saslprep] returns "a" for U+00AA and
    " " for "a"; when "a" and "b" are in the mapped-to-nothing table, it
    returns "ac" for U+00AA "c" and "c" for "ac". *)
Example saslprep_not_idempotent :
  (saslprep (NF := rfc_normalizer) tables_a_is_space (JsString [0x00AA]) None = Ok [0x61] /\
   saslprep (NF := rfc_normalizer) tables_a_is_space (JsString [0x61]) None = Ok [0x20]) /\
  (saslprep (NF := rfc_normalizer) tables_a_is_nothing (JsString [0x00AA; 0x63]) None
     = Ok [0x61; 0x63] /\
   saslprep (NF := rfc_normalizer) tables_a_is_nothing (JsString [0x61; 0x63]) None
     = Ok [0x63]).
Proof. repeat split; reflexivity. Qed.

(** ** The tables of RFC 3454 *)

(** With the tables of RFC 3454 and the normaliser of the examples,
    [saslprep] is idempotent on every input. *)
Theorem saslprep_idempotent_rfc (input : js_string) o y :
  wf_string input -> rfc_saslprep input o = Ok y -> rfc_saslprep y o = Ok y.
Proof.
  intros Hwf.
  exact (saslprep_idempotent_tables (NL := rfc_normalizer_laws) rfc_tables input o y Hwf
           rfc_space_prohibited rfc_nothing_bmp rfc_creates_none).
Qed.

(** ** Witnesses *)

(** "I<U+00AD>X" gives "IX", and "IX" gives "IX". *)
Lemma saslprep_idempotent_witness : rfc_saslprep [0x49; 0x58] None = Ok [0x49; 0x58].
Proof.
  exact (saslprep_idempotent (NL := rfc_normalizer_laws) rfc_tables [0x49; 0x00AD; 0x58]
           None [0x49; 0x58] ltac:(by apply wf_stringb_spec) rfc_space_prohibited
           eq_refl eq_refl).
Defined.

(** "IX", returned for "I<U+00AD>X", is its own normal form. *)
Lemma saslprep_idempotent_iff_witness :
  rfc_saslprep [0x49; 0x58] None = Ok [0x49; 0x58]
  <-> normal_form (NF := rfc_normalizer) rfc_tables [0x49; 0x58] = [0x49; 0x58].
Proof.
  exact (saslprep_idempotent_iff (NL := rfc_normalizer_laws) rfc_tables [0x49; 0x00AD; 0x58]
           None [0x49; 0x58] ltac:(by apply wf_stringb_spec) eq_refl).
Defined.
