(* ===== verification/Profile.v ===== *)
(** * Profile: the contract of [saslprep] under the SASLprep profile

    The theorems of the other files each need some condition on the
    tables or on the normaliser.  [Profile] collects the conditions that
    RFC 4013 makes true: the RandALCat and the mapped-to-nothing tables
    lie in the Basic Multilingual Plane, every surrogate and every
    non-ASCII space is prohibited, and the normaliser creates no code
    point that is mapped to nothing.  Under them one theorem says what a
    caller gets from [saslprep] for any argument, against the
    specification [prepare], and the tables of RFC 3454 meet them in
    every representation of [Tables] and [SortedRanges]. *)

From S2P Require Import Prelude JsString CodePoints Tables Normalize Rfc3454 SaslPrep.
From S2P Require Import Spec Output Representation SortedRanges Idempotence.

Section profile.
Context {B : Type} {BF : BitField B} {NF : Normalizer}.
Implicit Types (tables : MemoryCodePoints B) (v : js_value) (o : option Options).

(** ** The conditions *)

Class Profile tables : Prop := {
  profile_r_al : bmp_table (bidirectional_r_al tables);
  profile_surrogates : prohibits_surrogates tables;
  profile_space : space_prohibited tables;
  profile_nothing : bmp_table (commonly_mapped_to_nothing tables);
  profile_creates_none : creates_none (commonly_mapped_to_nothing tables);
}.

(** ** The contract *)

(** What the result [r] of [saslprep tables v o] is to the caller: a
    string that [prepare] returns, well-formed, free of prohibited and of
    mapped-to-nothing code points, and that [saslprep] returns again; or
    the exception of the error kind with which [prepare] fails; or the
    TypeError of line 4, where [prepare] returns the empty string. *)
Definition meets_contract tables v o (r : result js_error js_string) : Prop :=
  match r with
  | Ok y =>
      prepare tables v (allows_unassigned o) = Ok y /\
      isWellFormed y = true /\
      (forall c, c ∈ toCodePoints y ->
         get (prohibited_characters tables) c = false /\
         get (commonly_mapped_to_nothing tables) c = false) /\
      saslprep tables (JsString y) o = Ok y
  | Err e =>
      match classify e with
      | Some kind => prepare tables v (allows_unassigned o) = Err kind
      | None => e = undefined_codePointAt /\ prepare tables v (allows_unassigned o) = Ok []
      end
  end.

(** ** Lemmas *)

Context {NL : NormalizerLaws}.

(** A string that passes the checks meets the contract of the input it
    is the normal form of. *)
Lemma contract_Ok tables `{!Profile tables} input o y :
  wf_string input -> input <> [] -> normal_form tables input <> [] ->
  saslprep_checks tables (default default_opts o) (normal_form tables input) = Ok y ->
  meets_contract tables (JsString input) o (Ok y).
Proof.
  intros Hwf Hne Hn Hy.
  assert (saslprep tables (JsString input) o = Ok y) as Hs by (by rewrite saslprep_wf).
  pose proof Hy as (-> & _ & Hp & _)%saslprep_checks_Ok. split_and!.
  - rewrite prepare_string, bool_decide_eq_false_2 by done.
    pose proof (classify_checks tables (default default_opts o) _ profile_r_al Hn) as Hc.
    unfold checks_unassigned in Hc. rewrite negb_involutive, Hy in Hc.
    unfold allows_unassigned. by injection Hc as <-.
  - by eapply saslprep_checks_well_formed; [apply profile_surrogates|].
  - intros c Hc. split; [by apply (proj1 (some_false _ _) Hp)|].
    by apply (normal_form_drops tables input);
      [|apply profile_nothing|apply profile_creates_none|].
  - by apply (saslprep_idempotent_tables tables input);
      [|apply profile_space|apply profile_nothing|apply profile_creates_none|].
Qed.

(** An exception of the checks is the failure of [prepare]. *)
Lemma contract_Err tables `{!Profile tables} input o e :
  input <> [] -> normal_form tables input <> [] ->
  saslprep_checks tables (default default_opts o) (normal_form tables input) = Err e ->
  meets_contract tables (JsString input) o (Err e).
Proof.
  intros Hne Hn He. unfold meets_contract.
  rewrite prepare_string, bool_decide_eq_false_2 by done.
  pose proof (classify_checks tables (default default_opts o) _ profile_r_al Hn) as Hc.
  rewrite He in Hc. simpl in Hc. unfold allows_unassigned.
  unfold checks_unassigned in Hc. rewrite negb_involutive in Hc.
  destruct (classify e); [by injection Hc as <-|done].
Qed.

(** ** Theorems *)

(** The contract of [saslprep].  With tables and a normaliser that
    meet the conditions of the profile, whatever the argument and the
    option: a string returned is the string the specification returns,
    it is well-formed UTF-16, none of its code points is prohibited or
    mapped to nothing, and [saslprep] returns it again; an exception is
    the error kind with which the specification fails, except for the
    TypeError of an input of which nothing is left, where the
    specification returns the empty string. *)
Theorem saslprep_meets_contract tables `{!Profile tables} v o :
  wf_value v -> meets_contract tables v o (saslprep tables v o).
Proof.
  intros Hwf. destruct v as [| | | |input|]; try done.
  destruct (decide (input = [])) as [->|Hne].
  { split_and!; try done. intros c. rewrite toCodePoints_nil. by intros ?%elem_of_nil. }
  rewrite saslprep_wf by done.
  destruct (decide (normal_form tables input = [])) as [Hn|Hn].
  - rewrite Hn, saslprep_checks_nil. split; [done|].
    rewrite prepare_string, bool_decide_eq_false_2, Hn by done.
    unfold prepare_checks. simpl. by rewrite andb_false_r.
  - destruct (saslprep_checks _ _ _) as [y|e] eqn:E;
      [by apply contract_Ok|by apply contract_Err].
Qed.

End profile.

(** ** The profile in another representation *)

(** Tables that answer [get] alike meet the profile together. *)
Lemma profile_agree {B1 B2 : Type} {BF1 : BitField B1} {BF2 : BitField B2}
    {NF : Normalizer} (t1 : MemoryCodePoints B1) (t2 : MemoryCodePoints B2) :
  tables_agree t1 t2 -> Profile t2 -> Profile t1.
Proof.
  intros (Hu & Hn & Hs & Hp & Hr & Hl) [Pr Pp Ps Pn Pc]. split.
  - intros c Hc. rewrite (Hr c) in Hc. auto.
  - intros c Hc. rewrite (Hp c). auto.
  - intros c Hc. rewrite (Hs c) in Hc. rewrite (Hp c). auto.
  - intros c Hc. rewrite (Hn c) in Hc. auto.
  - intros s c Hwf Hc Hg. rewrite (Hn c) in Hg. eauto.
Qed.

Lemma profile_tables_map {B1 B2 : Type} {BF1 : BitField B1} {BF2 : BitField B2}
    {NF : Normalizer} (f : B1 -> B2) (t : MemoryCodePoints B1) :
  (forall b c, get (f b) c = get b c) -> Profile t -> Profile (tables_map f t).
Proof. intros Hf. by apply profile_agree, tables_map_agree. Qed.

(** ** The tables of RFC 3454 *)

(** The rows of [Rfc3454] with the normaliser of the examples meet the
    profile. *)
Lemma rfc_profile : Profile (NF := rfc_normalizer) rfc_tables.
Proof.
  split; [exact rfc_r_al_bmp_table|exact rfc_prohibits_surrogates|
    exact rfc_space_prohibited|exact rfc_nothing_bmp|exact rfc_creates_none].
Qed.

(** The tables of RFC 3454 as sorted arrays searched by bisection. *)
Definition sorted_rfc_tables : MemoryCodePoints sorted_table :=
  tables_map createSortedTable rfc_tables.

(** [saslprep] on the sorted tables meets the contract for every
    argument: the data of [Rfc3454], the representation of
    [SortedRanges] and the normaliser of [Normalize] go together. *)
Theorem saslprep_rfc_contract (v : js_value) o :
  wf_value v ->
  meets_contract (NF := rfc_normalizer) sorted_rfc_tables v o
    (saslprep (NF := rfc_normalizer) sorted_rfc_tables v o).
Proof.
  apply (saslprep_meets_contract (NL := rfc_normalizer_laws)).
  apply profile_tables_map; [apply get_createSortedTable|apply rfc_profile].
Qed.

(** ** Examples *)

(** U+0627 U+0031, ALEF and a digit, fails the edge test on the sorted
    tables as the specification says. *)
Example saslprep_rfc_contract_example :
  saslprep (NF := rfc_normalizer) sorted_rfc_tables (JsString [0x0627; 0x0031]) None
    = Err (Error msg_bidi_edges) /\
  prepare (NF := rfc_normalizer) sorted_rfc_tables (JsString [0x0627; 0x0031]) false
    = Err BidiEdgePlacement.
Proof. split; reflexivity. Qed.
