(* ===== verification/Hangul.v ===== *)
(** * Hangul: the arithmetic part of NFKC

    Unicode normalisation is driven by the character database, except for
    Hangul: the syllables U+AC00..U+D7A3 decompose into conjoining jamo
    and are composed from them by arithmetic (Unicode Standard, section
    3.12).  This file is that part of [String.prototype.normalize] as the
    standard gives it: decomposition of every syllable, then composition
    of a leading consonant with a vowel and of the resulting syllable with
    a trailing consonant.  It is an instance of [Normalizer] that is not a
    map over the units of the string, it satisfies [NormalizerLaws], and
    it creates no code point of a table without syllables, so the
    theorems on [saslprep] apply to it: with the tables of RFC 3454,
    [saslprep] over this normaliser is idempotent and meets the contract
    of [Profile]. *)

From S2P Require Import Prelude JsString CodePoints Tables Normalize Rfc3454 SaslPrep.
From S2P Require Import Spec Output Idempotence Profile.

(** ** The constants of section 3.12 *)

Definition SBase : Z := 0xAC00.
Definition LBase : Z := 0x1100.
Definition VBase : Z := 0x1161.
Definition TBase : Z := 0x11A7.
Definition LCount : Z := 19.
Definition VCount : Z := 21.
Definition TCount : Z := 28.
Definition NCount : Z := VCount * TCount.
Definition SCount : Z := LCount * NCount.

(** Leading consonants, vowels, trailing consonants and syllables. *)
Definition is_L (u : Z) : bool := bool_decide (LBase <= u < LBase + LCount).
Definition is_V (u : Z) : bool := bool_decide (VBase <= u < VBase + VCount).
Definition is_T (u : Z) : bool := bool_decide (TBase < u < TBase + TCount).
Definition is_syllable (u : Z) : bool := bool_decide (SBase <= u < SBase + SCount).

(** A syllable without trailing consonant. *)
Definition is_LV (u : Z) : bool :=
  is_syllable u && bool_decide ((u - SBase) mod TCount = 0).

(** ** Decomposition *)

(** The jamo of the syllable [s]. *)
Definition hangul_decompose (s : Z) : js_string :=
  let SIndex := s - SBase in
  let L := LBase + SIndex / NCount in
  let V := VBase + (SIndex mod NCount) / TCount in
  let T := TBase + SIndex mod TCount in
  if bool_decide (T = TBase) then [L; V] else [L; V; T].

Definition decompose_unit (u : Z) : js_string :=
  if is_syllable u then hangul_decompose u else [u].

(** ** Composition *)

(** The syllable that [last] and [ch] compose, if any. *)
Definition hangul_pair (last ch : Z) : option Z :=
  if is_L last && is_V ch
  then Some (SBase + ((last - LBase) * VCount + (ch - VBase)) * TCount)
  else if is_LV last && is_T ch then Some (last + (ch - TBase))
  else None.

(** One pass over the string, [last] being the unit built so far. *)
Fixpoint compose_from (last : Z) (s : js_string) : js_string :=
  match s with
  | [] => [last]
  | ch :: rest =>
      match hangul_pair last ch with
      | Some syllable => compose_from syllable rest
      | None => last :: compose_from ch rest
      end
  end.

Definition hangul_compose (s : js_string) : js_string :=
  match s with
  | [] => []
  | u :: rest => compose_from u rest
  end.

(** ** The normaliser *)

(** Decomposition followed by composition. *)
Definition hangul_nfkc : Normalizer :=
  fun s => hangul_compose (s ≫= decompose_unit).

(** No two neighbours of the string compose. *)
Fixpoint settled (s : js_string) : bool :=
  match s with
  | [] => true
  | u :: rest =>
      from_option (fun v => bool_decide (hangul_pair u v = None)) true (head rest)
      && settled rest
  end.

(** ** Lemmas *)

Lemma is_L_spec u : is_L u = true <-> 0x1100 <= u <= 0x1112.
Proof. unfold is_L, LBase, LCount. rewrite bool_decide_eq_true. lia. Qed.

Lemma is_V_spec u : is_V u = true <-> 0x1161 <= u <= 0x1175.
Proof. unfold is_V, VBase, VCount. rewrite bool_decide_eq_true. lia. Qed.

Lemma is_T_spec u : is_T u = true <-> 0x11A8 <= u <= 0x11C2.
Proof. unfold is_T, TBase, TCount. rewrite bool_decide_eq_true. lia. Qed.

Lemma is_syllable_spec u : is_syllable u = true <-> 0xAC00 <= u <= 0xD7A3.
Proof.
  unfold is_syllable, SBase, SCount, LCount, NCount, VCount, TCount.
  rewrite bool_decide_eq_true. lia.
Qed.

Lemma is_LV_spec u :
  is_LV u = true <-> 0xAC00 <= u <= 0xD7A3 /\ (u - 0xAC00) mod 28 = 0.
Proof.
  unfold is_LV. by rewrite andb_true_iff, is_syllable_spec, bool_decide_eq_true.
Qed.

(** Read the tests on jamo and syllables as ranges. *)
Ltac hangul_solver :=
  bool_prop;
  rewrite ?is_L_spec, ?is_V_spec, ?is_T_spec, ?is_syllable_spec, ?is_LV_spec in *;
  unfold SBase, LBase, VBase, TBase, NCount, LCount, VCount, TCount in *;
  first [lia | Z.div_mod_to_equations; lia].

(** What composes is a consonant or a syllable without trailing
    consonant with a vowel or a trailing consonant, and gives a
    syllable. *)
Lemma hangul_pair_Some last ch s :
  hangul_pair last ch = Some s ->
  is_syllable s = true /\ (is_V ch = true \/ is_T ch = true) /\
  (is_L last = true \/ is_LV last = true).
Proof.
  unfold hangul_pair. do 2 (case_if; [intros [= <-]; bool_prop; split_and!; auto; hangul_solver|]).
  done.
Qed.

Lemma hangul_pair_None_r last ch :
  is_V ch = false -> is_T ch = false -> hangul_pair last ch = None.
Proof. unfold hangul_pair. intros -> ->. by rewrite !andb_false_r. Qed.

Lemma hangul_pair_None_l last ch :
  is_L last = false -> is_LV last = false -> hangul_pair last ch = None.
Proof. unfold hangul_pair. by intros -> ->. Qed.

(** A syllable and a leading consonant compose with nothing before
    them. *)
Lemma hangul_pair_syllable last s : is_syllable s = true -> hangul_pair last s = None.
Proof.
  intros Hs. apply hangul_pair_None_r; apply not_true_iff_false; intros ?; hangul_solver.
Qed.

Lemma hangul_pair_L last l : is_L l = true -> hangul_pair last l = None.
Proof.
  intros Hs. apply hangul_pair_None_r; apply not_true_iff_false; intros ?; hangul_solver.
Qed.

(** The first unit of the composition is [last] or a syllable built on
    it. *)
Lemma compose_from_head last s :
  exists h rest, compose_from last s = h :: rest /\ (h = last \/ is_syllable h = true).
Proof.
  revert last. induction s as [|ch s IH]; intros last; simpl; [by eauto|].
  destruct (hangul_pair last ch) as [syl|] eqn:E; [|by eauto].
  destruct (IH syl) as (h & rest & -> & Hh). exists h, rest. split; [done|]. right.
  destruct Hh as [->|?]; [by apply hangul_pair_Some in E as [? _]|done].
Qed.

Lemma compose_from_elem last s u :
  u ∈ compose_from last s -> u = last \/ u ∈ s \/ is_syllable u = true.
Proof.
  revert last. induction s as [|ch s IH]; intros last; simpl.
  - intros ->%list_elem_of_singleton. by left.
  - destruct (hangul_pair last ch) as [syl|] eqn:E.
    + intros [->|[?|?]]%IH; [|right; left; by right|by auto].
      right. right. by apply hangul_pair_Some in E as [? _].
    + intros [->|[->|[?|?]]%IH]%elem_of_cons; [by left|right; left..|by auto].
      * by left.
      * by right.
Qed.

Lemma settled_cons u v rest :
  settled (u :: v :: rest) = bool_decide (hangul_pair u v = None) && settled (v :: rest).
Proof. done. Qed.

(** The composition leaves nothing to compose. *)
Lemma compose_from_settled last s : settled (compose_from last s) = true.
Proof.
  revert last. induction s as [|ch s IH]; intros last; simpl; [done|].
  destruct (hangul_pair last ch) as [syl|] eqn:E; [by apply IH|].
  specialize (IH ch). destruct (compose_from_head ch s) as (h & rest & Hh & Hc).
  rewrite Hh in *. rewrite settled_cons, IH, andb_true_r. apply bool_decide_eq_true.
  destruct Hc as [->|Hs]; [done|by apply hangul_pair_syllable].
Qed.

(** A string with nothing to compose is left as it is. *)
Lemma compose_from_fixed u s : settled (u :: s) = true -> compose_from u s = u :: s.
Proof.
  revert u. induction s as [|v s IH]; intros u; [done|].
  rewrite settled_cons. intros [Hp%bool_decide_eq_true Hs]%andb_true_iff.
  simpl. by rewrite Hp, IH.
Qed.

Lemma hangul_compose_fixed s : settled s = true -> hangul_compose s = s.
Proof. destruct s as [|u s]; [done|]. apply compose_from_fixed. Qed.

Lemma hangul_compose_settled s : settled (hangul_compose s) = true.
Proof. destruct s as [|u s]; [done|]. apply compose_from_settled. Qed.

(** ** Decomposition against composition *)

Lemma hangul_pair_L_V l v :
  is_L l = true -> is_V v = true ->
  hangul_pair l v = Some (SBase + ((l - LBase) * VCount + (v - VBase)) * TCount).
Proof. unfold hangul_pair. by intros -> ->. Qed.

Lemma hangul_pair_LV_T lv t :
  is_LV lv = true -> is_T t = true -> hangul_pair lv t = Some (lv + (t - TBase)).
Proof.
  unfold hangul_pair. intros Hlv Ht. rewrite Hlv, Ht.
  replace (is_L lv) with false; [done|]. symmetry. apply not_true_iff_false.
  intros ?. hangul_solver.
Qed.

(** The jamo of a syllable compose to the syllable: its leading
    consonant followed by the rest of its jamo is read as the syllable
    itself. *)
Lemma hangul_decompose_compose u rest :
  is_syllable u = true ->
  exists l tl, hangul_decompose u = l :: tl /\ is_L l = true /\
    compose_from l (tl ++ rest) = compose_from u rest.
Proof.
  intros Hu. unfold hangul_decompose. set (l := LBase + (u - SBase) / NCount).
  set (v := VBase + (u - SBase) mod NCount / TCount).
  set (t := TBase + (u - SBase) mod TCount).
  assert (is_L l = true) as Hl by (subst l; hangul_solver).
  assert (is_V v = true) as Hv by (subst v; hangul_solver).
  case_bool_decide as Ht; eexists _, _; (split; [done|]); (split; [done|]); simpl;
    rewrite (hangul_pair_L_V l v) by done.
  - f_equal. subst l v t. hangul_solver.
  - rewrite hangul_pair_LV_T; [f_equal|..]; subst l v t; hangul_solver.
Qed.

(** Decomposing the syllables first changes nothing. *)
Lemma compose_from_decompose last s :
  compose_from last (s ≫= decompose_unit) = compose_from last s.
Proof.
  revert last. induction s as [|u s IH]; intros last; [done|].
  change ((u :: s) ≫= decompose_unit) with (decompose_unit u ++ (s ≫= decompose_unit)).
  unfold decompose_unit at 1. destruct (is_syllable u) eqn:Hu; simpl.
  - destruct (hangul_decompose_compose u (s ≫= decompose_unit) Hu) as (l & tl & -> & Hl & Hc).
    simpl. by rewrite (hangul_pair_L _ l), (hangul_pair_syllable _ u), Hc, IH.
  - by destruct (hangul_pair last u); rewrite IH.
Qed.

Lemma hangul_nfkc_compose s : @normalize_NFKC hangul_nfkc s = hangul_compose s.
Proof.
  unfold normalize_NFKC, hangul_nfkc. destruct s as [|u s]; [done|].
  change ((u :: s) ≫= decompose_unit) with (decompose_unit u ++ (s ≫= decompose_unit)).
  unfold decompose_unit at 1. destruct (is_syllable u) eqn:Hu; simpl.
  - destruct (hangul_decompose_compose u (s ≫= decompose_unit) Hu) as (l & tl & -> & Hl & Hc).
    simpl. by rewrite Hc, compose_from_decompose.
  - apply compose_from_decompose.
Qed.

(** ** The laws *)

Lemma settled_no_lead s :
  Forall (fun u => is_L u = false /\ is_LV u = false) s -> settled s = true.
Proof.
  induction 1 as [|u s [Hl Hlv] _ IH]; [done|]. simpl. rewrite IH, andb_true_r.
  destruct s as [|v s]; [done|]. simpl. by rewrite hangul_pair_None_l.
Qed.

Lemma hangul_nfkc_laws : @NormalizerLaws hangul_nfkc.
Proof.
  split; intros s; rewrite ?hangul_nfkc_compose.
  - intros Hwf. destruct s as [|u s]; [done|]. apply Forall_forall. intros w Hw.
    apply compose_from_elem in Hw as [->|[Hw|Hw]].
    + by apply (proj1 (Forall_forall _ _) Hwf); left.
    + by apply (proj1 (Forall_forall _ _) Hwf); right.
    + hangul_solver.
  - apply hangul_compose_fixed, hangul_compose_settled.
  - split; [|by intros ->]. destruct s as [|u s]; [done|]. simpl.
    by destruct (compose_from_head u s) as (h & rest & -> & _).
  - intros Hs. apply hangul_compose_fixed, settled_no_lead.
    eapply Forall_impl; [exact Hs|]. intros u Hu. simpl in Hu.
    split; apply not_true_iff_false; intros ?; hangul_solver.
Qed.

(** The normaliser creates syllables only. *)
Lemma hangul_creates_none {B : Type} `{BitField B} (table : B) :
  bmp_table table -> (forall c, is_syllable c = true -> get table c = false) ->
  creates_none (NF := hangul_nfkc) table.
Proof.
  intros Hb Hs s c Hwf Hc Hg. rewrite hangul_nfkc_compose, toCodePoints_eq in *.
  apply elem_of_decode_bmp in Hc; [|destruct (Hb c Hg); lia].
  apply elem_of_decode_unit.
  - destruct s as [|u s]; [done|]. apply compose_from_elem in Hc as [->|[Hc|Hc]].
    + by left.
    + by right.
    + by rewrite (Hs c Hc) in Hg.
  - apply not_true_iff_false. intros ?%is_surrogate_spec. destruct (Hb c Hg); lia.
Qed.

(** ** Theorems *)

(** The jamo of a syllable compose to the syllable: decomposition
    followed by composition is the identity on U+AC00..U+D7A3. *)
Theorem hangul_decompose_roundtrip (u : Z) :
  is_syllable u = true -> hangul_compose (hangul_decompose u) = [u].
Proof.
  intros Hu. destruct (hangul_decompose_compose u [] Hu) as (l & tl & -> & _ & Hc).
  by rewrite app_nil_r in Hc.
Qed.

(** No syllable is mapped to nothing by appendix B.1. *)
Lemma rfc_nothing_no_syllable c :
  is_syllable c = true -> get (commonly_mapped_to_nothing rfc_tables) c = false.
Proof.
  intros Hc%is_syllable_spec. apply not_true_iff_false. intros (r & Hr & ?)%get_ranges.
  cbn [commonly_mapped_to_nothing rfc_tables] in Hr. unfold table_B_1 in Hr.
  repeat (apply elem_of_cons in Hr as [->|Hr]; [simpl in *; lia|]).
  by apply elem_of_nil in Hr.
Qed.

(** With the tables of RFC 3454 and the composition of Hangul,
    [saslprep] is idempotent on every input. *)
Theorem saslprep_idempotent_hangul (input : js_string) o y :
  wf_string input ->
  saslprep (NF := hangul_nfkc) rfc_tables (JsString input) o = Ok y ->
  saslprep (NF := hangul_nfkc) rfc_tables (JsString y) o = Ok y.
Proof.
  intros Hwf.
  exact (saslprep_idempotent_tables (NL := hangul_nfkc_laws) rfc_tables input o y Hwf
           rfc_space_prohibited rfc_nothing_bmp
           (hangul_creates_none _ rfc_nothing_bmp rfc_nothing_no_syllable)).
Qed.

(** The tables of RFC 3454 with the composition of Hangul meet the
    profile, and so [saslprep] over them meets its contract. *)
Lemma hangul_profile : Profile (NF := hangul_nfkc) rfc_tables.
Proof.
  split; [exact rfc_r_al_bmp_table|exact rfc_prohibits_surrogates|
    exact rfc_space_prohibited|exact rfc_nothing_bmp|].
  exact (hangul_creates_none _ rfc_nothing_bmp rfc_nothing_no_syllable).
Qed.

Theorem saslprep_hangul_contract (v : js_value) o :
  wf_value v ->
  meets_contract (NF := hangul_nfkc) rfc_tables v o
    (saslprep (NF := hangul_nfkc) rfc_tables v o).
Proof.
  exact (saslprep_meets_contract (NL := hangul_nfkc_laws) (Profile0 := hangul_profile)
           rfc_tables v o).
Qed.

(** ** Examples *)

Example hangul_pair_example :
  hangul_pair 0x1100 0x1161 = Some 0xAC00 /\ hangul_pair 0xAC00 0x11A8 = Some 0xAC01 /\
  hangul_pair 0xAC01 0x11A8 = None /\ hangul_decompose 0xD7A3 = [0x1112; 0x1175; 0x11C2].
Proof. repeat split; reflexivity. Qed.

(** HANGUL CHOSEONG KIYEOK, JUNGSEONG A and JONGSEONG KIYEOK are
    returned as the one syllable U+AC01, and so is the syllable U+AC00
    followed by the trailing consonant; a soft hyphen between the jamo is
    dropped before they are composed. *)
Example saslprep_hangul :
  saslprep (NF := hangul_nfkc) rfc_tables (JsString [0x1100; 0x1161; 0x11A8]) None
    = Ok [0xAC01] /\
  saslprep (NF := hangul_nfkc) rfc_tables (JsString [0xAC00; 0x11A8]) None = Ok [0xAC01] /\
  saslprep (NF := hangul_nfkc) rfc_tables (JsString [0x1100; 0x00AD; 0x1161]) None
    = Ok [0xAC00].
Proof. repeat split; reflexivity. Qed.

Lemma hangul_decompose_roundtrip_witness :
  hangul_compose (hangul_decompose 0xD55C) = [0xD55C].
Proof. exact (hangul_decompose_roundtrip 0xD55C eq_refl). Defined.
