(* ===== verification/Engine.v ===== *)
(** * Engine: the argument limit of [String.fromCodePoint.apply]

    Lines 81-83 call [String.fromCodePoint.apply(null, mapped_input)]:
    every code point is one argument of the call.  An engine bounds the
    number of arguments of a call and throws a RangeError beyond that
    bound; the bound differs between engines and is a parameter here
    ([Engine]).  The bound is an assumption about the engine, no code of
    the repository; [saslprep_on] is [saslprep] as such an engine runs it.
    The file proves that it is [saslprep] on every input within the
    bound, so that the theorems of [SaslPrep], which are those of an
    engine without a bound, and the contract of [Profile] hold on the
    engine for every input within the bound; a string returned is
    returned again when it is itself within the bound. *)

From stdpp Require Import sets.
From S2P Require Import Prelude JsString CodePoints Tables Normalize Rfc3454 SaslPrep Spec.
From S2P Require Import Output Idempotence Profile.

(** ** The engine *)

(** The largest number of arguments of one call; [None] when the engine
    has no bound. *)
Class Engine : Type := max_arguments : option nat.

(** The message of the RangeError. *)
Definition msg_call_stack : string := "Maximum call stack size exceeded".

Section engine.
Context {EN : Engine} {B : Type} {BF : BitField B} {NF : Normalizer}.
Implicit Types (tables : MemoryCodePoints B) (input : js_string) (o : option Options).

(** The array is too long to be spread into arguments. *)
Definition exceeds_arguments (args : list Z) : bool :=
  from_option (fun n => bool_decide (n < length args)%nat) false max_arguments.

(** [String.fromCodePoint.apply(null, args)]. *)
Definition fromCodePoint_apply (args : list Z) : result js_error js_string :=
  if exceeds_arguments args then Err (RangeError msg_call_stack) else fromCodePoint args.

(** Lines 81-83 on the engine. *)
Definition normalized_input_on tables input : result js_error js_string :=
  s ← fromCodePoint_apply (mapped_input tables input); Ok (normalize_NFKC s).

(** [saslprep] (lines 39-151) on the engine. *)
Definition saslprep_on tables (input : js_value) (opts : option Options)
    : result js_error js_string :=
  let opts := default default_opts opts in
  if negb (String.eqb (js_typeof input) "string") then Err (TypeError msg_expected_string) else
  let input := js_string_value input in
  if bool_decide (length input = 0%nat) then Ok [] else
  normalized_input ← normalized_input_on tables input;
  saslprep_checks tables opts normalized_input.

(** The input is short enough for the engine, whatever the tables drop. *)
Definition fits_engine input : Prop :=
  forall n, max_arguments = Some n -> (length input <= n)%nat.

(** ** Lemmas *)

(** The map step never lengthens: one code point for one or two units,
    none added. *)
Lemma mapped_input_length tables input :
  (length (mapped_input tables input) <= length input)%nat.
Proof.
  unfold mapped_input. etrans; [apply filter_length_le|].
  rewrite length_map, toCodePoints_eq. apply decode_length.
Qed.

Lemma fits_engine_arguments tables input :
  fits_engine input -> exceeds_arguments (mapped_input tables input) = false.
Proof.
  unfold fits_engine, exceeds_arguments. destruct max_arguments as [n|]; [|done].
  intros H. specialize (H n eq_refl). pose proof (mapped_input_length tables input).
  simpl. apply bool_decide_eq_false. lia.
Qed.

Lemma normalized_input_on_fits tables input :
  exceeds_arguments (mapped_input tables input) = false ->
  normalized_input_on tables input = normalized_input tables input.
Proof. unfold normalized_input_on, fromCodePoint_apply. by intros ->. Qed.

Lemma normalized_input_on_exceeds tables input :
  exceeds_arguments (mapped_input tables input) = true ->
  normalized_input_on tables input = Err (RangeError msg_call_stack).
Proof. unfold normalized_input_on, fromCodePoint_apply. by intros ->. Qed.

(** [saslprep_on] in terms of [saslprep]: the one difference is the
    RangeError, thrown before any check. *)
Lemma saslprep_on_unfold tables input o :
  saslprep_on tables (JsString input) o =
  if bool_decide (input = []) then Ok []
  else if exceeds_arguments (mapped_input tables input)
       then Err (RangeError msg_call_stack)
       else saslprep tables (JsString input) o.
Proof.
  rewrite saslprep_string. unfold saslprep_on. simpl.
  destruct input as [|u rest]; [done|]. rewrite !bool_decide_eq_false_2 by done.
  destruct (exceeds_arguments _) eqn:E.
  - by rewrite normalized_input_on_exceeds.
  - by rewrite normalized_input_on_fits.
Qed.

Lemma saslprep_on_non_string tables (v : js_value) o :
  js_typeof v <> "string" -> saslprep_on tables v o = saslprep tables v o.
Proof.
  intros H. rewrite saslprep_non_string by done. unfold saslprep_on.
  by destruct (String.eqb_spec (js_typeof v) "string").
Qed.

(** Within the bound the engine makes no difference. *)
Lemma saslprep_on_value tables (v : js_value) o :
  exceeds_arguments (mapped_input tables (js_string_value v)) = false ->
  saslprep_on tables v o = saslprep tables v o.
Proof.
  intros Hfit. destruct (decide (js_typeof v = "string")) as [Hs|Hs];
    [|by apply saslprep_on_non_string].
  apply js_typeof_string in Hs as [input ->]. rewrite saslprep_on_unfold.
  simpl in Hfit. rewrite Hfit. by case_bool_decide; subst.
Qed.

(** ** Theorems *)

(** C15: on an engine with a bound on the number of arguments [saslprep]
    behaves as without the bound on every argument that is not a string
    and on every string of at most that many code units: same result,
    same exception. *)
Theorem saslprep_on_within_limit tables (v : js_value) o :
  fits_engine (js_string_value v) -> saslprep_on tables v o = saslprep tables v o.
Proof. intros Hfit. by apply saslprep_on_value, fits_engine_arguments. Qed.

(** C5: the contract of [saslprep], on any engine.  With tables and a
    normaliser that meet the conditions of the SASLprep profile, for
    every argument that is not a string and every string within the
    bound of the engine, whatever the option: a string returned is the
    string the specification returns, it is well-formed UTF-16, none of
    its code points is prohibited or mapped to nothing, and [saslprep]
    returns it again (on an engine without a bound; on the engine itself
    when the result is within the bound, [saslprep_on_idempotent]); an
    exception is the error kind with which the specification fails,
    except for the TypeError of an input of which nothing is left, where
    the specification returns the empty string. *)
Theorem saslprep_on_meets_contract {NL : NormalizerLaws} tables `{!Profile tables}
    (v : js_value) o :
  wf_value v -> fits_engine (js_string_value v) ->
  meets_contract tables v o (saslprep_on tables v o).
Proof.
  intros Hwf Hfit. rewrite saslprep_on_value by (by apply fits_engine_arguments).
  by apply saslprep_meets_contract.
Qed.

(** C40: a string returned is returned again on the engine when it is itself
    within the bound: with tables and a normaliser that meet the
    conditions of the profile, [saslprep] of a result of at most as many
    code units as the engine passes arguments is that result.  The
    normaliser may lengthen a string, so the bound on the argument does
    not bound the result. *)
Theorem saslprep_on_idempotent {NL : NormalizerLaws} tables `{!Profile tables}
    (v : js_value) o (y : js_string) :
  wf_value v -> fits_engine (js_string_value v) -> fits_engine y ->
  saslprep_on tables v o = Ok y -> saslprep_on tables (JsString y) o = Ok y.
Proof.
  intros Hwf Hfit Hy. rewrite !saslprep_on_value by (by apply fits_engine_arguments).
  intros H. pose proof (saslprep_meets_contract tables v o Hwf) as Hc.
  rewrite H in Hc. by destruct Hc as (_ & _ & _ & Hc).
Qed.

End engine.

(** ** Witnesses *)

(** An engine that passes at most four arguments. *)
Definition small_engine : Engine := Some 4%nat.

(** "I<U+00AD>X" has three units. *)
Lemma saslprep_on_within_limit_witness :
  saslprep_on (EN := small_engine) (NF := rfc_normalizer) rfc_tables
    (JsString [0x49; 0x00AD; 0x58]) None
  = rfc_saslprep [0x49; 0x00AD; 0x58] None.
Proof.
  refine (saslprep_on_within_limit (EN := small_engine) (NF := rfc_normalizer) rfc_tables
            (JsString [0x49; 0x00AD; 0x58]) None _).
  intros n [= <-]. simpl. lia.
Defined.

(** "I<U+00AD>X" gives "IX" on the engine of four arguments. *)
Lemma saslprep_on_meets_contract_witness :
  meets_contract (NF := rfc_normalizer) rfc_tables (JsString [0x49; 0x00AD; 0x58]) None
    (Ok [0x49; 0x58]).
Proof.
  refine (saslprep_on_meets_contract (EN := small_engine) (NL := rfc_normalizer_laws)
            (Profile0 := rfc_profile) rfc_tables (JsString [0x49; 0x00AD; 0x58]) None
            ltac:(by apply wf_stringb_spec) _).
  intros n [= <-]. simpl. lia.
Defined.

(** "I<U+00AD>X" gives "IX", of two units, and "IX" gives "IX". *)
Lemma saslprep_on_idempotent_witness :
  saslprep_on (EN := small_engine) (NF := rfc_normalizer) rfc_tables
    (JsString [0x49; 0x58]) None
  = Ok [0x49; 0x58].
Proof.
  refine (saslprep_on_idempotent (EN := small_engine) (NL := rfc_normalizer_laws)
            (Profile0 := rfc_profile) rfc_tables (JsString [0x49; 0x00AD; 0x58]) None
            [0x49; 0x58] ltac:(by apply wf_stringb_spec) _ _ eq_refl);
    intros n [= <-]; simpl; lia.
Defined.
