(* ===== verification/Exports.v ===== *)
(** * Exports: the module object (lines 153-155)

    [saslprep.saslprep = saslprep; saslprep.default = saslprep;
    export = saslprep;]: the module exports the function, and the
    function carries itself as its properties [saslprep] and [default].
    The object refers to itself, so every chain of these two property
    names reaches the same function; [resolve] follows such a chain from
    the exported value. *)

From S2P Require Import Prelude JsString CodePoints Tables Normalize SaslPrep.

Section exports.
Context {B : Type} {BF : BitField B} {NF : Normalizer}.

(** The type of the function. *)
Definition saslprep_function : Type :=
  MemoryCodePoints B -> js_value -> option Options -> result js_error js_string.

(** The properties lines 153 and 154 assign. *)
Definition assigned_property (name : string) : bool :=
  String.eqb name "saslprep" || String.eqb name "default".

(** The value of [require('saslprep').p1.p2...pn], for the properties the
    module assigns; [None] is [undefined]. *)
Fixpoint resolve (path : list string) : option saslprep_function :=
  match path with
  | [] => Some saslprep
  | name :: rest => if assigned_property name then resolve rest else None
  end.

(** Every chain of assigned properties reaches [saslprep], and no other
    chain reaches anything. *)
Lemma resolve_spec (path : list string) :
  resolve path = if forallb assigned_property path then Some saslprep else None.
Proof.
  induction path as [|name rest IH]; [done|]. simpl.
  by destruct (assigned_property name).
Qed.

End exports.

(** [require('saslprep').default.saslprep] is the function. *)
Lemma resolve_example {B : Type} {BF : BitField B} {NF : Normalizer} :
  resolve ["default"; "saslprep"] = Some (saslprep (B := B)).
Proof. reflexivity. Qed.
